(** * Banking Management System: the ledger routes and account provisioning

    A shallow embedding of [app/models.py], [app/forms.py] and the ledger
    routes of [app/routes/user_routes.py], with the properties of the
    transfer / deposit / withdraw subsystem stated over it.

    Modelling conventions
    - Integer columns are [Z] (Python integers do not wrap).
    - String columns are [string]; only ASCII text is represented.
    - A table is the list of its rows in table order; [Account.query.get]
      and [filter_by(...).first()] return the first matching row.
    - [form.amount.data] is a finite [Decimal], built from the submitted
      text without rounding; it is represented by the rational number it
      denotes ([Q]).  Arithmetic on it rounds as the default [decimal]
      context does: [Decimal * 100] is the product rounded to 28
      significant digits, ties to even, and the comparisons of
      [NumberRange] with its float limits are exact.
    - [db.session] is a unit of work over the committed tables: mutations
      touch the working copy, [commit] publishes it or raises, [rollback]
      discards it.  Whether a commit raises is an input of each request.
    - [datetime.utcnow()] is an input of each request, in microseconds. *)

From Stdlib Require Import ZArith QArith List String Ascii Bool Lia.
From Stdlib Require Import Sorting.Sorted Sorting.Permutation.
From Stdlib Require Import DecimalString DecimalZ.
Import ListNotations.

Local Open Scope Z_scope.

(** ** Python helpers *)

(** [int(d)] on a [Decimal]: truncation toward zero. *)
Definition py_int (q : Q) : Z := Z.quot (Qnum q) (Zpos (Qden q)).

(** ** decimal.Decimal *)

(** The arithmetic context of [decimal]: results are rounded to [prec]
    significant digits, [ROUND_HALF_EVEN].  Nothing in the application
    changes the default, 28. *)
Definition decimal_prec : Z := 28.

(** The greatest [e >= 0] with [m * 10^e <= a], for [0 < m <= a]. *)
Fixpoint log10_up (fuel : nat) (a m : Z) : Z :=
  match fuel with
  | O => 0
  | S fuel' => if m * 10 <=? a then 1 + log10_up fuel' a (m * 10) else 0
  end.

(** Minus the least [j >= 0] with [m <= a * 10^j], for [0 < a]. *)
Fixpoint log10_down (fuel : nat) (a m : Z) : Z :=
  match fuel with
  | O => 0
  | S fuel' => if m <=? a then 0 else log10_down fuel' (a * 10) m - 1
  end.

(** [Decimal.adjusted()]: the exponent of the leading digit of [a / m],
    for [0 < a] and [0 < m]. *)
Definition adjusted (a m : Z) : Z :=
  if m <=? a
  then log10_up (S (Z.to_nat (Z.log2 a))) a m
  else log10_down (S (Z.to_nat (Z.log2 m))) a m.

(** [a / m >= 0] to the nearest integer, a tie to the even neighbour. *)
Definition round_half_even (a m : Z) : Z :=
  let q := a / m in
  let r := a mod m in
  if 2 * r <? m then q
  else if m <? 2 * r then q + 1
  else if Z.even q then q else q + 1.

(** [Decimal._fix]: a value is kept when [prec] digits hold it and is
    rounded to [prec] significant digits otherwise. *)
Definition decimal_fix (q : Q) : Q :=
  let n := Qnum q in
  let m := Zpos (Qden q) in
  if n =? 0 then q
  else
    let a := Z.abs n in
    let s := decimal_prec - 1 - adjusted a m in
    if 0 <=? s
    then (Z.sgn n * round_half_even (a * 10 ^ s) m) # Z.to_pos (10 ^ s)
    else inject_Z (Z.sgn n * round_half_even a (m * 10 ^ (- s)) * 10 ^ (- s)).

(** [x * y] on [Decimal]s: the exact product, then [_fix]. *)
Definition decimal_mul (x y : Q) : Q := decimal_fix (x * y).

(** [x or y] on strings: the empty string is falsy. *)
Definition str_or (x y : string) : string :=
  match x with EmptyString => y | _ => x end.

(** [c.isspace()] for an ASCII character: TAB..CR, FS..US and SPACE. *)
Definition is_space (c : ascii) : bool :=
  let n := Z.of_nat (nat_of_ascii c) in
  ((9 <=? n) && (n <=? 13)) || ((28 <=? n) && (n <=? 32)).

(** [c] is one of '0'..'9'. *)
Definition is_digit (c : ascii) : bool :=
  let n := Z.of_nat (nat_of_ascii c) in (48 <=? n) && (n <=? 57).

(** [s.isdigit()]: at least one character and all of them digits. *)
Definition isdigit (s : string) : bool :=
  match list_ascii_of_string s with
  | [] => false
  | cs => forallb is_digit cs
  end.

(** [bool(s.strip())]: some character of [s] is not whitespace. *)
Definition strip_nonempty (s : string) : bool :=
  existsb (fun c => negb (is_space c)) (list_ascii_of_string s).

Definition len (s : string) : Z := Z.of_nat (String.length s).

(** ** models.py *)

Module Transaction.

Record t := mk {
  id : Z;
  from_account_id : option Z;
  to_account_id : option Z;
  amount : Z;                      (* cents *)
  transaction_type : string;       (* 'transfer', 'deposit', 'withdrawal' *)
  description : string;
  timestamp : Z
}.

End Transaction.

(** [sorted(l, key=lambda x: x.timestamp, reverse=True)]: a stable sort in
    descending key order (rows with equal keys keep their relative order). *)
Fixpoint insert_desc (x : Transaction.t) (l : list Transaction.t) : list Transaction.t :=
  match l with
  | [] => [x]
  | y :: ys =>
      if Transaction.timestamp y <=? Transaction.timestamp x
      then x :: y :: ys
      else y :: insert_desc x ys
  end.

Fixpoint sorted_by_timestamp_desc (l : list Transaction.t) : list Transaction.t :=
  match l with
  | [] => []
  | x :: xs => insert_desc x (sorted_by_timestamp_desc xs)
  end.

Definition opt_eqb (o : option Z) (k : Z) : bool :=
  match o with Some v => v =? k | None => false end.

Module Account.

Record t := mk {
  id : Z;
  user_id : Z;
  account_number : string;
  account_type : string;
  balance : Z;                     (* cents *)
  is_frozen : bool
}.

Definition set_balance (b : Z) (a : t) : t :=
  mk (id a) (user_id a) (account_number a) (account_type a) b (is_frozen a).

(** [self.balance += amount_cents] *)
Definition deposit (amount_cents : Z) (a : t) : t :=
  set_balance (balance a + amount_cents) a.

(** Returns the flag and the account after the call. *)
Definition withdraw (amount_cents : Z) (a : t) : bool * t :=
  if balance a >=? amount_cents
  then (true, set_balance (balance a - amount_cents) a)
  else (false, a).

(** The two dynamic relationships, as queries over the transactions table. *)
Definition transactions_sent (a : t) (txs : list Transaction.t) : list Transaction.t :=
  filter (fun x => opt_eqb (Transaction.from_account_id x) (id a)) txs.

Definition transactions_received (a : t) (txs : list Transaction.t) : list Transaction.t :=
  filter (fun x => opt_eqb (Transaction.to_account_id x) (id a)) txs.

Definition get_all_transactions (a : t) (txs : list Transaction.t) : list Transaction.t :=
  let sent := transactions_sent a txs in
  let received := transactions_received a txs in
  let all_transactions := sent ++ received in
  sorted_by_timestamp_desc all_transactions.

End Account.

(** ** The database and the session *)

Record DB := mkDB {
  accounts : list Account.t;
  transactions : list Transaction.t
}.

(** [Account.query.get(account_id)] *)
Definition query_get (account_id : Z) (rows : list Account.t) : option Account.t :=
  find (fun a => Account.id a =? account_id) rows.

(** [Account.query.filter_by(account_number=n).first()] *)
Definition first_by_number (n : string) (rows : list Account.t) : option Account.t :=
  find (fun a => String.eqb (Account.account_number a) n) rows.

(** [Account.query.filter_by(user_id=uid, is_frozen=False).all()] *)
Definition active_accounts_of (uid : Z) (rows : list Account.t) : list Account.t :=
  filter (fun a => (Account.user_id a =? uid) && negb (Account.is_frozen a)) rows.

(** Next value of an autoincrement primary key. *)
Definition next_id (ids : list Z) : Z := 1 + fold_right Z.max 0 ids.

(** Adding to the balance of the rows keyed [k]. *)
Definition bump (k delta : Z) (a : Account.t) : Account.t :=
  if Account.id a =? k then Account.deposit delta a else a.

Module Session.

Record t := mk { committed : DB; working : DB }.

Definition start (db : DB) : t := mk db db.

(** [obj.balance += delta] on the loaded row whose primary key is [k]. *)
Definition add_balance (k delta : Z) (s : t) : t :=
  mk (committed s)
     (mkDB (map (bump k delta) (accounts (working s)))
           (transactions (working s))).

(** [db.session.add(Transaction(...))]; the key is assigned on insert. *)
Definition add_transaction (mkrow : Z -> Transaction.t) (s : t) : t :=
  let txs := transactions (working s) in
  mk (committed s)
     (mkDB (accounts (working s))
           (txs ++ [mkrow (next_id (map Transaction.id txs))])).

(** [db.session.add(Account(...))] *)
Definition add_account (mkrow : Z -> Account.t) (s : t) : t :=
  let rows := accounts (working s) in
  mk (committed s)
     (mkDB (rows ++ [mkrow (next_id (map Account.id rows))])
           (transactions (working s))).

(** [db.session.commit()]: [None] when it raises. *)
Definition commit (ok : bool) (s : t) : option t :=
  if ok then Some (mk (working s) (working s)) else None.

Definition rollback (s : t) : t := mk (committed s) (committed s).

(** End of the request: what the next request will read. *)
Definition remove (s : t) : DB := committed s.

End Session.

(** ** forms.py *)

Inductive FieldError :=
| NotAValidChoice          (* SelectField.pre_validate *)
| FieldRequired            (* DataRequired *)
| WrongLength              (* Length *)
| NotOnlyDigits            (* 'Account number must contain only digits.' *)
| NoSuchAccountNumber      (* 'Account number does not exist.' *)
| FrozenDestination        (* 'Destination account is frozen ...' *)
| AmountOutOfRange.        (* NumberRange *)

(** The float literal [0.01], exactly: 0x1.47ae147ae147bp-7. *)
Definition float_0_01 : Q := 5764607523034235 # 576460752303423488.

(** A [SelectField(coerce=int)] with [DataRequired]: the data must be one of
    the choices; [DataRequired] on a falsy value replaces earlier errors. *)
Definition select_errors (choices : list Z) (data : Z) : list FieldError :=
  if data =? 0 then [FieldRequired]
  else if existsb (Z.eqb data) choices then []
  else [NotAValidChoice].

(** A [DecimalField] with [DataRequired] and [NumberRange(min, max)]. *)
Definition decimal_errors (min max data : Q) : list FieldError :=
  if Qeq_bool data 0 then [FieldRequired]
  else if negb (Qle_bool min data) || negb (Qle_bool data max)
       then [AmountOutOfRange]
       else [].

(** The description: [Optional()] then [Length(max=255)]. *)
Definition description_errors (data : string) : list FieldError :=
  if negb (strip_nonempty data) then []
  else if len data <=? 255 then [] else [WrongLength].

Module TransferForm.

Record t := mk {
  from_account : Z;
  to_account_id : string;
  amount : Q;
  description : string
}.

Definition validate_to_account_id (rows : list Account.t) (data : string)
  : list FieldError :=
  if negb (isdigit data) then [NotOnlyDigits]
  else match first_by_number data rows with
       | None => [NoSuchAccountNumber]
       | Some account =>
           if Account.is_frozen account then [FrozenDestination] else []
       end.

Definition to_account_id_errors (rows : list Account.t) (data : string)
  : list FieldError :=
  if negb (strip_nonempty data) then [FieldRequired]
  else (if len data =? 10 then [] else [WrongLength])
       ++ validate_to_account_id rows data.

(** The errors of all fields, in field order; valid when there are none. *)
Definition validate (choices : list Z) (rows : list Account.t) (f : t)
  : list FieldError :=
  select_errors choices (from_account f)
  ++ to_account_id_errors rows (to_account_id f)
  ++ decimal_errors float_0_01 (1000000 # 1) (amount f)
  ++ description_errors (description f).

End TransferForm.

(** [DepositForm] and [WithdrawForm] declare the same fields. *)
Module CashForm.

Record t := mk {
  account : Z;
  amount : Q;
  description : string
}.

Definition validate (choices : list Z) (f : t) : list FieldError :=
  select_errors choices (account f)
  ++ decimal_errors float_0_01 (100000 # 1) (amount f)
  ++ description_errors (description f).

End CashForm.

Module CreateAccountForm.

Record t := mk {
  account_type : string;
  initial_deposit : Q
}.

(** A [SelectField] of strings with [DataRequired]: the choice is checked
    first, and [DataRequired] replaces that error when the data is empty
    or blank. *)
Definition account_type_errors (data : string) : list FieldError :=
  if negb (strip_nonempty data) then [FieldRequired]
  else if String.eqb data "Current" || String.eqb data "savings"
       then [] else [NotAValidChoice].

Definition validate (f : t) : list FieldError :=
  account_type_errors (account_type f)
  ++ decimal_errors (10 # 1) (100000 # 1) (initial_deposit f).

End CreateAccountForm.

(** ** user_routes.py *)

Inductive Principal :=
| Anonymous
| User (uid : Z)
| Admin (aid : Z).

Inductive Method := GET | POST.

(** What a route answers: the flash message or page that tells outcomes
    apart. *)
Inductive Response :=
| LoginRequired                        (* @login_required *)
| AdminRedirect                        (* 'Admins cannot ...' *)
| NoActiveAccount                      (* 'You need at least one active account ...' *)
| RenderForm (errors : list FieldError)
| InvalidAccount                       (* 'Invalid source account.' / 'Invalid account.' *)
| SourceFrozen                         (* 'Your account is frozen. ...' *)
| DestinationNotFound                  (* 'Destination account not found.' *)
| DestinationFrozen                    (* 'Destination account is frozen ...' *)
| SelfTransferNotAllowed               (* 'Cannot transfer to the same account.' *)
| InsufficientFunds                    (* 'Insufficient balance. ...' *)
| Success                              (* 'Successfully ...' / '... created successfully!' *)
| OperationFailed                      (* rollback, '... failed. Please try again.' *)
| ErrorOccurred                        (* 'An error occurred. Please try again.' *)
| NotFound404
| Forbidden403
| AccountPage (account : Account.t) (txs : list Transaction.t).

(** Per-request inputs that the handler does not control. *)
Record Env := mkEnv {
  utcnow : Z;            (* datetime.utcnow(), microseconds *)
  commit_ok : bool       (* whether db.session.commit() returns *)
}.

(** [timedelta(hours=5, minutes=30)] in microseconds. *)
Definition ist_offset : Z := (5 * 3600 + 30 * 60) * 1000000.

(** [int(form.amount.data * 100)]. *)
Definition amount_cents_of (amount : Q) : Z :=
  py_int (decimal_mul amount (100 # 1)).

(** Commit, or roll back when the commit raises; then the request ends. *)
Definition finish (e : Env) (s : Session.t) : Response * DB :=
  match Session.commit (commit_ok e) s with
  | Some s' => (Success, Session.remove s')
  | None => (OperationFailed, Session.remove (Session.rollback s))
  end.

(** [transfer], lines 131-203: the body under [form.validate_on_submit()]. *)
Definition transfer_body (uid : Z) (form : TransferForm.t) (e : Env) (db : DB)
  : Response * DB :=
  match query_get (TransferForm.from_account form) (accounts db) with
  | None => (ErrorOccurred, db)        (* AttributeError, outer except *)
  | Some from_account =>
    if negb (Account.user_id from_account =? uid) then (InvalidAccount, db)
    else if Account.is_frozen from_account then (SourceFrozen, db)
    else
      match first_by_number (TransferForm.to_account_id form) (accounts db) with
      | None => (DestinationNotFound, db)
      | Some to_account =>
        if Account.is_frozen to_account then (DestinationFrozen, db)
        else if Account.id from_account =? Account.id to_account
        then (SelfTransferNotAllowed, db)
        else
          let amount_cents := amount_cents_of (TransferForm.amount form) in
          if Account.balance from_account <? amount_cents
          then (InsufficientFunds, db)
          else
            let s := Session.start db in
            let s := Session.add_balance (Account.id from_account) (- amount_cents) s in
            let s := Session.add_balance (Account.id to_account) amount_cents s in
            let s := Session.add_transaction (fun k =>
                       Transaction.mk k
                         (Some (Account.id from_account))
                         (Some (Account.id to_account))
                         amount_cents
                         "transfer"
                         (str_or (TransferForm.description form)
                                 ("Transfer to " ++ Account.account_number to_account))
                         (utcnow e + ist_offset)) s in
            finish e s
      end
  end.

Definition transfer (current_user : Principal) (method : Method)
    (form : TransferForm.t) (e : Env) (db : DB) : Response * DB :=
  match current_user with
  | Anonymous => (LoginRequired, db)
  | Admin _ => (AdminRedirect, db)
  | User uid =>
    match active_accounts_of uid (accounts db) with
    | [] => (NoActiveAccount, db)
    | user_accounts =>
      match method with
      | GET => (RenderForm [], db)
      | POST =>
        match TransferForm.validate (map Account.id user_accounts) (accounts db) form with
        | [] => transfer_body uid form e db
        | errors => (RenderForm errors, db)
        end
      end
    end
  end.

(** [deposit], lines 358-390. *)
Definition deposit_body (uid : Z) (form : CashForm.t) (e : Env) (db : DB)
  : Response * DB :=
  match query_get (CashForm.account form) (accounts db) with
  | None => (OperationFailed, db)      (* AttributeError, rollback *)
  | Some account =>
    if negb (Account.user_id account =? uid) then (InvalidAccount, db)
    else
      let amount_cents := amount_cents_of (CashForm.amount form) in
      let s := Session.start db in
      let s := Session.add_balance (Account.id account) amount_cents s in
      let s := Session.add_transaction (fun k =>
                 Transaction.mk k
                   None
                   (Some (Account.id account))
                   amount_cents
                   "deposit"
                   (str_or (CashForm.description form) "Cash deposit")
                   (utcnow e + ist_offset)) s in
      finish e s
  end.

(** [withdraw], lines 424-461. *)
Definition withdraw_body (uid : Z) (form : CashForm.t) (e : Env) (db : DB)
  : Response * DB :=
  match query_get (CashForm.account form) (accounts db) with
  | None => (OperationFailed, db)      (* AttributeError, rollback *)
  | Some account =>
    if negb (Account.user_id account =? uid) then (InvalidAccount, db)
    else
      let amount_cents := amount_cents_of (CashForm.amount form) in
      if Account.balance account <? amount_cents then (InsufficientFunds, db)
      else
        let s := Session.start db in
        let s := Session.add_balance (Account.id account) (- amount_cents) s in
        let s := Session.add_transaction (fun k =>
                   Transaction.mk k
                     (Some (Account.id account))
                     None
                     amount_cents
                     "withdrawal"
                     (str_or (CashForm.description form) "Cash withdrawal")
                     (utcnow e + ist_offset)) s in
        finish e s
  end.

(** The part [deposit] and [withdraw] share: the admin redirect, the
    choices built from the user's unfrozen accounts, the form validation. *)
Definition cash_route (body : Z -> CashForm.t -> Env -> DB -> Response * DB)
    (current_user : Principal) (method : Method)
    (form : CashForm.t) (e : Env) (db : DB) : Response * DB :=
  match current_user with
  | Anonymous => (LoginRequired, db)
  | Admin _ => (AdminRedirect, db)
  | User uid =>
    match active_accounts_of uid (accounts db) with
    | [] => (NoActiveAccount, db)
    | user_accounts =>
      match method with
      | GET => (RenderForm [], db)
      | POST =>
        match CashForm.validate (map Account.id user_accounts) form with
        | [] => body uid form e db
        | errors => (RenderForm errors, db)
        end
      end
    end
  end.

Definition deposit := cash_route deposit_body.
Definition withdraw := cash_route withdraw_body.

(** [check_account_ownership]: the account, or the status [abort] raises. *)
Definition check_account_ownership (uid account_id : Z) (db : DB)
  : Response + Account.t :=
  match query_get account_id (accounts db) with
  | None => inl NotFound404
  | Some account =>
      if negb (Account.user_id account =? uid) then inl Forbidden403
      else inr account
  end.

(** [account_details]: a read-only route. *)
Definition account_details (current_user : Principal) (account_id : Z) (db : DB)
  : Response * DB :=
  match current_user with
  | Anonymous => (LoginRequired, db)
  | Admin _ => (AdminRedirect, db)
  | User uid =>
    match check_account_ownership uid account_id db with
    | inl r => (r, db)
    | inr account =>
        (AccountPage account (Account.get_all_transactions account (transactions db)), db)
    end
  end.

(** ** Account provisioning *)

(** A result of [random.randint(0, 9)]. *)
Inductive Digit := D0 | D1 | D2 | D3 | D4 | D5 | D6 | D7 | D8 | D9.

(** [str(d)] for a one-digit integer. *)
Definition str_digit (d : Digit) : ascii :=
  match d with
  | D0 => "0" | D1 => "1" | D2 => "2" | D3 => "3" | D4 => "4"
  | D5 => "5" | D6 => "6" | D7 => "7" | D8 => "8" | D9 => "9"
  end%char.

(** The random source: the [i]-th call of [random.randint(0, 9)]. *)
Definition Rng := nat -> Digit.

(** [''.join([str(random.randint(0, 9)) for _ in range(n)])], drawing from
    position [pos] on. *)
Fixpoint join_digits (n : nat) (rng : Rng) (pos : nat) : string :=
  match n with
  | O => EmptyString
  | S n' => String (str_digit (rng pos)) (join_digits n' rng (S pos))
  end.

(** [generate_account_number]: the [while True] loop, bounded by [fuel]
    iterations; [None] when the bound is reached without a free number. *)
Fixpoint generate_account_number (fuel : nat) (rng : Rng) (pos : nat)
    (rows : list Account.t) : option string :=
  match fuel with
  | O => None
  | S fuel' =>
      let account_num := join_digits 10 rng pos in
      match first_by_number account_num rows with
      | None => Some account_num
      | Some _ => generate_account_number fuel' rng (pos + 10) rows
      end
  end.

(** [create_account]; [None] only when the number generation does not
    finish within [fuel] iterations. *)
Definition create_account (current_user : Principal) (method : Method)
    (form : CreateAccountForm.t) (fuel : nat) (rng : Rng) (e : Env) (db : DB)
  : option (Response * DB) :=
  match current_user with
  | Anonymous => Some (LoginRequired, db)
  | Admin _ => Some (AdminRedirect, db)
  | User uid =>
    match method with
    | GET => Some (RenderForm [], db)
    | POST =>
      match CreateAccountForm.validate form with
      | [] =>
        let initial_balance :=
          amount_cents_of (CreateAccountForm.initial_deposit form) in
        match generate_account_number fuel rng 0 (accounts db) with
        | None => None
        | Some number =>
          let s := Session.start db in
          let s := Session.add_account (fun k =>
                     Account.mk k uid number
                       (CreateAccountForm.account_type form)
                       initial_balance false) s in
          Some (finish e s)
        end
      | errors => Some (RenderForm errors, db)
      end
    end
  end.

(** ** Sequences of requests *)

Inductive Request :=
| Transfer (cu : Principal) (m : Method) (f : TransferForm.t) (e : Env)
| Deposit (cu : Principal) (m : Method) (f : CashForm.t) (e : Env)
| Withdraw (cu : Principal) (m : Method) (f : CashForm.t) (e : Env)
| CreateAccount (cu : Principal) (m : Method) (f : CreateAccountForm.t)
    (fuel : nat) (rng : Rng) (e : Env).

Definition handle (r : Request) (db : DB) : option (Response * DB) :=
  match r with
  | Transfer cu m f e => Some (transfer cu m f e db)
  | Deposit cu m f e => Some (deposit cu m f e db)
  | Withdraw cu m f e => Some (withdraw cu m f e db)
  | CreateAccount cu m f fuel rng e => create_account cu m f fuel rng e db
  end.

(** The database after serving the requests one after the other. *)
Fixpoint run (rs : list Request) (db : DB) : option DB :=
  match rs with
  | [] => Some db
  | r :: rs' =>
      match handle r db with
      | None => None
      | Some (_, db') => run rs' db'
      end
  end.

(** ** Invariants of the tables *)

Definition unique_ids (db : DB) : Prop :=
  NoDup (map Account.id (accounts db)).

Definition unique_numbers (db : DB) : Prop :=
  NoDup (map Account.account_number (accounts db)).

Definition balances_nonneg (db : DB) : Prop :=
  Forall (fun a => 0 <= Account.balance a) (accounts db).

Definition is_some {A} (o : option A) : bool :=
  match o with Some _ => true | None => false end.

(** The shape of a ledger record: positive amount, and the references that
    go with its type. *)
Definition record_ok (x : Transaction.t) : bool :=
  (0 <? Transaction.amount x) &&
  (if String.eqb (Transaction.transaction_type x) "deposit"
   then negb (is_some (Transaction.from_account_id x))
        && is_some (Transaction.to_account_id x)
   else if String.eqb (Transaction.transaction_type x) "withdrawal"
   then is_some (Transaction.from_account_id x)
        && negb (is_some (Transaction.to_account_id x))
   else if String.eqb (Transaction.transaction_type x) "transfer"
   then is_some (Transaction.from_account_id x)
        && is_some (Transaction.to_account_id x)
   else false).

Definition balance_of (k : Z) (db : DB) : option Z :=
  option_map Account.balance (query_get k (accounts db)).

(** ** A concrete scenario: accounts 1 (5000 cents) and 2 (1000 cents) *)

Definition acc1 : Account.t := Account.mk 1 1 "1000000001" "checking" 5000 false.
Definition acc2 : Account.t := Account.mk 2 2 "2000000002" "savings" 1000 false.
Definition acc3 : Account.t := Account.mk 3 1 "3000000003" "savings" 700 true.
Definition db0 : DB := mkDB [acc1; acc2; acc3] [].
Definition env0 : Env := mkEnv 0 true.
Definition t20 : TransferForm.t :=
  TransferForm.mk 1 "2000000002" (20 # 1) "Test Transfer".

(** ** Definitions used by the statements *)

(** The record a transfer inserts, and the tables after a committed
    transfer of [c] cents from [src] to [dst]. *)
Definition transfer_record (src dst : Account.t) (c : Z) (form : TransferForm.t)
    (e : Env) (k : Z) : Transaction.t :=
  Transaction.mk k (Some (Account.id src)) (Some (Account.id dst)) c "transfer"
    (str_or (TransferForm.description form)
            ("Transfer to " ++ Account.account_number dst))
    (utcnow e + ist_offset).

Definition transferred (src dst : Account.t) (c : Z) (form : TransferForm.t)
    (e : Env) (db : DB) : DB :=
  mkDB (map (bump (Account.id dst) c)
            (map (bump (Account.id src) (- c)) (accounts db)))
       (transactions db
        ++ [transfer_record src dst c form e
              (next_id (map Transaction.id (transactions db)))]).

(** The accepted case of the body, with every check it went through. *)
Definition transfer_accepted (uid : Z) (form : TransferForm.t) (e : Env)
    (db : DB) (src dst : Account.t) : Prop :=
  query_get (TransferForm.from_account form) (accounts db) = Some src /\
  first_by_number (TransferForm.to_account_id form) (accounts db) = Some dst /\
  Account.user_id src = uid /\
  Account.is_frozen src = false /\
  Account.is_frozen dst = false /\
  Account.id src <> Account.id dst /\
  amount_cents_of (TransferForm.amount form) <= Account.balance src /\
  commit_ok e = true.

(** What a successful transfer of the form's amount leaves behind: with [X]
    the source row and [Y] the destination row, [X] is debited and [Y]
    credited by the amount [A] in cents, their sum is as before, every
    other account reads as before, and one record of type transfer from
    [X] to [Y] of amount [A] is appended. *)
Definition transfer_postcondition (form : TransferForm.t) (db db' : DB) : Prop :=
  exists X Y bY x,
    let A := amount_cents_of (TransferForm.amount form) in
    query_get (TransferForm.from_account form) (accounts db) = Some X /\
    first_by_number (TransferForm.to_account_id form) (accounts db) = Some Y /\
    Account.id X <> Account.id Y /\
    0 < A /\
    balance_of (Account.id X) db = Some (Account.balance X) /\
    balance_of (Account.id Y) db = Some bY /\
    balance_of (Account.id X) db' = Some (Account.balance X - A) /\
    balance_of (Account.id Y) db' = Some (bY + A) /\
    (Account.balance X - A) + (bY + A) = Account.balance X + bY /\
    (forall k, k <> Account.id X -> k <> Account.id Y ->
               query_get k (accounts db') = query_get k (accounts db)) /\
    transactions db' = transactions db ++ [x] /\
    Transaction.from_account_id x = Some (Account.id X) /\
    Transaction.to_account_id x = Some (Account.id Y) /\
    Transaction.amount x = A /\
    Transaction.transaction_type x = "transfer"%string.

(** The precondition list as the specification words it: an ordered list of
    (check, error) pairs, the first check that fails giving the error.  The
    checks on the destination hold vacuously when it does not resolve;
    [funds_ok amount balance] is the fifth check. *)
Definition transfer_checks (funds_ok : Z -> Z -> bool) (form : TransferForm.t)
    (src : Account.t) (rows : list Account.t) : list (bool * Response) :=
  let dst := first_by_number (TransferForm.to_account_id form) rows in
  let on_dst (p : Account.t -> bool) :=
    match dst with Some d => p d | None => true end in
  [ (negb (Account.is_frozen src), SourceFrozen);
    (is_some dst, DestinationNotFound);
    (on_dst (fun d => negb (Account.is_frozen d)), DestinationFrozen);
    (on_dst (fun d => negb (Account.id src =? Account.id d)), SelfTransferNotAllowed);
    (funds_ok (amount_cents_of (TransferForm.amount form)) (Account.balance src),
     InsufficientFunds) ].

Definition first_failure (checks : list (bool * Response)) : option Response :=
  option_map snd (find (fun c => negb (fst c)) checks).

(** The fifth check as the specification states it, and as the body of the
    route performs it. *)
Definition funds_ok_spec (amount balance : Z) : bool :=
  (0 <? amount) && (amount <=? balance).

Definition funds_ok_route (amount balance : Z) : bool :=
  amount <=? balance.

Definition zero_amount_form : TransferForm.t :=
  TransferForm.mk 1 "2000000002" 0 "".

Definition w50 : CashForm.t := CashForm.mk 1 (50 # 1) "".
Definition w500 : CashForm.t := CashForm.mk 1 (500 # 1) "".


(** An amount of thirty significant digits, just below two cents. *)
Definition just_below_two_cents : Q :=
  199999999999999999999999999999 # 10000000000000000000000000000000.

Definition d10 : CashForm.t := CashForm.mk 1 (10 # 1) "".

(** The tables after a committed deposit ([delta] > 0) or withdrawal
    ([delta] < 0) on the rows keyed [k], with the record [x] appended. *)
Definition cash_applied (k delta : Z) (x : Transaction.t) (db : DB) : DB :=
  mkDB (map (bump k delta) (accounts db)) (transactions db ++ [x]).

Definition requests0 : list Request :=
  [ Withdraw (User 1) POST w500 env0;
    Transfer (User 1) POST t20 env0;
    Deposit (User 1) POST d10 env0;
    Withdraw (User 1) POST w50 env0 ].

(** The candidate drawn in iteration [k] of the loop started at [pos]. *)
Definition candidate (rng : Rng) (pos k : nat) : string :=
  join_digits 10 rng (pos + 10 * k).

(** A random source whose first ten draws spell the number of account 1
    and whose later draws are all 7. *)
Definition rng0 : Rng :=
  fun i => match i with
           | 0%nat => D1
           | 9%nat => D1
           | _ => if Nat.ltb i 10 then D0 else D7
           end.

Definition newer_first (x y : Transaction.t) : Prop :=
  Transaction.timestamp y <= Transaction.timestamp x.

(** ** admin_routes.py *)

Definition set_frozen (f : bool) (a : Account.t) : Account.t :=
  Account.mk (Account.id a) (Account.user_id a) (Account.account_number a)
    (Account.account_type a) (Account.balance a) f.

(** [account.is_frozen = not account.is_frozen] on the rows keyed [k]. *)
Definition flip_frozen (k : Z) (a : Account.t) : Account.t :=
  if Account.id a =? k then set_frozen (negb (Account.is_frozen a)) a else a.

Definition session_flip_frozen (k : Z) (s : Session.t) : Session.t :=
  Session.mk (Session.committed s)
    (mkDB (map (flip_frozen k) (accounts (Session.working s)))
          (transactions (Session.working s))).

(** [@login_required] then [@admin_required]: the refusal, if any. *)
Definition admin_required (current_user : Principal) : option Response :=
  match current_user with
  | Anonymous => Some LoginRequired
  | User _ => Some Forbidden403          (* abort(403) *)
  | Admin _ => None
  end.

(** [toggle_account_freeze]. *)
Definition toggle_account_freeze (current_user : Principal) (account_id : Z)
    (e : Env) (db : DB) : Response * DB :=
  match admin_required current_user with
  | Some refusal => (refusal, db)
  | None =>
    match query_get account_id (accounts db) with
    | None => (NotFound404, db)          (* get_or_404 *)
    | Some account =>
      let s := Session.start db in
      let s := session_flip_frozen (Account.id account) s in
      finish e s
    end
  end.

(** [db.session.query(func.sum(Account.balance)).scalar() or 0], the total
    of the admin dashboard, in cents. *)
Definition total_balance_cents (db : DB) : Z :=
  fold_right (fun a s => Account.balance a + s) 0 (accounts db).

(** ** Requests of users and administrators *)

Inductive SiteRequest :=
| UserRequest (r : Request)
| ToggleAccountFreeze (cu : Principal) (account_id : Z) (e : Env).

Definition serve (r : SiteRequest) (db : DB) : option (Response * DB) :=
  match r with
  | UserRequest r' => handle r' db
  | ToggleAccountFreeze cu k e => Some (toggle_account_freeze cu k e db)
  end.

Fixpoint serve_all (rs : list SiteRequest) (db : DB) : option DB :=
  match rs with
  | [] => Some db
  | r :: rs' =>
      match serve r db with
      | None => None
      | Some (_, db') => serve_all rs' db'
      end
  end.

(** The records of a deposit and of a withdrawal. *)
Definition deposit_record (a : Account.t) (c : Z) (form : CashForm.t)
    (e : Env) (k : Z) : Transaction.t :=
  Transaction.mk k None (Some (Account.id a)) c "deposit"
    (str_or (CashForm.description form) "Cash deposit")
    (utcnow e + ist_offset).

Definition withdrawal_record (a : Account.t) (c : Z) (form : CashForm.t)
    (e : Env) (k : Z) : Transaction.t :=
  Transaction.mk k (Some (Account.id a)) None c "withdrawal"
    (str_or (CashForm.description form) "Cash withdrawal")
    (utcnow e + ist_offset).

(** The transitions of the tables: what one served request can do. *)
Inductive effect (db : DB) : DB -> Prop :=
| effect_none : effect db db
| effect_transfer src dst c form e :
    In src (accounts db) -> In dst (accounts db) ->
    Account.id src <> Account.id dst ->
    1 <= c <= Account.balance src ->
    effect db (transferred src dst c form e db)
| effect_deposit a c form e :
    In a (accounts db) -> 1 <= c ->
    effect db (cash_applied (Account.id a) c
                 (deposit_record a c form e
                    (next_id (map Transaction.id (transactions db)))) db)
| effect_withdraw a c form e :
    In a (accounts db) -> 1 <= c <= Account.balance a ->
    effect db (cash_applied (Account.id a) (- c)
                 (withdrawal_record a c form e
                    (next_id (map Transaction.id (transactions db)))) db)
| effect_create uid number type initial_balance :
    first_by_number number (accounts db) = None ->
    1000 <= initial_balance <= 10000000 ->
    effect db (mkDB (accounts db ++
                     [Account.mk (next_id (map Account.id (accounts db)))
                        uid number type initial_balance false])
                    (transactions db))
| effect_toggle k :
    effect db (mkDB (map (flip_frozen k) (accounts db)) (transactions db)).

(** The identity of an account row: everything but its balance. *)
Definition identity (a : Account.t) : Z * Z * string * string * bool :=
  (Account.id a, Account.user_id a, Account.account_number a,
   Account.account_type a, Account.is_frozen a).

Definition holder (a : Account.t) : Z * Z * string * string :=
  (Account.id a, Account.user_id a, Account.account_number a,
   Account.account_type a).

Definition is_user_request (r : SiteRequest) : bool :=
  match r with UserRequest _ => true | _ => false end.

(** The net amount a record brings into the bank: deposits in, withdrawals
    out, transfers neither. *)
Definition net_inflow (x : Transaction.t) : Z :=
  if String.eqb (Transaction.transaction_type x) "deposit"
  then Transaction.amount x
  else if String.eqb (Transaction.transaction_type x) "withdrawal"
       then - Transaction.amount x
       else 0.

Definition net_flow (txs : list Transaction.t) : Z :=
  fold_right (fun x s => net_inflow x + s) 0 txs.

Definition is_ledger_request (r : SiteRequest) : bool :=
  match r with
  | UserRequest (CreateAccount _ _ _ _ _ _) => false
  | _ => true
  end.

(** A sequence in which an administrator freezes account 1 between two
    user requests, and unfreezes it before a third. *)
Definition site_requests0 : list SiteRequest :=
  [ UserRequest (Deposit (User 1) POST d10 env0);
    ToggleAccountFreeze (Admin 9) 1 env0;
    UserRequest (Withdraw (User 1) POST w50 env0);
    ToggleAccountFreeze (Admin 9) 1 env0;
    UserRequest (Transfer (User 1) POST t20 env0) ].

(** ** user_routes.py: the reading routes *)

(** [d[k] = v] on a dict, which keeps its keys in insertion order: an
    existing key keeps its place and takes the new value. *)
Fixpoint dict_set (k : Z) (v : Transaction.t) (d : list (Z * Transaction.t))
  : list (Z * Transaction.t) :=
  match d with
  | [] => [(k, v)]
  | (k', v') :: rest =>
      if k' =? k then (k, v) :: rest else (k', v') :: dict_set k v rest
  end.

(** [current_user.accounts.all()] *)
Definition accounts_of (uid : Z) (rows : list Account.t) : list Account.t :=
  filter (fun a => Account.user_id a =? uid) rows.

(** The two nested loops of [dashboard] filling [transactions_map]. *)
Definition transactions_map (accts : list Account.t) (txs : list Transaction.t)
  : list (Z * Transaction.t) :=
  fold_left
    (fun d account =>
       fold_left (fun d' tx => dict_set (Transaction.id tx) tx d')
                 (Account.get_all_transactions account txs) d)
    accts [].

(** [sum(account.balance for account in self.accounts)], the [total_cents]
    of [User.get_total_balance] before its division by 100.0. *)
Definition total_cents (uid : Z) (rows : list Account.t) : Z :=
  fold_right (fun a s => Account.balance a + s) 0 (accounts_of uid rows).

Record DashboardPage := mkDashboard {
  dashboard_accounts : list Account.t;
  recent_transactions : list Transaction.t;
  dashboard_total_cents : Z
}.

(** [dashboard]: the redirect, or what the template is given. *)
Definition dashboard (current_user : Principal) (db : DB)
  : Response + DashboardPage :=
  match current_user with
  | Anonymous => inl LoginRequired
  | Admin _ => inl AdminRedirect
  | User uid =>
      let user_accounts := accounts_of uid (accounts db) in
      let map_values :=
        map snd (transactions_map user_accounts (transactions db)) in
      let recent := firstn 10 (sorted_by_timestamp_desc map_values) in
      inr (mkDashboard user_accounts recent (total_cents uid (accounts db)))
  end.


Definition is_upper (c : ascii) : bool :=
  let n := Z.of_nat (nat_of_ascii c) in (65 <=? n) && (n <=? 90).


Definition to_lower (c : ascii) : ascii :=
  if is_upper c then ascii_of_nat (nat_of_ascii c + 32) else c.



Inductive Direction := Received | Sent.

(** A line of the statement.  The date, the amount and the balance are
    kept as the values that the route formats: the timestamp, the sign
    with the cents, the cents. *)
Record StatementRow := mkRow {
  row_date : Z;
  row_type : string;
  row_from : string;
  row_to : string;
  row_direction : Direction;
  row_amount : Z;
  row_balance_after : Z;
  row_description : string
}.




Fixpoint written_rows (l : list (option StatementRow)) : list StatementRow :=
  match l with
  | [] => []
  | Some r :: rest => r :: written_rows rest
  | None :: rest => written_rows rest
  end.


(** ** models.py: users *)

Module UserRow.

Record t := mk {
  id : Z;
  email : string;
  password_hash : string;
  full_name : string;
  phone : option string;
  is_admin : bool;
  is_active : bool;
  created_at : Z
}.

Definition set_active (b : bool) (u : t) : t :=
  mk (id u) (email u) (password_hash u) (full_name u) (phone u) (is_admin u)
     b (created_at u).

End UserRow.

(** The library functions the authentication code calls:
    [werkzeug.security.generate_password_hash], whose salt is drawn at
    random and is passed here, [check_password_hash], and the verdict of
    the [Email()] validator. *)
Record Library := mkLibrary {
  generate_password_hash : string -> string -> string;   (* salt, password *)
  check_password_hash : string -> string -> bool;        (* hash, password *)
  email_is_valid : string -> bool
}.

(** The contract of the two hashing functions. *)
Definition hashing_sound (lib : Library) : Prop :=
  forall salt password,
    check_password_hash lib (generate_password_hash lib salt password) password
    = true.

(** [s.lower()] on ASCII text. *)
Fixpoint lower (s : string) : string :=
  match s with
  | EmptyString => EmptyString
  | String c rest => String (to_lower c) (lower rest)
  end.

Fixpoint lstrip_chars (cs : list ascii) : list ascii :=
  match cs with
  | [] => []
  | c :: rest => if is_space c then lstrip_chars rest else cs
  end.

(** [s.strip()] *)
Definition strip (s : string) : string :=
  string_of_list_ascii
    (rev (lstrip_chars (rev (lstrip_chars (list_ascii_of_string s))))).

(** [s.split('@')[0]] *)
Fixpoint before_at (s : string) : string :=
  match s with
  | EmptyString => EmptyString
  | String c rest =>
      if Ascii.eqb c "@"%char then EmptyString else String c (before_at rest)
  end.

(** The users table beside the tables of the bank. *)
Record Site := mkSite {
  users : list UserRow.t;
  bank : DB
}.

(** [User.query.filter_by(email=e).first()] *)
Definition user_by_email (e : string) (rows : list UserRow.t) : option UserRow.t :=
  find (fun u => String.eqb (UserRow.email u) e) rows.

(** [User.query.get(user_id)] *)
Definition user_by_id (k : Z) (rows : list UserRow.t) : option UserRow.t :=
  find (fun u => UserRow.id u =? k) rows.

(** ** forms.py: registration and login *)

Inductive AuthFieldError :=
| Missing                  (* DataRequired *)
| InvalidEmail             (* Email *)
| BadLength                (* Length *)
| PasswordsDiffer          (* EqualTo *)
| EmailTaken.              (* 'Email already registered. ...' *)

Module RegisterForm.

Record t := mk {
  email : string;
  password : string;
  confirm : string
}.

Definition validate_email (rows : list UserRow.t) (data : string)
  : list AuthFieldError :=
  match user_by_email (strip (lower data)) rows with
  | Some _ => [EmailTaken]
  | None => []
  end.

Definition email_errors (lib : Library) (rows : list UserRow.t) (data : string)
  : list AuthFieldError :=
  if negb (strip_nonempty data) then [Missing]
  else (if email_is_valid lib data then [] else [InvalidEmail])
       ++ (if len data <=? 120 then [] else [BadLength])
       ++ validate_email rows data.

Definition password_errors (data : string) : list AuthFieldError :=
  if negb (strip_nonempty data) then [Missing]
  else if (6 <=? len data) && (len data <=? 128) then [] else [BadLength].

Definition confirm_errors (password data : string) : list AuthFieldError :=
  if negb (strip_nonempty data) then [Missing]
  else if String.eqb data password then [] else [PasswordsDiffer].

Definition validate (lib : Library) (rows : list UserRow.t) (f : t)
  : list AuthFieldError :=
  email_errors lib rows (email f)
  ++ password_errors (password f)
  ++ confirm_errors (password f) (confirm f).

End RegisterForm.

Module LoginForm.

Record t := mk {
  email : string;
  password : string;
  remember : bool
}.

Definition validate (lib : Library) (f : t) : list AuthFieldError :=
  (if negb (strip_nonempty (email f)) then [Missing]
   else if email_is_valid lib (email f) then [] else [InvalidEmail])
  ++ (if negb (strip_nonempty (password f)) then [Missing] else []).

End LoginForm.

(** ** auth.py *)

Inductive AuthResponse :=
| AlreadyLoggedIn                       (* redirect to a dashboard *)
| AuthForm (errors : list AuthFieldError)
| Registered (account_number : string)  (* 'Registration successful! ...' *)
| RegistrationFailed                    (* rollback *)
| InvalidCredentials                    (* 'Invalid email or password. ...' *)
| Deactivated                           (* 'Your account has been deactivated. ...' *)
| LoggedIn (user : UserRow.t).          (* login_user(user) *)

Definition is_authenticated (current_user : Principal) : bool :=
  match current_user with Anonymous => false | _ => true end.

(** [register]; [None] only when the number generation does not finish. *)
Definition register (lib : Library) (current_user : Principal) (method : Method)
    (form : RegisterForm.t) (salt : string) (fuel : nat) (rng : Rng)
    (e : Env) (site : Site) : option (AuthResponse * Site) :=
  if is_authenticated current_user then Some (AlreadyLoggedIn, site)
  else
    match method with
    | GET => Some (AuthForm [], site)
    | POST =>
      match RegisterForm.validate lib (users site) form with
      | [] =>
        let user_id := next_id (map UserRow.id (users site)) in   (* flush *)
        let user :=
          UserRow.mk user_id
            (strip (lower (RegisterForm.email form)))
            (generate_password_hash lib salt (RegisterForm.password form))
            (before_at (RegisterForm.email form))
            None false true (utcnow e + ist_offset) in
        match generate_account_number fuel rng 0 (accounts (bank site)) with
        | None => None
        | Some number =>
          let account :=
            Account.mk (next_id (map Account.id (accounts (bank site))))
              user_id number "Current" 10000 false in
          if commit_ok e
          then Some (Registered number,
                     mkSite (users site ++ [user])
                            (mkDB (accounts (bank site) ++ [account])
                                  (transactions (bank site))))
          else Some (RegistrationFailed, site)
        end
      | errors => Some (AuthForm errors, site)
      end
    end.

(** [User.verify_password] *)
Definition verify_password (lib : Library) (u : UserRow.t) (password : string)
  : bool :=
  check_password_hash lib (UserRow.password_hash u) password.

(** [login]: it reads the users table and changes nothing. *)
Definition login (lib : Library) (current_user : Principal) (method : Method)
    (form : LoginForm.t) (site : Site) : AuthResponse :=
  if is_authenticated current_user then AlreadyLoggedIn
  else
    match method with
    | GET => AuthForm []
    | POST =>
      match LoginForm.validate lib form with
      | [] =>
        match user_by_email (strip (lower (LoginForm.email form))) (users site) with
        | None => InvalidCredentials
        | Some user =>
          if negb (verify_password lib user (LoginForm.password form))
          then InvalidCredentials
          else if negb (UserRow.is_active user) then Deactivated
          else LoggedIn user
        end
      | errors => AuthForm errors
      end
    end.

(** [user.is_active = not user.is_active] on the rows keyed [k]. *)
Definition flip_active (k : Z) (u : UserRow.t) : UserRow.t :=
  if UserRow.id u =? k
  then UserRow.set_active (negb (UserRow.is_active u)) u
  else u.

(** [toggle_user_status] of admin_routes.py. *)
Definition toggle_user_status (current_user : Principal) (user_id : Z)
    (e : Env) (site : Site) : Response * Site :=
  match admin_required current_user with
  | Some refusal => (refusal, site)
  | None =>
    match user_by_id user_id (users site) with
    | None => (NotFound404, site)
    | Some user =>
      if commit_ok e
      then (Success,
            mkSite (map (flip_active (UserRow.id user)) (users site)) (bank site))
      else (OperationFailed, site)
    end
  end.

(** A stand-in for the library, to run the definitions on examples: the
    hash is the password itself and an address is valid when it has an
    at sign. *)
Definition demo_library : Library :=
  mkLibrary (fun salt password => password)
            String.eqb
            (fun e => match index 0 "@" e with Some _ => true | None => false end).

Definition site0 : Site := mkSite [] db0.

Definition alice_form : RegisterForm.t :=
  RegisterForm.mk "Alice@Example.COM" "secret1" "secret1".

Definition alice_login : LoginForm.t :=
  LoginForm.mk "alice@EXAMPLE.com " "secret1" false.

(** [str(n)] for an integer. *)
Definition str_int (n : Z) : string := NilEmpty.string_of_int (Z.to_int n).

(** [User.get_id] and [Admin.get_id]: the identifier kept in the session. *)
Definition user_get_id (k : Z) : string := str_int k.

Definition admin_get_id (k : Z) : string := ("admin_" ++ str_int k)%string.

Definition get_id (p : Principal) : option string :=
  match p with
  | Anonymous => None
  | User k => Some (user_get_id k)
  | Admin k => Some (admin_get_id k)
  end.

(** ** user_routes.py: change_password *)

Module ChangePasswordForm.

Record t := mk {
  Current_password : string;
  new_password : string;
  confirm_new_password : string
}.

Definition validate (f : t) : list AuthFieldError :=
  (if negb (strip_nonempty (Current_password f)) then [Missing] else [])
  ++ RegisterForm.password_errors (new_password f)
  ++ RegisterForm.confirm_errors (new_password f) (confirm_new_password f).

End ChangePasswordForm.

(** [current_user] as the object Flask-Login hands to the route. *)
Inductive LoadedUser :=
| Visitor
| UserObject (u : UserRow.t)
| AdminObject (aid : Z).

Inductive PasswordResponse :=
| PasswordLoginRequired                  (* @login_required *)
| PasswordAdminRedirect
| PasswordForm (errors : list AuthFieldError)
| WrongCurrentPassword                   (* 'Current password is incorrect.' *)
| PasswordChanged                        (* 'Password changed successfully!' *)
| PasswordServerError.                   (* the commit raised; nothing is caught *)

(** [current_user.set_password(p)] on the rows keyed [k]. *)
Definition set_password (lib : Library) (salt p : string) (k : Z)
    (u : UserRow.t) : UserRow.t :=
  if UserRow.id u =? k
  then UserRow.mk (UserRow.id u) (UserRow.email u)
         (generate_password_hash lib salt p)
         (UserRow.full_name u) (UserRow.phone u) (UserRow.is_admin u)
         (UserRow.is_active u) (UserRow.created_at u)
  else u.

Definition change_password (lib : Library) (current_user : LoadedUser)
    (method : Method) (form : ChangePasswordForm.t) (salt : string)
    (e : Env) (site : Site) : PasswordResponse * Site :=
  match current_user with
  | Visitor => (PasswordLoginRequired, site)
  | AdminObject _ => (PasswordAdminRedirect, site)
  | UserObject user =>
    match method with
    | GET => (PasswordForm [], site)
    | POST =>
      match ChangePasswordForm.validate form with
      | [] =>
        if negb (verify_password lib user
                   (ChangePasswordForm.Current_password form))
        then (WrongCurrentPassword, site)
        else if commit_ok e
        then (PasswordChanged,
              mkSite (map (set_password lib salt
                             (ChangePasswordForm.new_password form)
                             (UserRow.id user))
                          (users site))
                     (bank site))
        else (PasswordServerError, site)
      | errors => (PasswordForm errors, site)
      end
    end
  end.

Definition alice : UserRow.t :=
  UserRow.mk 1 "alice@example.com" "secret1" "Alice" None false true 0.

Definition bob : UserRow.t :=
  UserRow.mk 2 "bob@example.com" "hunter22" "bob" None false true 0.

Definition site1 : Site := mkSite [alice; bob] db0.

(** * Properties *)

(** ** Lists, lookups and the session *)

Section FindMap.
Context {A : Type} (p : A -> bool) (f : A -> A).
Hypothesis p_stable : forall x, p (f x) = p x.

Lemma find_map_stable (l : list A) :
  find p (map f l) = option_map f (find p l).
Proof.
  induction l as [|x l IH]; simpl; [reflexivity|].
  rewrite p_stable. destruct (p x); [reflexivity | exact IH].
Qed.
End FindMap.

Lemma query_get_sound k rows a :
  query_get k rows = Some a -> In a rows /\ Account.id a = k.
Proof.
  unfold query_get. intros H. apply find_some in H.
  destruct H as [Hin Heq]. split; [assumption | lia].
Qed.

Lemma first_by_number_sound n rows a :
  first_by_number n rows = Some a -> In a rows /\ Account.account_number a = n.
Proof.
  unfold first_by_number. intros H. apply find_some in H.
  destruct H as [Hin Heq]. split; [assumption|].
  now apply String.eqb_eq.
Qed.

Lemma first_by_number_fresh n rows :
  first_by_number n rows = None -> ~ In n (map Account.account_number rows).
Proof.
  unfold first_by_number. intros H Hin.
  apply in_map_iff in Hin. destruct Hin as [a [Hn Ha]].
  pose proof (find_none _ _ H a Ha) as Hf. simpl in Hf.
  rewrite Hn, String.eqb_refl in Hf. discriminate.
Qed.

Lemma unique_row rows a b :
  NoDup (map Account.id rows) -> In a rows -> In b rows ->
  Account.id a = Account.id b -> a = b.
Proof.
  induction rows as [|r rows IH]; simpl; intros Hnd Ha Hb Heq; [contradiction|].
  inversion Hnd as [|? ? Hnotin Hnd']; subst.
  destruct Ha as [Ha|Ha], Hb as [Hb|Hb]; subst.
  - reflexivity.
  - exfalso. apply Hnotin. rewrite Heq. now apply in_map.
  - exfalso. apply Hnotin. rewrite <- Heq. now apply in_map.
  - now apply IH.
Qed.

Lemma bump_id k d a : Account.id (bump k d a) = Account.id a.
Proof. unfold bump. now destruct (Account.id a =? k). Qed.

Lemma bump_number k d a :
  Account.account_number (bump k d a) = Account.account_number a.
Proof. unfold bump. now destruct (Account.id a =? k). Qed.

Lemma map_bump_ids k d rows :
  map Account.id (map (bump k d) rows) = map Account.id rows.
Proof. rewrite map_map. apply map_ext. intros; apply bump_id. Qed.

Lemma map_bump_numbers k d rows :
  map Account.account_number (map (bump k d) rows)
  = map Account.account_number rows.
Proof. rewrite map_map. apply map_ext. intros; apply bump_number. Qed.

Lemma query_get_bump j k d rows :
  query_get j (map (bump k d) rows) = option_map (bump k d) (query_get j rows).
Proof.
  unfold query_get. apply find_map_stable. intros x. now rewrite bump_id.
Qed.

Lemma finish_cases e s :
  (commit_ok e = true /\ finish e s = (Success, Session.working s)) \/
  (commit_ok e = false /\ finish e s = (OperationFailed, Session.committed s)).
Proof.
  unfold finish, Session.commit. destruct (commit_ok e); [left | right]; now split.
Qed.

(** ** Amounts accepted by the forms *)

Lemma decimal_errors_nil lo hi d :
  decimal_errors lo hi d = [] -> (lo <= d)%Q /\ (d <= hi)%Q.
Proof.
  unfold decimal_errors. destruct (Qeq_bool d 0); [discriminate|].
  destruct (Qle_bool lo d) eqn:Hlo; simpl; [|discriminate].
  destruct (Qle_bool d hi) eqn:Hhi; simpl; [|discriminate].
  intros _. split; now apply Qle_bool_iff.
Qed.

(** *** Decimal rounding *)

Lemma log10_up_spec fuel : forall a m,
  0 < m -> m <= a ->
  0 <= log10_up fuel a m /\ m * 10 ^ log10_up fuel a m <= a.
Proof.
  induction fuel as [|fuel IH]; intros a m Hm Hle; cbn [log10_up].
  - split; [lia|]. rewrite Z.pow_0_r. lia.
  - destruct (m * 10 <=? a) eqn:E.
    + apply Z.leb_le in E. destruct (IH a (m * 10) ltac:(lia) E) as [H0 H1].
      split; [lia|]. rewrite Z.pow_add_r by lia. rewrite Z.pow_1_r. lia.
    + split; [lia|]. rewrite Z.pow_0_r. lia.
Qed.

Lemma log10_down_spec fuel : forall a m,
  0 < a -> m <= a * 10 ^ Z.of_nat fuel ->
  log10_down fuel a m <= 0 /\ m <= a * 10 ^ (- log10_down fuel a m).
Proof.
  induction fuel as [|fuel IH]; intros a m Ha Hle; cbn [log10_down].
  - split; [lia|]. simpl in Hle. simpl. lia.
  - destruct (m <=? a) eqn:E.
    + apply Z.leb_le in E. split; [lia|]. simpl. lia.
    + rewrite Nat2Z.inj_succ, Z.pow_succ_r in Hle by lia.
      destruct (IH (a * 10) m ltac:(lia) ltac:(lia)) as [H0 H1].
      split; [lia|].
      replace (- (log10_down fuel (a * 10) m - 1))
        with (1 + - log10_down fuel (a * 10) m) by lia.
      rewrite Z.pow_add_r by lia. rewrite Z.pow_1_r. lia.
Qed.

Lemma pow2_le_pow10 k : 0 <= k -> 2 ^ k <= 10 ^ k.
Proof. intros Hk. apply Z.pow_le_mono_l. lia. Qed.

(** The exponent [adjusted] returns is not above the value's. *)
Lemma adjusted_spec a m :
  0 < a -> 0 < m ->
  (0 <= adjusted a m /\ m * 10 ^ adjusted a m <= a)
  \/ (adjusted a m <= 0 /\ m <= a * 10 ^ (- adjusted a m)).
Proof.
  intros Ha Hm. unfold adjusted. destruct (m <=? a) eqn:E.
  - left. apply Z.leb_le in E. now apply log10_up_spec.
  - right. apply log10_down_spec; [exact Ha|].
    destruct (Z.log2_spec m Hm) as [_ Hlt].
    pose proof (Z.log2_nonneg m) as Hl.
    rewrite Nat2Z.inj_succ, Z2Nat.id by exact Hl.
    pose proof (pow2_le_pow10 (Z.succ (Z.log2 m)) ltac:(lia)).
    nia.
Qed.

Lemma log10_up_max fuel : forall a m,
  0 < m -> a < m * 10 ^ Z.of_nat (S fuel) ->
  a < m * 10 ^ (log10_up fuel a m + 1).
Proof.
  induction fuel as [|fuel IH]; intros a m Hm Hlt; cbn [log10_up].
  - exact Hlt.
  - destruct (m * 10 <=? a) eqn:E.
    + apply Z.leb_le in E.
      rewrite Nat2Z.inj_succ, Z.pow_succ_r in Hlt by lia.
      pose proof (IH a (m * 10) ltac:(lia) ltac:(lia)) as H.
      destruct (log10_up_spec fuel a (m * 10) ltac:(lia) E) as [H0 _].
      replace (1 + log10_up fuel a (m * 10) + 1)
        with (Z.succ (log10_up fuel a (m * 10) + 1)) by lia.
      rewrite Z.pow_succ_r by lia. lia.
    + apply Z.leb_gt in E. simpl. lia.
Qed.

Lemma log10_down_nonpos fuel : forall a m, log10_down fuel a m <= 0.
Proof.
  induction fuel as [|fuel IH]; intros a m; cbn [log10_down]; [lia|].
  destruct (m <=? a); [lia|]. specialize (IH (a * 10) m). lia.
Qed.

Lemma log10_down_min fuel : forall a m,
  log10_down fuel a m < 0 -> a * 10 ^ (- log10_down fuel a m - 1) < m.
Proof.
  induction fuel as [|fuel IH]; intros a m; cbn [log10_down]; [lia|].
  destruct (m <=? a) eqn:E; [lia|]. apply Z.leb_gt in E. intros _.
  pose proof (log10_down_nonpos fuel (a * 10) m) as Hle.
  destruct (Z.eq_dec (log10_down fuel (a * 10) m) 0) as [E0|E0].
  - rewrite E0. simpl. lia.
  - specialize (IH (a * 10) m ltac:(lia)).
    replace (- (log10_down fuel (a * 10) m - 1) - 1)
      with (Z.succ (- log10_down fuel (a * 10) m - 1)) by lia.
    rewrite Z.pow_succ_r by lia. lia.
Qed.

(** [adjusted] is the exponent of the leading digit: [a / m] lies between
    [10^e] and [10^(e+1)]. *)
Lemma adjusted_correct a m :
  0 < a -> 0 < m ->
  let e := adjusted a m in
  m * 10 ^ Z.max 0 e <= a * 10 ^ Z.max 0 (- e) < m * 10 ^ Z.max 0 e * 10.
Proof.
  intros Ha Hm e. subst e. unfold adjusted. destruct (m <=? a) eqn:E.
  - apply Z.leb_le in E.
    destruct (log10_up_spec (S (Z.to_nat (Z.log2 a))) a m Hm E) as [H0 H1].
    assert (H2 : a < m * 10 ^ (log10_up (S (Z.to_nat (Z.log2 a))) a m + 1)).
    { apply log10_up_max; [exact Hm|].
      destruct (Z.log2_spec a Ha) as [_ Hlt].
      pose proof (Z.log2_nonneg a) as Hl.
      rewrite !Nat2Z.inj_succ, Z2Nat.id by exact Hl.
      pose proof (pow2_le_pow10 (Z.succ (Z.log2 a)) ltac:(lia)).
      rewrite Z.pow_succ_r by lia. nia. }
    rewrite Z.pow_add_r, Z.pow_1_r in H2 by lia.
    rewrite !Z.max_r by lia.
    replace (Z.max 0 (- log10_up (S (Z.to_nat (Z.log2 a))) a m)) with 0 by lia.
    rewrite Z.pow_0_r. lia.
  - apply Z.leb_gt in E.
    assert (Hfuel : m <= a * 10 ^ Z.of_nat (S (Z.to_nat (Z.log2 m)))).
    { destruct (Z.log2_spec m Hm) as [_ Hlt].
      pose proof (Z.log2_nonneg m) as Hl.
      rewrite Nat2Z.inj_succ, Z2Nat.id by exact Hl.
      pose proof (pow2_le_pow10 (Z.succ (Z.log2 m)) ltac:(lia)). nia. }
    destruct (log10_down_spec _ a m Ha Hfuel) as [H0 H1].
    pose proof (log10_down_min (S (Z.to_nat (Z.log2 m))) a m) as H2.
    set (e := log10_down (S (Z.to_nat (Z.log2 m))) a m) in *.
    assert (He : e < 0).
    { destruct (Z.eq_dec e 0) as [E0|E0]; [|lia].
      rewrite E0 in H1. simpl in H1. lia. }
    specialize (H2 He).
    replace (Z.max 0 e) with 0 by lia. rewrite Z.max_r by lia.
    rewrite Z.pow_0_r.
    assert (Hp : 10 ^ (- e) = 10 * 10 ^ (- e - 1)).
    { rewrite <- Z.pow_succ_r by lia. f_equal. lia. }
    rewrite Hp in *. lia.
Qed.

Lemma round_half_even_bounds a m :
  0 < m -> a / m <= round_half_even a m <= a / m + 1.
Proof.
  intros Hm. unfold round_half_even.
  destruct (2 * (a mod m) <? m); [lia|].
  destruct (m <? 2 * (a mod m)); [lia|].
  destruct (Z.even (a / m)); lia.
Qed.

Lemma round_half_even_exact a m k :
  0 < m -> a = k * m -> round_half_even a m = k.
Proof.
  intros Hm ->. unfold round_half_even.
  rewrite Z.mod_mul, Z.div_mul by lia.
  assert (E : (2 * 0 <? m) = true) by (apply Z.ltb_lt; lia).
  now rewrite E.
Qed.

Lemma round_half_even_lower a m k :
  0 < m -> k * m <= a -> k <= round_half_even a m.
Proof.
  intros Hm H. pose proof (round_half_even_bounds a m Hm).
  assert (k <= a / m) by (apply Z.div_le_lower_bound; lia). lia.
Qed.

Lemma round_half_even_upper a m k :
  0 < m -> a <= k * m -> round_half_even a m <= k.
Proof.
  intros Hm H. destruct (Z.eq_dec a (k * m)) as [E|E].
  - rewrite (round_half_even_exact a m k Hm E). lia.
  - pose proof (round_half_even_bounds a m Hm).
    assert (a / m < k) by (apply Z.div_lt_upper_bound; lia). lia.
Qed.

(** The cents of a positive value, in integers. *)
Lemma py_int_fix_pos n m :
  0 < n ->
  py_int (decimal_fix (n # m))
  = let s := decimal_prec - 1 - adjusted n (Z.pos m) in
    if 0 <=? s
    then round_half_even (n * 10 ^ s) (Z.pos m) / 10 ^ s
    else round_half_even n (Z.pos m * 10 ^ (- s)) * 10 ^ (- s).
Proof.
  intros Hn. unfold decimal_fix. cbn [Qnum Qden].
  assert (E0 : (n =? 0) = false) by (apply Z.eqb_neq; lia). rewrite E0.
  rewrite Z.abs_eq by lia. rewrite Z.sgn_pos by lia. cbv zeta.
  destruct (0 <=? decimal_prec - 1 - adjusted n (Z.pos m)) eqn:Es.
  - apply Z.leb_le in Es. unfold py_int. cbn [Qnum Qden].
    assert (Hp : 0 < 10 ^ (decimal_prec - 1 - adjusted n (Z.pos m)))
      by (apply Z.pow_pos_nonneg; lia).
    rewrite Z2Pos.id by exact Hp. rewrite Z.mul_1_l.
    apply Z.quot_div_nonneg; [|exact Hp].
    pose proof (round_half_even_bounds
                  (n * 10 ^ (decimal_prec - 1 - adjusted n (Z.pos m))) (Z.pos m)
                  ltac:(lia)) as [Hb _].
    assert (0 <= n * 10 ^ (decimal_prec - 1 - adjusted n (Z.pos m))
                 / Z.pos m) by (apply Z.div_pos; nia).
    lia.
  - unfold py_int, inject_Z. cbn [Qnum Qden]. rewrite Z.quot_1_r. lia.
Qed.

Lemma py_int_fix_zero m : py_int (decimal_fix (0 # m)) = 0.
Proof. reflexivity. Qed.

(** Below [10^28] the scale of the rounding is not negative. *)
Lemma scale_nonneg n m :
  0 < n -> n < Z.pos m * 10 ^ decimal_prec ->
  0 <= decimal_prec - 1 - adjusted n (Z.pos m).
Proof.
  intros Hn Hlt.
  destruct (adjusted_spec n (Z.pos m) Hn ltac:(lia)) as [[H0 H1]|[H0 _]];
    [|unfold decimal_prec; lia].
  destruct (Z_le_gt_dec (adjusted n (Z.pos m)) (decimal_prec - 1)) as [Hle|Hgt];
    [lia|exfalso].
  assert (10 ^ decimal_prec <= 10 ^ adjusted n (Z.pos m))
    by (apply Z.pow_le_mono_r; lia).
  nia.
Qed.

(** Rounding does not cross an integer of at most 28 digits: an integer
    bound on a value bounds its cents. *)
Lemma py_int_fix_lower (q : Q) (k : Z) :
  0 <= k <= 10 ^ (decimal_prec - 1) ->
  (inject_Z k <= q)%Q -> k <= py_int (decimal_fix q).
Proof.
  intros Hk H. destruct q as [n m]. unfold Qle, inject_Z in H. cbn [Qnum Qden] in H.
  rewrite Z.mul_1_r in H.
  destruct (Z.eq_dec n 0) as [->|Hn0]; [rewrite py_int_fix_zero; nia|].
  assert (Hn : 0 < n) by nia.
  rewrite py_int_fix_pos by exact Hn. cbv zeta.
  destruct (0 <=? decimal_prec - 1 - adjusted n (Z.pos m)) eqn:Es.
  - apply Z.leb_le in Es.
    set (s := decimal_prec - 1 - adjusted n (Z.pos m)) in *.
    assert (Hp : 0 < 10 ^ s) by (apply Z.pow_pos_nonneg; lia).
    apply Z.div_le_lower_bound; [exact Hp|].
    apply round_half_even_lower; [lia|]. nia.
  - apply Z.leb_gt in Es.
    set (s := decimal_prec - 1 - adjusted n (Z.pos m)) in *.
    assert (Hp : 0 < 10 ^ (- s)) by (apply Z.pow_pos_nonneg; lia).
    destruct (adjusted_spec n (Z.pos m) Hn ltac:(lia)) as [[H0 H1]|[H0 _]];
      [|unfold decimal_prec in *; lia].
    assert (Hr : 10 ^ (decimal_prec - 1)
                 <= round_half_even n (Z.pos m * 10 ^ (- s))).
    { apply round_half_even_lower; [nia|].
      replace (adjusted n (Z.pos m)) with ((decimal_prec - 1) + (- s)) in H1
        by (unfold s; lia).
      rewrite Z.pow_add_r in H1 by (unfold decimal_prec in *; lia). lia. }
    nia.
Qed.

Lemma py_int_fix_upper (q : Q) (k : Z) :
  0 <= k <= 10 ^ (decimal_prec - 1) ->
  (0 <= q)%Q -> (q <= inject_Z k)%Q -> py_int (decimal_fix q) <= k.
Proof.
  intros Hk H0 H. destruct q as [n m]. unfold Qle, inject_Z in *.
  cbn [Qnum Qden] in *. rewrite Z.mul_1_r in *.
  destruct (Z.eq_dec n 0) as [->|Hn0]; [rewrite py_int_fix_zero; lia|].
  assert (Hn : 0 < n) by lia.
  rewrite py_int_fix_pos by exact Hn. cbv zeta.
  assert (Hs : 0 <= decimal_prec - 1 - adjusted n (Z.pos m)).
  { apply scale_nonneg; [exact Hn|].
    assert (10 ^ (decimal_prec - 1) < 10 ^ decimal_prec)
      by (apply Z.pow_lt_mono_r; unfold decimal_prec; lia).
    nia. }
  apply Z.leb_le in Hs as Es. rewrite Es.
  set (s := decimal_prec - 1 - adjusted n (Z.pos m)) in *.
  assert (Hp : 0 < 10 ^ s) by (apply Z.pow_pos_nonneg; lia).
  apply Z.div_le_upper_bound; [exact Hp|].
  apply round_half_even_upper; [lia|]. nia.
Qed.

(** Below [10^28] the cents are the value cut off, or one more. *)
Lemma py_int_fix_near (q : Q) :
  (0 <= q)%Q -> (q < inject_Z (10 ^ decimal_prec))%Q ->
  py_int q <= py_int (decimal_fix q) <= py_int q + 1.
Proof.
  intros H0 H. destruct q as [n m]. unfold Qle, Qlt, inject_Z in *.
  cbn [Qnum Qden] in *. rewrite Z.mul_1_r in *.
  destruct (Z.eq_dec n 0) as [->|Hn0]; [rewrite py_int_fix_zero; vm_compute; split; discriminate|].
  assert (Hn : 0 < n) by lia.
  rewrite py_int_fix_pos by exact Hn. cbv zeta.
  assert (Hs : 0 <= decimal_prec - 1 - adjusted n (Z.pos m))
    by (apply scale_nonneg; lia).
  apply Z.leb_le in Hs as Es. rewrite Es.
  set (s := decimal_prec - 1 - adjusted n (Z.pos m)) in *.
  assert (Hp : 0 < 10 ^ s) by (apply Z.pow_pos_nonneg; lia).
  unfold py_int. cbn [Qnum Qden]. rewrite Z.quot_div_nonneg by lia.
  pose proof (round_half_even_bounds (n * 10 ^ s) (Z.pos m) ltac:(lia)) as [Hb1 Hb2].
  assert (Hdd : n * 10 ^ s / Z.pos m / 10 ^ s = n / Z.pos m).
  { rewrite Z.div_div by lia.
    apply Z.div_mul_cancel_r; lia. }
  split.
  - rewrite <- Hdd. apply Z.div_le_mono; lia.
  - apply Z.div_le_upper_bound; [exact Hp|].
    apply round_half_even_upper; [lia|].
    (* n <= (n / m + 1) * m *)
    pose proof (Z.mul_succ_div_gt n (Z.pos m) ltac:(lia)). nia.
Qed.

(** A value that [prec] digits hold is kept. *)
Lemma py_int_fix_exact (q : Q) (p : Z) :
  (0 <= q)%Q -> 0 <= p < decimal_prec ->
  (q < inject_Z (10 ^ (decimal_prec - p)))%Q ->
  (Z.pos (Qden q) | Qnum q * 10 ^ p) ->
  py_int (decimal_fix q) = py_int q.
Proof.
  intros H0 Hp0 H [j Hj]. destruct q as [n m]. unfold Qle, Qlt, inject_Z in *.
  cbn [Qnum Qden] in *. rewrite Z.mul_1_r in *.
  destruct (Z.eq_dec n 0) as [->|Hn0]; [reflexivity|].
  assert (Hn : 0 < n) by lia.
  rewrite py_int_fix_pos by exact Hn. cbv zeta.
  set (s := decimal_prec - 1 - adjusted n (Z.pos m)) in *.
  assert (Hs : p <= s).
  { destruct (adjusted_spec n (Z.pos m) Hn ltac:(lia)) as [[Ha0 Ha1]|[Ha0 _]];
      [|unfold s; lia].
    destruct (Z_le_gt_dec (decimal_prec - p) (adjusted n (Z.pos m))) as [Hge|Hlt];
      [exfalso|unfold s; lia].
    assert (10 ^ (decimal_prec - p) <= 10 ^ adjusted n (Z.pos m))
      by (apply Z.pow_le_mono_r; lia).
    nia. }
  assert (Es : (0 <=? s) = true) by (apply Z.leb_le; lia). rewrite Es.
  assert (Hps : 0 < 10 ^ s) by (apply Z.pow_pos_nonneg; lia).
  assert (Hsp : 10 ^ s = 10 ^ p * 10 ^ (s - p)).
  { rewrite <- Z.pow_add_r by lia. f_equal. lia. }
  assert (Hr : n * 10 ^ s = j * 10 ^ (s - p) * Z.pos m) by (rewrite Hsp; nia).
  rewrite (round_half_even_exact (n * 10 ^ s) (Z.pos m) (j * 10 ^ (s - p)))
    by (try lia; exact Hr).
  unfold py_int. cbn [Qnum Qden]. rewrite Z.quot_div_nonneg by lia.
  rewrite <- (Z.div_mul_cancel_r (j * 10 ^ (s - p)) (10 ^ s) (Z.pos m)) by lia.
  rewrite <- Hr. rewrite (Z.mul_comm (10 ^ s) (Z.pos m)).
  apply Z.div_mul_cancel_r; lia.
Qed.

(** *** Cents *)

Lemma amount_cents_lower (k : Z) (d : Q) :
  0 <= k <= 10 ^ 27 -> (inject_Z k <= d * (100 # 1))%Q -> k <= amount_cents_of d.
Proof.
  intros Hk H. unfold amount_cents_of, decimal_mul.
  apply py_int_fix_lower; [unfold decimal_prec; lia | exact H].
Qed.

Lemma amount_cents_pos d :
  (float_0_01 <= d)%Q -> 1 <= amount_cents_of d.
Proof.
  intros H. apply amount_cents_lower; [lia|].
  destruct d as [n m]. unfold float_0_01, Qle, Qmult, inject_Z in *. simpl in *.
  lia.
Qed.

Lemma app_nil_inv {A} (l1 l2 : list A) : l1 ++ l2 = [] -> l1 = [] /\ l2 = [].
Proof. apply app_eq_nil. Qed.

Lemma transfer_validate_amount choices rows f :
  TransferForm.validate choices rows f = [] ->
  1 <= amount_cents_of (TransferForm.amount f).
Proof.
  unfold TransferForm.validate. intros H.
  apply app_nil_inv in H as [_ H]. apply app_nil_inv in H as [_ H].
  apply app_nil_inv in H as [H _].
  apply decimal_errors_nil in H as [H _]. now apply amount_cents_pos.
Qed.

Lemma cash_validate_amount choices f :
  CashForm.validate choices f = [] ->
  1 <= amount_cents_of (CashForm.amount f).
Proof.
  unfold CashForm.validate. intros H.
  apply app_nil_inv in H as [_ H]. apply app_nil_inv in H as [H _].
  apply decimal_errors_nil in H as [H _]. now apply amount_cents_pos.
Qed.

(** ** Transfer *)

Lemma transfer_body_cases uid form e db :
  (exists src dst,
      transfer_accepted uid form e db src dst /\
      transfer_body uid form e db
      = (Success,
         transferred src dst (amount_cents_of (TransferForm.amount form)) form e db))
  \/ (fst (transfer_body uid form e db) <> Success
      /\ snd (transfer_body uid form e db) = db).
Proof.
  unfold transfer_body.
  destruct (query_get _ _) as [src|] eqn:Hsrc; [|right; split; [discriminate|reflexivity]].
  destruct (Account.user_id src =? uid) eqn:Hown; simpl;
    [|right; split; [discriminate|reflexivity]].
  destruct (Account.is_frozen src) eqn:Hfs; [right; split; [discriminate|reflexivity]|].
  destruct (first_by_number _ _) as [dst|] eqn:Hdst;
    [|right; split; [discriminate|reflexivity]].
  destruct (Account.is_frozen dst) eqn:Hfd; [right; split; [discriminate|reflexivity]|].
  destruct (Account.id src =? Account.id dst) eqn:Hself;
    [right; split; [discriminate|reflexivity]|].
  destruct (Account.balance src <? _) eqn:Hbal;
    [right; split; [discriminate|reflexivity]|].
  match goal with |- context [finish e ?s] => destruct (finish_cases e s) as [[Hok ->]|[Hko ->]] end.
  - left. exists src, dst. split; [|reflexivity].
    unfold transfer_accepted. repeat split; try assumption; lia.
  - right. split; [discriminate|reflexivity].
Qed.

Lemma transfer_cases cu m form e db :
  (exists uid src dst,
      cu = User uid /\ m = POST /\
      transfer_accepted uid form e db src dst /\
      1 <= amount_cents_of (TransferForm.amount form) /\
      transfer cu m form e db
      = (Success,
         transferred src dst (amount_cents_of (TransferForm.amount form)) form e db))
  \/ (fst (transfer cu m form e db) <> Success
      /\ snd (transfer cu m form e db) = db).
Proof.
  unfold transfer.
  destruct cu as [|uid|aid]; try (right; split; [discriminate|reflexivity]).
  destruct (active_accounts_of uid (accounts db)) as [|a0 rest] eqn:Hact;
    [right; split; [discriminate|reflexivity]|].
  destruct m; [right; split; [discriminate|reflexivity]|].
  destruct (TransferForm.validate _ _ form) as [|err errs] eqn:Hval;
    [|right; split; [discriminate|reflexivity]].
  apply transfer_validate_amount in Hval.
  destruct (transfer_body_cases uid form e db) as [[src [dst [Hacc Heq]]]|Hfail].
  - left. exists uid, src, dst.
    split; [reflexivity|]. split; [reflexivity|]. split; [exact Hacc|].
    split; [exact Hval | exact Heq].
  - right. exact Hfail.
Qed.

Lemma balance_of_transferred_src src dst c form e db :
  query_get (Account.id src) (accounts db) = Some src ->
  Account.id src <> Account.id dst ->
  balance_of (Account.id src) (transferred src dst c form e db)
  = Some (Account.balance src - c).
Proof.
  intros Hsrc Hne. unfold balance_of, transferred. simpl.
  rewrite !query_get_bump, Hsrc. simpl.
  unfold bump at 2. rewrite Z.eqb_refl.
  unfold bump. simpl.
  destruct (Account.id src =? Account.id dst) eqn:E; [lia|].
  simpl. reflexivity.
Qed.

Lemma balance_of_transferred_dst src dst c form e db :
  Account.id src <> Account.id dst ->
  balance_of (Account.id dst) (transferred src dst c form e db)
  = option_map (fun b => b + c) (balance_of (Account.id dst) db).
Proof.
  intros Hne. unfold balance_of, transferred. simpl.
  rewrite !query_get_bump.
  destruct (query_get (Account.id dst) (accounts db)) as [r|] eqn:Hr; [|reflexivity].
  apply query_get_sound in Hr as [_ Hid]. simpl.
  unfold bump. rewrite Hid.
  destruct (Account.id dst =? Account.id src) eqn:E; [lia|].
  rewrite Hid, Z.eqb_refl. reflexivity.
Qed.

Lemma query_get_transferred_other k src dst c form e db :
  k <> Account.id src -> k <> Account.id dst ->
  query_get k (accounts (transferred src dst c form e db))
  = query_get k (accounts db).
Proof.
  intros H1 H2. unfold transferred. simpl. rewrite !query_get_bump.
  destruct (query_get k (accounts db)) as [r|] eqn:Hr; [|reflexivity].
  apply query_get_sound in Hr as [_ Hid]. simpl.
  unfold bump. rewrite Hid.
  destruct (k =? Account.id src) eqn:E1; [lia|].
  rewrite Hid. destruct (k =? Account.id dst) eqn:E2; [lia|]. reflexivity.
Qed.

Lemma dst_has_balance dst rows :
  In dst rows -> exists b, option_map Account.balance (query_get (Account.id dst) rows) = Some b.
Proof.
  intros Hin. unfold query_get.
  destruct (find _ rows) as [r|] eqn:Hf; [now exists (Account.balance r)|].
  pose proof (find_none _ _ Hf dst Hin) as H. simpl in H.
  rewrite Z.eqb_refl in H. discriminate.
Qed.

(** C1. A transfer is all-or-nothing.  Whatever the principal, the method,
    the form and the outcome of the commit: either the request does not
    succeed -- an unmet precondition (source frozen, destination not found
    or frozen, self-transfer, insufficient funds), an invalid form or a
    commit that raises -- and then the tables are exactly as before, no
    balance changed and no record inserted; or it succeeds, the commit went
    through, and the debit of the source, the credit of the destination
    and the single inserted record are all in the resulting tables. *)
Theorem transfer_all_or_nothing cu m form e db :
  let r := transfer cu m form e db in
  let c := amount_cents_of (TransferForm.amount form) in
  (fst r <> Success /\ snd r = db)
  \/ (fst r = Success /\ commit_ok e = true /\
      exists src dst bd x,
        query_get (TransferForm.from_account form) (accounts db) = Some src /\
        first_by_number (TransferForm.to_account_id form) (accounts db) = Some dst /\
        balance_of (Account.id dst) db = Some bd /\
        balance_of (Account.id src) (snd r) = Some (Account.balance src - c) /\
        balance_of (Account.id dst) (snd r) = Some (bd + c) /\
        transactions (snd r) = transactions db ++ [x] /\
        Transaction.from_account_id x = Some (Account.id src) /\
        Transaction.to_account_id x = Some (Account.id dst) /\
        Transaction.amount x = c /\
        Transaction.transaction_type x = "transfer"%string).
Proof.
  intros r c. subst r c.
  destruct (transfer_cases cu m form e db)
    as [[uid [src [dst [_ [_ [Hacc [_ Heq]]]]]]]|Hfail]; [right | left; exact Hfail].
  destruct Hacc as [Hsrc [Hdst [_ [_ [_ [Hne [_ Hok]]]]]]].
  rewrite Heq. simpl fst. simpl snd.
  split; [reflexivity|]. split; [exact Hok|].
  pose proof (query_get_sound _ _ _ Hsrc) as [_ Hid].
  apply first_by_number_sound in Hdst as Hd. destruct Hd as [Hin _].
  destruct (dst_has_balance dst (accounts db) Hin) as [bd Hbd].
  eexists src, dst, bd, _.
  split; [exact Hsrc|]. split; [exact Hdst|]. split; [exact Hbd|].
  split; [apply balance_of_transferred_src; [now rewrite Hid|exact Hne]|].
  split; [rewrite balance_of_transferred_dst by exact Hne;
          unfold balance_of; now rewrite Hbd|].
  split; [reflexivity|]. repeat split.
Qed.

(** C2. Conservation: every successful transfer of amount A from X to Y
    leaves balance(X) = before - A and balance(Y) = before + A, hence the
    same sum, and records exactly one transfer-type transaction from X to
    Y of amount A. *)
Theorem transfer_conservation cu m form e db :
  fst (transfer cu m form e db) = Success ->
  transfer_postcondition form db (snd (transfer cu m form e db)).
Proof.
  intros Hs.
  destruct (transfer_cases cu m form e db)
    as [[uid [src [dst [_ [_ [Hacc [Hpos Heq]]]]]]]|[Hfail _]]; [|contradiction].
  destruct Hacc as [Hsrc [Hdst [_ [_ [_ [Hne _]]]]]].
  rewrite Heq. simpl snd.
  pose proof (query_get_sound _ _ _ Hsrc) as [_ Hid].
  apply first_by_number_sound in Hdst as Hd. destruct Hd as [Hin _].
  destruct (dst_has_balance dst (accounts db) Hin) as [bd Hbd].
  assert (Hsrc' : query_get (Account.id src) (accounts db) = Some src)
    by now rewrite Hid.
  unfold transfer_postcondition.
  eexists src, dst, bd, _. cbv zeta.
  split; [exact Hsrc|]. split; [exact Hdst|].
  split; [exact Hne|]. split; [lia|].
  split; [unfold balance_of; now rewrite Hsrc'|].
  split; [exact Hbd|].
  split; [now apply balance_of_transferred_src|].
  split; [rewrite balance_of_transferred_dst by exact Hne;
          unfold balance_of; now rewrite Hbd|].
  split; [lia|].
  split; [intros k Hk1 Hk2; now apply query_get_transferred_other|].
  split; [reflexivity|]. repeat split.
Qed.

Lemma transfer_conservation_witness :
  transfer_postcondition t20 db0 (snd (transfer (User 1) POST t20 env0 db0)).
Proof.
  apply (transfer_conservation (User 1) POST t20 env0 db0).
  vm_compute. reflexivity.
Defined.

(** The scenario of the test suite: 5000 and 1000 cents, transfer of 20.00. *)
Example transfer_scenario :
  let r := transfer (User 1) POST t20 env0 db0 in
  fst r = Success /\
  balance_of 1 (snd r) = Some 3000 /\
  balance_of 2 (snd r) = Some 3000 /\
  List.length (transactions (snd r)) = 1%nat.
Proof. vm_compute. repeat split. Qed.

(** ** The order of the transfer checks *)

(** C4, as stated, fails for an amount of zero: the fifth check of the
    specification would report InsufficientFunds, but the route re-renders
    the form with the field error of [DataRequired], and the body of the
    route has no check on the sign of the amount at all. *)
Lemma transfer_check_order_counterexample :
  first_failure (transfer_checks funds_ok_spec zero_amount_form acc1 (accounts db0))
  = Some InsufficientFunds /\
  fst (transfer (User 1) POST zero_amount_form env0 db0) = RenderForm [FieldRequired] /\
  fst (transfer_body 1 zero_amount_form env0 db0) = Success.
Proof. vm_compute. repeat split. Qed.

Lemma decimal_errors_nonpos lo hi d :
  (0 < lo)%Q -> (d <= 0)%Q -> decimal_errors lo hi d <> [].
Proof.
  intros Hlo Hd. unfold decimal_errors.
  destruct (Qeq_bool d 0); [discriminate|].
  destruct (Qle_bool lo d) eqn:E; simpl; [|discriminate].
  apply Qle_bool_iff in E. exfalso.
  apply (Qlt_irrefl 0). eapply Qlt_le_trans; [exact Hlo|].
  eapply Qle_trans; eassumption.
Qed.

(** C4 (amended). Once the source row is loaded and owned by the user, the
    body of the route checks, in this order: source not frozen, destination
    resolves from its account number, destination not frozen, source and
    destination differ, amount in cents at most the source balance; the
    first failing check determines the response, and when none fails the
    response is decided by the commit.  A non-positive amount is never
    reported as InsufficientFunds: the form validation rejects it first. *)
Theorem transfer_check_order uid form e db src :
  query_get (TransferForm.from_account form) (accounts db) = Some src ->
  Account.user_id src = uid ->
  fst (transfer_body uid form e db)
  = match first_failure (transfer_checks funds_ok_route form src (accounts db)) with
    | Some err => err
    | None => if commit_ok e then Success else OperationFailed
    end
  /\ ((TransferForm.amount form <= 0)%Q ->
      forall cu m, fst (transfer cu m form e db) <> InsufficientFunds
                   /\ fst (transfer cu m form e db) <> Success).
Proof.
  intros Hsrc Hown. split.
  - unfold transfer_body, first_failure, transfer_checks, funds_ok_route.
    rewrite Hsrc. subst uid. rewrite Z.eqb_refl. simpl negb. cbv iota.
    simpl find.
    destruct (Account.is_frozen src); simpl; [reflexivity|].
    destruct (first_by_number _ _) as [dst|]; simpl; [|reflexivity].
    destruct (Account.is_frozen dst); simpl; [reflexivity|].
    destruct (Account.id src =? Account.id dst); simpl; [reflexivity|].
    destruct (Account.balance src <? _) eqn:Hlt.
    + assert (Hle : (amount_cents_of (TransferForm.amount form)
                     <=? Account.balance src) = false) by lia.
      rewrite Hle. reflexivity.
    + assert (Hle : (amount_cents_of (TransferForm.amount form)
                     <=? Account.balance src) = true) by lia.
      rewrite Hle. simpl.
      unfold finish, Session.commit. now destruct (commit_ok e).
  - intros Hamt cu m. unfold transfer.
    destruct cu as [|u|a]; try (split; discriminate).
    destruct (active_accounts_of u (accounts db)); [split; discriminate|].
    destruct m; [split; discriminate|].
    destruct (TransferForm.validate _ _ form) eqn:Hval; [|split; discriminate].
    exfalso. unfold TransferForm.validate in Hval.
    apply app_nil_inv in Hval as [_ Hval]. apply app_nil_inv in Hval as [_ Hval].
    apply app_nil_inv in Hval as [Hval _].
    revert Hval. apply decimal_errors_nonpos; [reflexivity | exact Hamt].
Qed.

Lemma transfer_check_order_witness :
  fst (transfer_body 1 zero_amount_form env0 db0) = Success
  /\ (forall cu m,
        fst (transfer cu m zero_amount_form env0 db0) <> InsufficientFunds
        /\ fst (transfer cu m zero_amount_form env0 db0) <> Success).
Proof.
  destruct (transfer_check_order 1 zero_amount_form env0 db0 acc1
              eq_refl eq_refl) as [Hbody Hroute].
  split; [exact Hbody|].
  apply Hroute. vm_compute. discriminate.
Defined.

(** ** Deposit and withdraw *)

Lemma cash_route_cases body cu m form e db :
  (exists uid,
      cu = User uid /\ m = POST /\
      CashForm.validate (map Account.id (active_accounts_of uid (accounts db))) form = [] /\
      cash_route body cu m form e db = body uid form e db)
  \/ (fst (cash_route body cu m form e db) <> Success
      /\ snd (cash_route body cu m form e db) = db).
Proof.
  unfold cash_route.
  destruct cu as [|uid|aid]; try (right; split; [discriminate|reflexivity]).
  destruct (active_accounts_of uid (accounts db)) as [|a0 rest] eqn:Hact;
    [right; split; [discriminate|reflexivity]|].
  destruct m; [right; split; [discriminate|reflexivity]|].
  destruct (CashForm.validate _ form) as [|err errs] eqn:Hval;
    [|right; split; [discriminate|reflexivity]].
  left. exists uid. rewrite Hact.
  split; [reflexivity|]. split; [reflexivity|]. split; [exact Hval | reflexivity].
Qed.

Lemma select_errors_nil choices data :
  select_errors choices data = [] -> In data choices.
Proof.
  unfold select_errors. destruct (data =? 0); [discriminate|].
  destruct (existsb _ choices) eqn:E; [|discriminate].
  intros _. apply existsb_exists in E as [x [Hin Hx]].
  apply Z.eqb_eq in Hx. now subst.
Qed.




Lemma cash_route_valid body uid form e db :
  CashForm.validate (map Account.id (active_accounts_of uid (accounts db))) form = [] ->
  cash_route body (User uid) POST form e db = body uid form e db.
Proof.
  intros Hval. unfold cash_route.
  destruct (active_accounts_of uid (accounts db)) as [|a0 rest] eqn:Hact.
  - unfold CashForm.validate in Hval. apply app_nil_inv in Hval as [Hsel _].
    apply select_errors_nil in Hsel. contradiction.
  - now rewrite Hval.
Qed.







Lemma frozen_not_a_choice uid a db :
  unique_ids db -> In a (accounts db) -> Account.is_frozen a = true ->
  ~ In (Account.id a) (map Account.id (active_accounts_of uid (accounts db))).
Proof.
  intros Hu Hin Hfr Hc. apply in_map_iff in Hc as [b [Hid Hb]].
  unfold active_accounts_of in Hb. apply filter_In in Hb as [Hb Hp].
  apply andb_true_iff in Hp as [_ Hnf].
  assert (b = a) by (eapply unique_row; eauto). subst b.
  rewrite Hfr in Hnf. discriminate.
Qed.



(** ** Ownership *)

Lemma transfer_refused_or_body cu m form e db :
  (exists uid, cu = User uid /\
               transfer cu m form e db = transfer_body uid form e db)
  \/ (fst (transfer cu m form e db) <> Success /\
      snd (transfer cu m form e db) = db).
Proof.
  unfold transfer.
  destruct cu as [|uid|aid]; try (right; split; [discriminate|reflexivity]).
  destruct (active_accounts_of uid (accounts db));
    [right; split; [discriminate|reflexivity]|].
  destruct m; [right; split; [discriminate|reflexivity]|].
  destruct (TransferForm.validate _ _ form);
    [|right; split; [discriminate|reflexivity]].
  left. now exists uid.
Qed.

(** C10. When the selected account exists and belongs to somebody else,
    transfer, deposit and withdraw all fail before any mutation: the body
    of each route answers 'Invalid account' and the route as a whole does
    not succeed, with the tables -- balances and records -- unchanged.
    [check_account_ownership] answers 403 for such an account. *)
Theorem foreign_account_rejected uid k a db :
  query_get k (accounts db) = Some a ->
  Account.user_id a <> uid ->
  (forall m form e,
      TransferForm.from_account form = k ->
      transfer_body uid form e db = (InvalidAccount, db) /\
      fst (transfer (User uid) m form e db) <> Success /\
      snd (transfer (User uid) m form e db) = db) /\
  (forall m form e,
      CashForm.account form = k ->
      deposit_body uid form e db = (InvalidAccount, db) /\
      fst (deposit (User uid) m form e db) <> Success /\
      snd (deposit (User uid) m form e db) = db) /\
  (forall m form e,
      CashForm.account form = k ->
      withdraw_body uid form e db = (InvalidAccount, db) /\
      fst (withdraw (User uid) m form e db) <> Success /\
      snd (withdraw (User uid) m form e db) = db) /\
  check_account_ownership uid k db = inl Forbidden403.
Proof.
  intros Hget Hforeign.
  assert (Hneq : (Account.user_id a =? uid) = false) by lia.
  repeat split.
  - unfold transfer_body. rewrite H, Hget, Hneq. reflexivity.
  - destruct (transfer_refused_or_body (User uid) m form e db)
      as [[u [Hu ->]]|[Hf _]]; [|exact Hf].
    injection Hu as <-. unfold transfer_body. rewrite H, Hget, Hneq. discriminate.
  - destruct (transfer_refused_or_body (User uid) m form e db)
      as [[u [Hu ->]]|[_ Hs]]; [|exact Hs].
    injection Hu as <-. unfold transfer_body. rewrite H, Hget, Hneq. reflexivity.
  - unfold deposit_body. rewrite H, Hget, Hneq. reflexivity.
  - unfold deposit.
    destruct (cash_route_cases deposit_body (User uid) m form e db)
      as [[u [Hu [_ [_ ->]]]]|[Hf _]]; [|exact Hf].
    injection Hu as <-. unfold deposit_body. rewrite H, Hget, Hneq. discriminate.
  - unfold deposit.
    destruct (cash_route_cases deposit_body (User uid) m form e db)
      as [[u [Hu [_ [_ ->]]]]|[_ Hs]]; [|exact Hs].
    injection Hu as <-. unfold deposit_body. rewrite H, Hget, Hneq. reflexivity.
  - unfold withdraw_body. rewrite H, Hget, Hneq. reflexivity.
  - unfold withdraw.
    destruct (cash_route_cases withdraw_body (User uid) m form e db)
      as [[u [Hu [_ [_ ->]]]]|[Hf _]]; [|exact Hf].
    injection Hu as <-. unfold withdraw_body. rewrite H, Hget, Hneq. discriminate.
  - unfold withdraw.
    destruct (cash_route_cases withdraw_body (User uid) m form e db)
      as [[u [Hu [_ [_ ->]]]]|[_ Hs]]; [|exact Hs].
    injection Hu as <-. unfold withdraw_body. rewrite H, Hget, Hneq. reflexivity.
  - unfold check_account_ownership. rewrite Hget, Hneq. reflexivity.
Qed.

Lemma foreign_account_rejected_witness :
  transfer_body 1 (TransferForm.mk 2 "1000000001" (1 # 1) "") env0 db0
  = (InvalidAccount, db0) /\
  snd (withdraw (User 1) POST (CashForm.mk 2 (1 # 1) "") env0 db0) = db0 /\
  snd (deposit (User 1) POST (CashForm.mk 2 (1 # 1) "") env0 db0) = db0 /\
  check_account_ownership 1 2 db0 = inl Forbidden403.
Proof.
  destruct (foreign_account_rejected 1 2 acc2 db0 eq_refl ltac:(discriminate))
    as [Ht [Hd [Hw Hc]]].
  split; [apply (Ht POST); reflexivity|].
  split; [apply (Hw POST); reflexivity|].
  split; [apply (Hd POST); reflexivity | exact Hc].
Defined.

(** ** The effect of each request on the tables *)

Lemma deposit_cases cu m form e db :
  (fst (deposit cu m form e db) <> Success /\ snd (deposit cu m form e db) = db)
  \/ (exists a x,
         let c := amount_cents_of (CashForm.amount form) in
         query_get (CashForm.account form) (accounts db) = Some a /\
         1 <= c /\
         Transaction.from_account_id x = None /\
         Transaction.to_account_id x = Some (Account.id a) /\
         Transaction.amount x = c /\
         Transaction.transaction_type x = "deposit"%string /\
         deposit cu m form e db = (Success, cash_applied (Account.id a) c x db)).
Proof.
  unfold deposit.
  destruct (cash_route_cases deposit_body cu m form e db)
    as [[uid [_ [_ [Hval ->]]]]|Hrefused]; [|left; exact Hrefused].
  apply cash_validate_amount in Hval.
  unfold deposit_body.
  destruct (query_get _ _) as [a|] eqn:Hget; [|left; split; [discriminate|reflexivity]].
  destruct (Account.user_id a =? uid); simpl negb; cbv iota;
    [|left; split; [discriminate|reflexivity]].
  match goal with |- context [finish e ?s] =>
    destruct (finish_cases e s) as [[Hok ->]|[Hko ->]] end;
    [|left; split; [discriminate|reflexivity]].
  right. eexists a, _. cbv zeta.
  split; [reflexivity|]. split; [exact Hval|].
  split; [|split; [|split; [|split]]]; [..|reflexivity]; reflexivity.
Qed.

Lemma withdraw_cases cu m form e db :
  (fst (withdraw cu m form e db) <> Success /\ snd (withdraw cu m form e db) = db)
  \/ (exists a x,
         let c := amount_cents_of (CashForm.amount form) in
         query_get (CashForm.account form) (accounts db) = Some a /\
         1 <= c /\ c <= Account.balance a /\
         Transaction.from_account_id x = Some (Account.id a) /\
         Transaction.to_account_id x = None /\
         Transaction.amount x = c /\
         Transaction.transaction_type x = "withdrawal"%string /\
         withdraw cu m form e db = (Success, cash_applied (Account.id a) (- c) x db)).
Proof.
  unfold withdraw.
  destruct (cash_route_cases withdraw_body cu m form e db)
    as [[uid [_ [_ [Hval ->]]]]|Hrefused]; [|left; exact Hrefused].
  apply cash_validate_amount in Hval.
  unfold withdraw_body.
  destruct (query_get _ _) as [a|] eqn:Hget; [|left; split; [discriminate|reflexivity]].
  destruct (Account.user_id a =? uid); simpl negb; cbv iota;
    [|left; split; [discriminate|reflexivity]].
  destruct (Account.balance a <? _) eqn:Hlt;
    [left; split; [discriminate|reflexivity]|].
  match goal with |- context [finish e ?s] =>
    destruct (finish_cases e s) as [[Hok ->]|[Hko ->]] end;
    [|left; split; [discriminate|reflexivity]].
  right. eexists a, _. cbv zeta.
  split; [reflexivity|]. split; [exact Hval|]. split; [lia|].
  split; [|split; [|split; [|split]]]; [..|reflexivity]; reflexivity.
Qed.

(** C7. Every record a ledger request creates has a positive amount, the
    type of the operation that created it, and the references that go
    with it: source null and destination set for a deposit, source set and
    destination null for a withdrawal, both set for a transfer.  A request
    appends at most one record, and account creation appends none. *)
Theorem ledger_record_shape req db :
  forall resp db', handle req db = Some (resp, db') ->
  transactions db' = transactions db \/
  exists x,
    transactions db' = transactions db ++ [x] /\
    0 < Transaction.amount x /\
    record_ok x = true /\
    match req with
    | Transfer _ _ _ _ =>
        Transaction.transaction_type x = "transfer"%string /\
        Transaction.from_account_id x <> None /\
        Transaction.to_account_id x <> None
    | Deposit _ _ _ _ =>
        Transaction.transaction_type x = "deposit"%string /\
        Transaction.from_account_id x = None /\
        Transaction.to_account_id x <> None
    | Withdraw _ _ _ _ =>
        Transaction.transaction_type x = "withdrawal"%string /\
        Transaction.from_account_id x <> None /\
        Transaction.to_account_id x = None
    | CreateAccount _ _ _ _ _ _ => False
    end.
Proof.
  intros resp db' H. destruct req as [cu m f e|cu m f e|cu m f e|cu m f fuel rng e];
    simpl in H.
  - injection H as H. assert (Hd : snd (transfer cu m f e db) = db') by now rewrite H.
    destruct (transfer_cases cu m f e db)
      as [[uid [src [dst [_ [_ [_ [Hpos Heq]]]]]]]|[_ Hsame]].
    + right. rewrite Heq in Hd. simpl in Hd. subst db'.
      eexists. split; [reflexivity|]. simpl. split; [lia|].
      split; [unfold record_ok; simpl; apply andb_true_iff; split; [lia|reflexivity]|].
      split; [reflexivity|]. split; discriminate.
    + left. rewrite <- Hd. now rewrite Hsame.
  - injection H as H. assert (Hd : snd (deposit cu m f e db) = db') by now rewrite H.
    destruct (deposit_cases cu m f e db)
      as [[_ Hsame]|[a [x [_ [Hpos [Hfrom [Hto [Hamt [Hty Heq]]]]]]]]].
    + left. rewrite <- Hd. now rewrite Hsame.
    + right. rewrite Heq in Hd. simpl in Hd. subst db'.
      exists x. split; [reflexivity|]. split; [lia|].
      split; [unfold record_ok; rewrite Hty, Hfrom, Hto; simpl;
              apply andb_true_iff; split; [lia|reflexivity]|].
      split; [exact Hty|]. split; [exact Hfrom|]. rewrite Hto. discriminate.
  - injection H as H. assert (Hd : snd (withdraw cu m f e db) = db') by now rewrite H.
    destruct (withdraw_cases cu m f e db)
      as [[_ Hsame]|[a [x [_ [Hpos [_ [Hfrom [Hto [Hamt [Hty Heq]]]]]]]]]].
    + left. rewrite <- Hd. now rewrite Hsame.
    + right. rewrite Heq in Hd. simpl in Hd. subst db'.
      exists x. split; [reflexivity|]. split; [lia|].
      split; [unfold record_ok; rewrite Hty, Hfrom, Hto; simpl;
              apply andb_true_iff; split; [lia|reflexivity]|].
      split; [exact Hty|]. split; [rewrite Hfrom; discriminate | exact Hto].
  - left. unfold create_account in H.
    destruct cu; try (injection H as _ <-; reflexivity).
    destruct m; [injection H as _ <-; reflexivity|].
    destruct (CreateAccountForm.validate f); [|injection H as _ <-; reflexivity].
    destruct (generate_account_number _ _ _ _); [|discriminate].
    match type of H with context [finish e ?s] =>
      destruct (finish_cases e s) as [[_ Hf]|[_ Hf]]; rewrite Hf in H end;
      injection H as _ <-; reflexivity.
Qed.

Lemma ledger_record_shape_witness :
  exists x,
    transactions (snd (transfer (User 1) POST t20 env0 db0))
    = transactions db0 ++ [x] /\
    0 < Transaction.amount x /\
    record_ok x = true /\
    Transaction.transaction_type x = "transfer"%string /\
    Transaction.from_account_id x <> None /\
    Transaction.to_account_id x <> None.
Proof.
  destruct (ledger_record_shape (Transfer (User 1) POST t20 env0) db0
              Success (snd (transfer (User 1) POST t20 env0 db0))
              ltac:(vm_compute; reflexivity)) as [Hsame|Hx].
  - vm_compute in Hsame. discriminate.
  - exact Hx.
Defined.

(** ** Invariants along a sequence of requests *)

Lemma next_id_above ids k : In k ids -> k < next_id ids.
Proof.
  unfold next_id. induction ids as [|i ids IH]; cbn [fold_right In]; [contradiction|].
  intros [->|Hin]; [lia|]. specialize (IH Hin). lia.
Qed.

Lemma NoDup_snoc {A} (l : list A) (x : A) :
  NoDup l -> ~ In x l -> NoDup (l ++ [x]).
Proof.
  intros Hnd Hx. apply (Permutation_NoDup (l := x :: l)).
  - apply Permutation_cons_append.
  - now constructor.
Qed.

Lemma nonneg_credit k d rows :
  0 <= d ->
  Forall (fun a => 0 <= Account.balance a) rows ->
  Forall (fun a => 0 <= Account.balance a) (map (bump k d) rows).
Proof.
  intros Hd H. apply Forall_map. eapply Forall_impl; [|exact H].
  intros a Ha. cbv beta in Ha. unfold bump.
  destruct (Account.id a =? k); simpl; lia.
Qed.

Lemma nonneg_debit src c rows :
  NoDup (map Account.id rows) -> In src rows -> c <= Account.balance src ->
  Forall (fun a => 0 <= Account.balance a) rows ->
  Forall (fun a => 0 <= Account.balance a) (map (bump (Account.id src) (- c)) rows).
Proof.
  intros Hnd Hin Hc H. apply Forall_map. rewrite Forall_forall in *.
  intros a Ha. unfold bump.
  destruct (Account.id a =? Account.id src) eqn:E; [|now apply H].
  assert (a = src) by (eapply unique_row; eauto; lia). subst a.
  specialize (H src Hin). simpl in *. lia.
Qed.

Lemma amount_cents_nonneg_from lo d :
  (0 <= lo)%Q -> (lo <= d)%Q -> 0 <= amount_cents_of d.
Proof.
  intros Hlo Hd. apply amount_cents_lower; [lia|].
  assert (H : (0 <= d)%Q) by (eapply Qle_trans; eassumption).
  destruct d as [n m]. unfold Qle, Qmult, inject_Z in *. simpl in *. lia.
Qed.

Lemma create_account_cases cu m form fuel rng e db resp db' :
  create_account cu m form fuel rng e db = Some (resp, db') ->
  db' = db \/
  exists uid number,
    generate_account_number fuel rng 0 (accounts db) = Some number /\
    0 <= amount_cents_of (CreateAccountForm.initial_deposit form) /\
    db' = mkDB (accounts db ++
                [Account.mk (next_id (map Account.id (accounts db))) uid number
                   (CreateAccountForm.account_type form)
                   (amount_cents_of (CreateAccountForm.initial_deposit form))
                   false])
               (transactions db).
Proof.
  unfold create_account. intros H.
  destruct cu as [|uid|aid]; try (injection H as _ <-; now left).
  destruct m; [injection H as _ <-; now left|].
  destruct (CreateAccountForm.validate form) eqn:Hval;
    [|injection H as _ <-; now left].
  destruct (generate_account_number _ _ _ _) as [number|]; [|discriminate].
  unfold finish, Session.commit in H.
  destruct (commit_ok e); injection H as _ <-; [|now left].
  right. exists uid, number. split; [reflexivity|]. split; [|reflexivity].
  unfold CreateAccountForm.validate in Hval.
  apply app_nil_inv in Hval as [_ Hval].
  apply decimal_errors_nil in Hval as [Hlo _].
  eapply amount_cents_nonneg_from; [|exact Hlo]. vm_compute. discriminate.
Qed.

Lemma generate_fresh fuel rng pos rows n :
  generate_account_number fuel rng pos rows = Some n ->
  first_by_number n rows = None.
Proof.
  revert pos. induction fuel as [|fuel IH]; cbn [generate_account_number];
    intros pos H; [discriminate|].
  cbv zeta in H.
  destruct (first_by_number (join_digits 10 rng pos) rows) eqn:E.
  - now apply IH in H.
  - now injection H as <-.
Qed.

Lemma handle_invariant req db resp db' :
  handle req db = Some (resp, db') ->
  unique_ids db -> balances_nonneg db ->
  unique_ids db' /\ balances_nonneg db'.
Proof.
  unfold unique_ids, balances_nonneg.
  intros H Hu Hb.
  destruct req as [cu m f e|cu m f e|cu m f e|cu m f fuel rng e]; simpl in H.
  - injection H as H. assert (Hd : snd (transfer cu m f e db) = db') by now rewrite H.
    destruct (transfer_cases cu m f e db)
      as [[uid [src [dst [_ [_ [Hacc [Hpos Heq]]]]]]]|[_ Hsame]];
      [|rewrite Hsame in Hd; subst db'; now repeat split].
    rewrite Heq in Hd. simpl in Hd. subst db'. unfold transferred. simpl.
    destruct Hacc as [Hsrc [_ [_ [_ [_ [_ [Hle _]]]]]]].
    apply query_get_sound in Hsrc as [Hin _].
    rewrite !map_bump_ids.
    split; [exact Hu|].
    apply nonneg_credit; [lia|]. now apply nonneg_debit.
  - injection H as H. assert (Hd : snd (deposit cu m f e db) = db') by now rewrite H.
    destruct (deposit_cases cu m f e db)
      as [[_ Hsame]|[a [x [_ [Hpos [_ [_ [_ [_ Heq]]]]]]]]];
      [rewrite Hsame in Hd; subst db'; now repeat split|].
    rewrite Heq in Hd. simpl in Hd. subst db'. unfold cash_applied. simpl.
    rewrite !map_bump_ids.
    split; [exact Hu|].
    apply nonneg_credit; [lia | exact Hb].
  - injection H as H. assert (Hd : snd (withdraw cu m f e db) = db') by now rewrite H.
    destruct (withdraw_cases cu m f e db)
      as [[_ Hsame]|[a [x [Hget [Hpos [Hle [_ [_ [_ [_ Heq]]]]]]]]]];
      [rewrite Hsame in Hd; subst db'; now repeat split|].
    rewrite Heq in Hd. simpl in Hd. subst db'. unfold cash_applied. simpl.
    apply query_get_sound in Hget as [Hin _].
    rewrite !map_bump_ids.
    split; [exact Hu|].
    now apply nonneg_debit.
  - destruct (create_account_cases _ _ _ _ _ _ _ _ _ H)
      as [->|[uid [number [Hgen [Hbal ->]]]]]; [now repeat split|].
    simpl. rewrite !map_app. simpl.
    split.
    + apply NoDup_snoc; [exact Hu|]. intros Hin.
      apply next_id_above in Hin. lia.
    + apply Forall_app. split; [exact Hb|]. constructor; [exact Hbal | constructor].
Qed.

Lemma run_invariant rs :
  forall db db',
    run rs db = Some db' ->
    unique_ids db -> balances_nonneg db ->
    unique_ids db' /\ balances_nonneg db'.
Proof.
  induction rs as [|r rs IH]; simpl; intros db db' H Hu Hb.
  - injection H as <-. now repeat split.
  - destruct (handle r db) as [[resp db1]|] eqn:Hh; [|discriminate].
    destruct (handle_invariant _ _ _ _ Hh Hu Hb) as [Hu1 Hb1].
    exact (IH _ _ H Hu1 Hb1).
Qed.

Lemma unique_ids_db0 : unique_ids db0.
Proof.
  unfold unique_ids. simpl.
  repeat (constructor; [simpl; intuition discriminate|]). constructor.
Qed.

Lemma balances_nonneg_db0 : balances_nonneg db0.
Proof. unfold balances_nonneg. simpl. repeat constructor; simpl; lia. Qed.

(** C3. Non-negativity: from tables whose balances are all non-negative
    (and whose primary keys are distinct), no sequence of requests makes a
    balance negative.  A transfer or a withdrawal whose amount in cents
    exceeds the balance of its source is turned down without any change,
    and [Account.withdraw] refuses it as well.  Amounts are positive
    because the forms accept no other. *)
Theorem balances_never_negative rs db db' :
  unique_ids db -> balances_nonneg db -> run rs db = Some db' ->
  balances_nonneg db' /\
  (forall cu m f e d src,
      query_get (TransferForm.from_account f) (accounts d) = Some src ->
      Account.balance src < amount_cents_of (TransferForm.amount f) ->
      snd (transfer cu m f e d) = d) /\
  (forall cu m f e d a,
      query_get (CashForm.account f) (accounts d) = Some a ->
      Account.balance a < amount_cents_of (CashForm.amount f) ->
      snd (withdraw cu m f e d) = d) /\
  (forall c a, Account.balance a < c -> Account.withdraw c a = (false, a)) /\
  (forall c a, 0 <= Account.balance a ->
               0 <= Account.balance (snd (Account.withdraw c a))).
Proof.
  intros Hu Hb Hrun.
  split; [exact (proj2 (run_invariant rs db db' Hrun Hu Hb))|].
  split; [|split; [|split]].
  - intros cu m f e d src Hget Hlt.
    destruct (transfer_cases cu m f e d)
      as [[uid [s [t [_ [_ [Hacc _]]]]]]|[_ Hsame]]; [|exact Hsame].
    destruct Hacc as [Hs [_ [_ [_ [_ [_ [Hle _]]]]]]].
    rewrite Hget in Hs. injection Hs as <-. lia.
  - intros cu m f e d a Hget Hlt.
    destruct (withdraw_cases cu m f e d)
      as [[_ Hsame]|[a' [x [Hg [_ [Hle _]]]]]]; [exact Hsame|].
    rewrite Hget in Hg. injection Hg as <-. lia.
  - intros c a Hlt. unfold Account.withdraw.
    destruct (Account.balance a >=? c) eqn:E; [lia | reflexivity].
  - intros c a Ha. unfold Account.withdraw.
    destruct (Account.balance a >=? c) eqn:E; simpl; lia.
Qed.

Lemma balances_never_negative_witness :
  exists db', run requests0 db0 = Some db' /\
              balance_of 1 db' = Some 4000 /\
              balances_nonneg db'.
Proof.
  eexists. split; [vm_compute; reflexivity|]. split; [reflexivity|].
  exact (proj1 (balances_never_negative requests0 db0 _
                  unique_ids_db0 balances_nonneg_db0
                  ltac:(vm_compute; reflexivity))).
Defined.

(** ** Account numbers *)

Lemma join_digits_length n rng pos : String.length (join_digits n rng pos) = n.
Proof.
  revert pos. induction n as [|n IH]; intros pos; simpl; [reflexivity|].
  now rewrite IH.
Qed.

Lemma str_digit_is_digit d : is_digit (str_digit d) = true.
Proof. destruct d; reflexivity. Qed.

Lemma join_digits_all_digits n rng pos :
  forallb is_digit (list_ascii_of_string (join_digits n rng pos)) = true.
Proof.
  revert pos. induction n as [|n IH]; intros pos; [reflexivity|].
  cbn [join_digits list_ascii_of_string forallb].
  now rewrite str_digit_is_digit, IH.
Qed.

Lemma join_digits_isdigit n rng pos :
  isdigit (join_digits (S n) rng pos) = true.
Proof.
  unfold isdigit.
  pose proof (join_digits_all_digits (S n) rng pos) as H.
  cbn [join_digits list_ascii_of_string] in *. exact H.
Qed.

Lemma generate_returns rng rows k :
  forall fuel pos,
    first_by_number (candidate rng pos k) rows = None ->
    (k < fuel)%nat ->
    exists j, (j <= k)%nat /\
      generate_account_number fuel rng pos rows = Some (candidate rng pos j) /\
      (forall i, (i < j)%nat -> first_by_number (candidate rng pos i) rows <> None).
Proof.
  induction k as [|k IH]; intros fuel pos Hfree Hfuel.
  - destruct fuel as [|fuel]; [lia|]. exists 0%nat.
    unfold candidate in *. rewrite Nat.mul_0_r, Nat.add_0_r in *.
    cbn [generate_account_number]. cbv zeta. rewrite Hfree.
    split; [lia|]. split; [reflexivity|]. intros i Hi. lia.
  - destruct fuel as [|fuel]; [lia|].
    cbn [generate_account_number]. cbv zeta.
    destruct (first_by_number (join_digits 10 rng pos) rows) eqn:E.
    + destruct (IH fuel (pos + 10)%nat) as [j [Hj [Hgen Hcoll]]]; [|lia|].
      * unfold candidate in *.
        replace (pos + 10 + 10 * k)%nat with (pos + 10 * S k)%nat by lia.
        exact Hfree.
      * exists (S j). split; [lia|]. split.
        -- rewrite Hgen. unfold candidate. do 2 f_equal. lia.
        -- intros i Hi. destruct i as [|i].
           ++ unfold candidate. rewrite Nat.mul_0_r, Nat.add_0_r. now rewrite E.
           ++ specialize (Hcoll i ltac:(lia)). unfold candidate in *.
              replace (pos + 10 * S i)%nat with (pos + 10 + 10 * i)%nat by lia.
              exact Hcoll.
    + exists 0%nat. unfold candidate. rewrite Nat.mul_0_r, Nat.add_0_r.
      split; [lia|]. split; [reflexivity|]. intros i Hi. lia.
Qed.

Lemma generate_is_candidate fuel rng rows :
  forall pos n,
    generate_account_number fuel rng pos rows = Some n ->
    exists j, (j < fuel)%nat /\ n = candidate rng pos j.
Proof.
  induction fuel as [|fuel IH]; intros pos n H; [discriminate|].
  cbn [generate_account_number] in H. cbv zeta in H.
  destruct (first_by_number (join_digits 10 rng pos) rows) eqn:E.
  - apply IH in H as [j [Hj ->]]. exists (S j). split; [lia|].
    unfold candidate. f_equal. lia.
  - injection H as <-. exists 0%nat. split; [lia|].
    unfold candidate. now rewrite Nat.mul_0_r, Nat.add_0_r.
Qed.

Lemma handle_account_numbers req db resp db' :
  handle req db = Some (resp, db') ->
  unique_numbers db -> unique_numbers db'.
Proof.
  unfold unique_numbers. intros H Hn.
  destruct req as [cu m f e|cu m f e|cu m f e|cu m f fuel rng e]; simpl in H.
  - injection H as H. assert (Hd : snd (transfer cu m f e db) = db') by now rewrite H.
    destruct (transfer_cases cu m f e db)
      as [[uid [src [dst [_ [_ [_ [_ Heq]]]]]]]|[_ Hsame]];
      [|rewrite Hsame in Hd; now subst db'].
    rewrite Heq in Hd. simpl in Hd. subst db'. unfold transferred. simpl.
    now rewrite !map_bump_numbers.
  - injection H as H. assert (Hd : snd (deposit cu m f e db) = db') by now rewrite H.
    destruct (deposit_cases cu m f e db)
      as [[_ Hsame]|[a [x [_ [_ [_ [_ [_ [_ Heq]]]]]]]]];
      [rewrite Hsame in Hd; now subst db'|].
    rewrite Heq in Hd. simpl in Hd. subst db'. unfold cash_applied. simpl.
    now rewrite !map_bump_numbers.
  - injection H as H. assert (Hd : snd (withdraw cu m f e db) = db') by now rewrite H.
    destruct (withdraw_cases cu m f e db)
      as [[_ Hsame]|[a [x [_ [_ [_ [_ [_ [_ [_ Heq]]]]]]]]]];
      [rewrite Hsame in Hd; now subst db'|].
    rewrite Heq in Hd. simpl in Hd. subst db'. unfold cash_applied. simpl.
    now rewrite !map_bump_numbers.
  - destruct (create_account_cases _ _ _ _ _ _ _ _ _ H)
      as [->|[uid [number [Hgen [_ ->]]]]]; [exact Hn|].
    simpl. rewrite map_app. simpl. apply NoDup_snoc; [exact Hn|].
    apply first_by_number_fresh. eapply generate_fresh. exact Hgen.
Qed.

Lemma run_account_numbers rs :
  forall db db', run rs db = Some db' -> unique_numbers db -> unique_numbers db'.
Proof.
  induction rs as [|r rs IH]; simpl; intros db db' H Hn.
  - now injection H as <-.
  - destruct (handle r db) as [[resp db1]|] eqn:Hh; [|discriminate].
    eapply IH; [exact H|]. eapply handle_account_numbers; eassumption.
Qed.

(** C9. [generate_account_number] returns a string of exactly ten decimal
    digits that no existing account carries: whenever it returns, and it
    does return as soon as some iteration draws a free number, the loop
    having retried on every collision before it.  Serving requests one
    after the other therefore keeps the account numbers pairwise
    distinct. *)
Theorem generated_number_unique rng rows k fuel :
  first_by_number (candidate rng 0 k) rows = None ->
  (k < fuel)%nat ->
  (exists j,
      (j <= k)%nat /\
      generate_account_number fuel rng 0 rows = Some (candidate rng 0 j) /\
      (forall i, (i < j)%nat -> first_by_number (candidate rng 0 i) rows <> None)) /\
  (forall fuel' pos n,
      generate_account_number fuel' rng pos rows = Some n ->
      String.length n = 10%nat /\
      isdigit n = true /\
      ~ In n (map Account.account_number rows)) /\
  (forall rs db db',
      unique_numbers db -> run rs db = Some db' -> unique_numbers db').
Proof.
  intros Hfree Hfuel. split; [now apply generate_returns|]. split.
  - intros fuel' pos n Hgen.
    pose proof (generate_fresh _ _ _ _ _ Hgen) as Hnone.
    apply generate_is_candidate in Hgen as [j [_ ->]]. unfold candidate in *.
    split; [apply join_digits_length|].
    split; [apply join_digits_isdigit|].
    now apply first_by_number_fresh.
  - intros rs db db' Hn Hrun. exact (run_account_numbers rs db db' Hrun Hn).
Qed.

Lemma generated_number_unique_witness :
  generate_account_number 2 rng0 0 (accounts db0) = Some "7777777777"%string /\
  first_by_number (candidate rng0 0 0) (accounts db0) = Some acc1.
Proof.
  destruct (generated_number_unique rng0 (accounts db0) 1 2 eq_refl
              ltac:(repeat constructor)) as [[j [Hj [Hgen Hcoll]]] _].
  split; [|reflexivity].
  destruct j as [|[|j]].
  - exfalso. vm_compute in Hgen. discriminate.
  - exact Hgen.
  - exfalso. inversion Hj as [|? Hj']. inversion Hj'.
Defined.

(** ** Transaction history *)

Lemma insert_desc_perm x l : Permutation (insert_desc x l) (x :: l).
Proof.
  induction l as [|y ys IH]; simpl; [reflexivity|].
  destruct (Transaction.timestamp y <=? Transaction.timestamp x); [reflexivity|].
  rewrite IH. apply perm_swap.
Qed.

Lemma sorted_perm l : Permutation (sorted_by_timestamp_desc l) l.
Proof.
  induction l as [|x xs IH]; simpl; [reflexivity|].
  rewrite insert_desc_perm. now constructor.
Qed.

Lemma insert_desc_sorted x l :
  StronglySorted newer_first l -> StronglySorted newer_first (insert_desc x l).
Proof.
  induction l as [|y ys IH]; simpl; intros Hs.
  - repeat constructor.
  - inversion Hs as [|? ? Hys Hall]; subst.
    destruct (Transaction.timestamp y <=? Transaction.timestamp x) eqn:E.
    + constructor; [exact Hs|]. constructor; [unfold newer_first; lia|].
      eapply Forall_impl; [|exact Hall]. unfold newer_first. intros z Hz. lia.
    + constructor; [now apply IH|].
      eapply Permutation_Forall.
      * apply Permutation_sym, insert_desc_perm.
      * constructor; [unfold newer_first; lia | exact Hall].
Qed.

Lemma sorted_is_sorted l : StronglySorted newer_first (sorted_by_timestamp_desc l).
Proof.
  induction l as [|x xs IH]; simpl; [constructor|].
  now apply insert_desc_sorted.
Qed.

(** Stability: the rows of one timestamp come out in their input order. *)
Lemma insert_desc_stable t x l :
  filter (fun y => Transaction.timestamp y =? t) (insert_desc x l)
  = filter (fun y => Transaction.timestamp y =? t) (x :: l).
Proof.
  induction l as [|y ys IH]; [reflexivity|].
  cbn [insert_desc].
  destruct (Transaction.timestamp y <=? Transaction.timestamp x) eqn:E;
    [reflexivity|].
  cbn [filter] in *. rewrite IH.
  destruct (Transaction.timestamp x =? t) eqn:Ex;
    destruct (Transaction.timestamp y =? t) eqn:Ey; try reflexivity.
  lia.
Qed.

Lemma sorted_stable t l :
  filter (fun y => Transaction.timestamp y =? t) (sorted_by_timestamp_desc l)
  = filter (fun y => Transaction.timestamp y =? t) l.
Proof.
  induction l as [|x xs IH]; [reflexivity|].
  cbn [sorted_by_timestamp_desc]. rewrite insert_desc_stable.
  cbn [filter]. now rewrite IH.
Qed.

Lemma opt_eqb_eq o k : opt_eqb o k = true <-> o = Some k.
Proof.
  destruct o as [v|]; simpl; [|split; discriminate].
  rewrite Z.eqb_eq. split; [now intros -> | now intros [= ->]].
Qed.

Lemma sent_received_split k txs :
  Permutation
    (filter (fun x => opt_eqb (Transaction.from_account_id x) k) txs
     ++ filter (fun x => opt_eqb (Transaction.to_account_id x) k) txs)
    (filter (fun x => opt_eqb (Transaction.from_account_id x) k
                      || opt_eqb (Transaction.to_account_id x) k) txs
     ++ filter (fun x => opt_eqb (Transaction.from_account_id x) k
                         && opt_eqb (Transaction.to_account_id x) k) txs).
Proof.
  induction txs as [|x xs IH]; [reflexivity|].
  cbn [filter].
  destruct (opt_eqb (Transaction.from_account_id x) k);
    destruct (opt_eqb (Transaction.to_account_id x) k); cbn [orb andb app].
  - constructor. rewrite <- !Permutation_middle. constructor. exact IH.
  - constructor. exact IH.
  - rewrite <- Permutation_middle. constructor. exact IH.
  - exact IH.
Qed.

(** C8. The history of an account is the union of the records in which it
    is the source and of those in which it is the destination (a record in
    which it would be both is listed twice), newest first, records of one
    timestamp in table order.  Reading does not touch the tables: asking
    for the account page twice in a row gives the same page. *)
Theorem history_is_sorted_union a txs :
  let h := Account.get_all_transactions a txs in
  let is_src x := opt_eqb (Transaction.from_account_id x) (Account.id a) in
  let is_dst x := opt_eqb (Transaction.to_account_id x) (Account.id a) in
  (forall x, In x h <->
             In x txs /\ (Transaction.from_account_id x = Some (Account.id a) \/
                          Transaction.to_account_id x = Some (Account.id a))) /\
  Permutation h (filter (fun x => is_src x || is_dst x) txs
                 ++ filter (fun x => is_src x && is_dst x) txs) /\
  StronglySorted newer_first h /\
  (forall t, filter (fun y => Transaction.timestamp y =? t) h
             = filter (fun y => Transaction.timestamp y =? t)
                 (filter is_src txs ++ filter is_dst txs)) /\
  (forall cu k db,
      snd (account_details cu k db) = db /\
      account_details cu k (snd (account_details cu k db))
      = account_details cu k db).
Proof.
  intros h is_src is_dst. subst h is_src is_dst.
  unfold Account.get_all_transactions, Account.transactions_sent,
    Account.transactions_received. cbv zeta.
  split; [|split; [|split; [|split]]].
  - intros x. split.
    + intros Hin. apply (Permutation_in _ (sorted_perm _)) in Hin.
      apply in_app_or in Hin as [Hin|Hin]; apply filter_In in Hin as [Hin Hp];
        apply opt_eqb_eq in Hp; auto.
    + intros [Hin Hp]. apply (Permutation_in _ (Permutation_sym (sorted_perm _))).
      apply in_or_app.
      destruct Hp as [Hp|Hp]; [left | right]; apply filter_In;
        (split; [exact Hin | now apply opt_eqb_eq]).
  - rewrite sorted_perm. apply sent_received_split.
  - apply sorted_is_sorted.
  - intros t. apply sorted_stable.
  - intros cu k db. unfold account_details.
    destruct cu as [|uid|aid]; try (split; reflexivity).
    destruct (check_account_ownership uid k db) as [r|acc] eqn:Hc;
      (split; [reflexivity|]); cbn [snd]; now rewrite Hc.
Qed.

(** The history of account 2 after a deposit and the transfer of the
    scenario: the later record comes first. *)
Example history_scenario :
  let db1 := snd (deposit (User 2) POST (CashForm.mk 2 (5 # 1) "") (mkEnv 10 true) db0) in
  let db2 := snd (transfer (User 1) POST t20 (mkEnv 20 true) db1) in
  map Transaction.transaction_type
      (Account.get_all_transactions acc2 (transactions db2))
  = ["transfer"; "deposit"]%string.
Proof. vm_compute. reflexivity. Qed.

(** ** The transitions of the tables *)

Lemma amount_cents_upper (k : Z) (d : Q) :
  0 <= k <= 10 ^ 27 ->
  (0 <= d)%Q -> (d * (100 # 1) <= inject_Z k)%Q -> amount_cents_of d <= k.
Proof.
  intros Hk H0 H. unfold amount_cents_of, decimal_mul.
  apply py_int_fix_upper; [unfold decimal_prec; lia| |exact H].
  apply Qmult_le_0_compat; [exact H0 | discriminate].
Qed.

Lemma amount_cents_in_range (lo hi : Z) (d : Q) :
  0 <= lo <= 10 ^ 27 -> 0 <= hi <= 10 ^ 27 ->
  (inject_Z lo <= d * (100 # 1))%Q -> (d * (100 # 1) <= inject_Z hi)%Q ->
  lo <= amount_cents_of d <= hi.
Proof.
  intros Hlo Hhi H1 H2. split; [now apply amount_cents_lower|].
  apply amount_cents_upper; [exact Hhi| |exact H2].
  destruct d as [n m]. unfold Qle, Qmult, inject_Z in *. simpl in *. lia.
Qed.

Lemma scale_le (a b : Q) : (a <= b)%Q -> (a * (100 # 1) <= b * (100 # 1))%Q.
Proof. intros H. apply Qmult_le_compat_r; [exact H | discriminate]. Qed.

Lemma cash_validate_range choices f :
  CashForm.validate choices f = [] ->
  1 <= amount_cents_of (CashForm.amount f) <= 10000000.
Proof.
  intros H. split; [now apply cash_validate_amount in H|].
  unfold CashForm.validate in H.
  apply app_nil_inv in H as [_ H]. apply app_nil_inv in H as [H _].
  apply decimal_errors_nil in H as [Hlo Hhi].
  apply amount_cents_upper.
  - lia.
  - eapply Qle_trans; [|exact Hlo]. discriminate.
  - apply scale_le in Hhi. exact Hhi.
Qed.

Lemma transfer_validate_range choices rows f :
  TransferForm.validate choices rows f = [] ->
  1 <= amount_cents_of (TransferForm.amount f) <= 100000000.
Proof.
  intros H. split; [now apply transfer_validate_amount in H|].
  unfold TransferForm.validate in H.
  apply app_nil_inv in H as [_ H]. apply app_nil_inv in H as [_ H].
  apply app_nil_inv in H as [H _].
  apply decimal_errors_nil in H as [Hlo Hhi].
  apply amount_cents_upper.
  - lia.
  - eapply Qle_trans; [|exact Hlo]. discriminate.
  - apply scale_le in Hhi. exact Hhi.
Qed.

Lemma transfer_effect cu m form e db :
  effect db (snd (transfer cu m form e db)).
Proof.
  destruct (transfer_cases cu m form e db)
    as [[uid [src [dst [_ [_ [Hacc [Hpos ->]]]]]]]|[_ ->]]; [|constructor].
  destruct Hacc as [Hsrc [Hdst [_ [_ [_ [Hne [Hle _]]]]]]].
  apply query_get_sound in Hsrc as [Hs _].
  apply first_by_number_sound in Hdst as [Hd _].
  simpl. now constructor.
Qed.

Lemma deposit_effect cu m form e db :
  effect db (snd (deposit cu m form e db)).
Proof.
  unfold deposit.
  destruct (cash_route_cases deposit_body cu m form e db)
    as [[uid [_ [_ [Hval ->]]]]|[_ ->]]; [|constructor].
  apply cash_validate_amount in Hval. unfold deposit_body.
  destruct (query_get _ _) as [a|] eqn:Hget; [|constructor].
  destruct (Account.user_id a =? uid); simpl negb; cbv iota; [|constructor].
  apply query_get_sound in Hget as [Hin _].
  unfold finish, Session.commit. destruct (commit_ok e); [|constructor].
  exact (effect_deposit db a _ form e Hin Hval).
Qed.

Lemma withdraw_effect cu m form e db :
  effect db (snd (withdraw cu m form e db)).
Proof.
  unfold withdraw.
  destruct (cash_route_cases withdraw_body cu m form e db)
    as [[uid [_ [_ [Hval ->]]]]|[_ ->]]; [|constructor].
  apply cash_validate_amount in Hval. unfold withdraw_body.
  destruct (query_get _ _) as [a|] eqn:Hget; [|constructor].
  destruct (Account.user_id a =? uid); simpl negb; cbv iota; [|constructor].
  destruct (Account.balance a <? _) eqn:Hlt; [constructor|].
  apply query_get_sound in Hget as [Hin _].
  unfold finish, Session.commit. destruct (commit_ok e); [|constructor].
  refine (effect_withdraw db a _ form e Hin _). lia.
Qed.

Lemma create_validate_range f :
  CreateAccountForm.validate f = [] ->
  1000 <= amount_cents_of (CreateAccountForm.initial_deposit f) <= 10000000.
Proof.
  unfold CreateAccountForm.validate. intros H.
  apply app_nil_inv in H as [_ H]. apply decimal_errors_nil in H as [Hlo Hhi].
  apply amount_cents_in_range; [lia|lia| |].
  - apply scale_le in Hlo. exact Hlo.
  - apply scale_le in Hhi. exact Hhi.
Qed.

Lemma create_account_effect cu m form fuel rng e db resp db' :
  create_account cu m form fuel rng e db = Some (resp, db') -> effect db db'.
Proof.
  unfold create_account. intros H.
  destruct cu as [|uid|aid]; try (injection H as _ <-; constructor).
  destruct m; [injection H as _ <-; constructor|].
  destruct (CreateAccountForm.validate form) eqn:Hval;
    [|injection H as _ <-; constructor].
  destruct (generate_account_number _ _ _ _) as [number|] eqn:Hgen; [|discriminate].
  unfold finish, Session.commit in H.
  destruct (commit_ok e); injection H as _ <-; [|constructor].
  apply effect_create.
  - eapply generate_fresh. exact Hgen.
  - now apply create_validate_range.
Qed.

Lemma toggle_effect cu k e db :
  effect db (snd (toggle_account_freeze cu k e db)).
Proof.
  unfold toggle_account_freeze.
  destruct (admin_required cu); [constructor|].
  destruct (query_get k (accounts db)) as [a|]; [|constructor].
  unfold finish, Session.commit. destruct (commit_ok e); [|constructor].
  simpl. apply effect_toggle.
Qed.

Lemma serve_effect r db resp db' :
  serve r db = Some (resp, db') -> effect db db'.
Proof.
  destruct r as [[cu m f e|cu m f e|cu m f e|cu m f fuel rng e]|cu k e];
    simpl; intros H.
  - injection H as H. replace db' with (snd (transfer cu m f e db))
      by now rewrite H. apply transfer_effect.
  - injection H as H. replace db' with (snd (deposit cu m f e db))
      by now rewrite H. apply deposit_effect.
  - injection H as H. replace db' with (snd (withdraw cu m f e db))
      by now rewrite H. apply withdraw_effect.
  - eapply create_account_effect. exact H.
  - injection H as H. replace db' with (snd (toggle_account_freeze cu k e db))
      by now rewrite H. apply toggle_effect.
Qed.

(** An invariant of every transition is an invariant of every sequence. *)
Lemma serve_all_invariant (P : DB -> DB -> Prop) :
  (forall db, P db db) ->
  (forall a b c, P a b -> effect b c -> P a c) ->
  forall rs db db', serve_all rs db = Some db' -> P db db'.
Proof.
  intros Hrefl Hstep rs. 
  assert (H : forall db0 db db', P db0 db -> serve_all rs db = Some db' -> P db0 db').
  { induction rs as [|r rs IH]; simpl; intros db0 db db' HP H.
    - now injection H as <-.
    - destruct (serve r db) as [[resp db1]|] eqn:Hs; [|discriminate].
      eapply IH; [|exact H]. eapply Hstep; [exact HP|].
      eapply serve_effect. exact Hs. }
  intros db db' Hrun. eapply H; [apply Hrefl | exact Hrun].
Qed.

Lemma flip_frozen_id k a : Account.id (flip_frozen k a) = Account.id a.
Proof. unfold flip_frozen. now destruct (Account.id a =? k). Qed.

Lemma flip_frozen_holder k a : holder (flip_frozen k a) = holder a.
Proof. unfold flip_frozen. now destruct (Account.id a =? k). Qed.

Lemma flip_frozen_balance k a :
  Account.balance (flip_frozen k a) = Account.balance a.
Proof. unfold flip_frozen. now destruct (Account.id a =? k). Qed.

Lemma flip_frozen_twice k a : flip_frozen k (flip_frozen k a) = a.
Proof.
  unfold flip_frozen. destruct (Account.id a =? k) eqn:E; simpl.
  - rewrite E. destruct a as [i u n t b f]. unfold set_frozen. simpl.
    now rewrite negb_involutive.
  - now rewrite E.
Qed.

Lemma bump_holder k d a : holder (bump k d a) = holder a.
Proof. unfold bump. now destruct (Account.id a =? k). Qed.

Lemma bump_identity k d a : identity (bump k d a) = identity a.
Proof. unfold bump. now destruct (Account.id a =? k). Qed.

Lemma holder_id a b : holder a = holder b -> Account.id a = Account.id b.
Proof. unfold holder. now intros [= H _ _ _]. Qed.

Lemma map_holder_ids rows rows' :
  map holder rows = map holder rows' -> map Account.id rows = map Account.id rows'.
Proof.
  intros H.
  assert (E : forall l, map Account.id l = map (fun h => fst (fst (fst h))) (map holder l))
    by (intros l; rewrite map_map; reflexivity).
  now rewrite (E rows), (E rows'), H.
Qed.

Lemma map_holder_numbers rows rows' :
  map holder rows = map holder rows' ->
  map Account.account_number rows = map Account.account_number rows'.
Proof.
  intros H.
  assert (E : forall l, map Account.account_number l
                        = map (fun h => snd (fst h)) (map holder l))
    by (intros l; rewrite map_map; reflexivity).
  now rewrite (E rows), (E rows'), H.
Qed.

(** What every transition does to the accounts table: the rows keep their
    identity and at most one row is appended. *)
Lemma effect_holders db db' :
  effect db db' ->
  exists new, map holder (accounts db') = map holder (accounts db) ++ map holder new
              /\ (List.length new <= 1)%nat
              /\ Forall (fun a => Account.is_frozen a = false
                                  /\ 1000 <= Account.balance a <= 10000000
                                  /\ first_by_number (Account.account_number a)
                                       (accounts db) = None
                                  /\ Account.id a
                                     = next_id (map Account.id (accounts db))) new.
Proof.
  intros H. destruct H.
  - exists []. simpl. rewrite app_nil_r. repeat split; auto.
  - exists []. simpl. rewrite app_nil_r. repeat split; auto.
    rewrite !map_map. apply map_ext. intros a. now rewrite !bump_holder.
  - exists []. simpl. rewrite app_nil_r. repeat split; auto.
    rewrite !map_map. apply map_ext. intros a'. now rewrite !bump_holder.
  - exists []. simpl. rewrite app_nil_r. repeat split; auto.
    rewrite !map_map. apply map_ext. intros a'. now rewrite !bump_holder.
  - eexists [_]. simpl. rewrite map_app. split; [reflexivity|].
    split; [lia|]. constructor; [|constructor]. simpl. repeat split; auto; lia.
  - exists []. simpl. rewrite app_nil_r. repeat split; auto.
    rewrite !map_map. apply map_ext. intros a. now rewrite flip_frozen_holder.
Qed.

Lemma effect_unique_ids db db' :
  effect db db' -> unique_ids db -> unique_ids db'.
Proof.
  unfold unique_ids. intros H Hu.
  destruct (effect_holders _ _ H) as [new [Hmap [Hlen Hnew]]].
  assert (E : map Account.id (accounts db')
              = map Account.id (accounts db) ++ map Account.id new).
  { rewrite <- map_app in Hmap. apply map_holder_ids in Hmap.
    now rewrite Hmap, map_app. }
  rewrite E. destruct new as [|a [|b new]]; simpl in *; try lia.
  - now rewrite app_nil_r.
  - apply NoDup_snoc; [exact Hu|]. inversion Hnew as [|? ? [_ [_ [_ Hid]]] _]; subst.
    rewrite Hid. intros Hin. apply next_id_above in Hin. lia.
Qed.

Lemma effect_unique_numbers db db' :
  effect db db' -> unique_numbers db -> unique_numbers db'.
Proof.
  unfold unique_numbers. intros H Hu.
  destruct (effect_holders _ _ H) as [new [Hmap [Hlen Hnew]]].
  assert (E : map Account.account_number (accounts db')
              = map Account.account_number (accounts db)
                ++ map Account.account_number new).
  { rewrite <- map_app in Hmap. apply map_holder_numbers in Hmap.
    now rewrite Hmap, map_app. }
  rewrite E. destruct new as [|a [|b new]]; simpl in *; try lia.
  - now rewrite app_nil_r.
  - apply NoDup_snoc; [exact Hu|].
    inversion Hnew as [|? ? [_ [_ [Hfresh _]]] _]; subst.
    now apply first_by_number_fresh.
Qed.

Lemma effect_nonneg db db' :
  effect db db' -> unique_ids db -> balances_nonneg db -> balances_nonneg db'.
Proof.
  unfold unique_ids, balances_nonneg. intros H Hu Hb. destruct H.
  - exact Hb.
  - unfold transferred. simpl. apply nonneg_credit; [lia|].
    apply nonneg_debit; auto; lia.
  - unfold cash_applied. simpl. apply nonneg_credit; [lia | exact Hb].
  - unfold cash_applied. simpl. apply nonneg_debit; auto; lia.
  - simpl. apply Forall_app. split; [exact Hb|].
    constructor; [simpl; lia | constructor].
  - simpl. apply Forall_map. eapply Forall_impl; [|exact Hb].
    intros a Ha. cbv beta in *. now rewrite flip_frozen_balance.
Qed.

(** What every transition does to the transactions table. *)
Lemma effect_transactions db db' :
  effect db db' ->
  exists new, transactions db' = transactions db ++ new
              /\ (List.length new <= 1)%nat
              /\ Forall (fun x => record_ok x = true
                                  /\ Transaction.id x
                                     = next_id (map Transaction.id (transactions db)))
                        new.
Proof.
  intros H. destruct H.
  - exists []. rewrite app_nil_r. repeat split; auto.
  - eexists [_]. split; [reflexivity|]. split; [simpl; lia|].
    constructor; [|constructor]. split; [|reflexivity].
    unfold record_ok. simpl. apply andb_true_iff. split; [lia | reflexivity].
  - eexists [_]. split; [reflexivity|]. split; [simpl; lia|].
    constructor; [|constructor]. split; [|reflexivity].
    unfold record_ok. simpl. apply andb_true_iff. split; [lia | reflexivity].
  - eexists [_]. split; [reflexivity|]. split; [simpl; lia|].
    constructor; [|constructor]. split; [|reflexivity].
    unfold record_ok. simpl. apply andb_true_iff. split; [lia | reflexivity].
  - exists []. simpl. rewrite app_nil_r. repeat split; auto.
  - exists []. simpl. rewrite app_nil_r. repeat split; auto.
Qed.

(** ** Freezing accounts *)

Lemma query_get_flip j k rows :
  query_get j (map (flip_frozen k) rows)
  = option_map (flip_frozen k) (query_get j rows).
Proof.
  unfold query_get. apply find_map_stable. intros x. now rewrite flip_frozen_id.
Qed.

Lemma first_by_number_flip n k rows :
  first_by_number n (map (flip_frozen k) rows)
  = option_map (flip_frozen k) (first_by_number n rows).
Proof.
  unfold first_by_number. apply find_map_stable. intros x.
  unfold flip_frozen. now destruct (Account.id x =? k).
Qed.

(** X1. Only an administrator can freeze or unfreeze: for anybody else, for
    an unknown account and when the commit raises, [toggle_account_freeze]
    leaves the tables as they are.  When it succeeds, the frozen flag of
    the account is negated and nothing else moves: every other account
    reads as before, all balances, owners, numbers and types are as before
    and no transaction is recorded. *)
Theorem toggle_account_freeze_effect cu k e db :
  let r := toggle_account_freeze cu k e db in
  (fst r <> Success /\ snd r = db)
  \/ (exists aid a,
        cu = Admin aid /\ commit_ok e = true /\
        query_get k (accounts db) = Some a /\
        fst r = Success /\
        query_get k (accounts (snd r))
        = Some (set_frozen (negb (Account.is_frozen a)) a) /\
        (forall j, j <> k ->
                   query_get j (accounts (snd r)) = query_get j (accounts db)) /\
        map Account.balance (accounts (snd r)) = map Account.balance (accounts db) /\
        map holder (accounts (snd r)) = map holder (accounts db) /\
        transactions (snd r) = transactions db).
Proof.
  intros r. subst r. unfold toggle_account_freeze.
  destruct cu as [|uid|aid]; simpl admin_required; cbv iota;
    try (left; split; [discriminate | reflexivity]).
  destruct (query_get k (accounts db)) as [a|] eqn:Hget;
    [|left; split; [discriminate | reflexivity]].
  unfold finish, Session.commit.
  destruct (commit_ok e) eqn:Hok; [|left; split; [discriminate | reflexivity]].
  right. exists aid, a. simpl.
  pose proof (query_get_sound _ _ _ Hget) as [_ Hid]. rewrite Hid.
  split; [reflexivity|]. split; [reflexivity|]. split; [reflexivity|].
  split; [reflexivity|].
  split; [rewrite query_get_flip, Hget; simpl; unfold flip_frozen;
          now rewrite Hid, Z.eqb_refl|].
  split.
  { intros j Hj. rewrite query_get_flip.
    destruct (query_get j (accounts db)) as [b|] eqn:Hb; [|reflexivity].
    apply query_get_sound in Hb as [_ Hbid]. simpl. unfold flip_frozen.
    rewrite Hbid. destruct (j =? k) eqn:E; [lia | reflexivity]. }
  split; [rewrite map_map; apply map_ext; intros; apply flip_frozen_balance|].
  split; [rewrite map_map; apply map_ext; intros; apply flip_frozen_holder|].
  reflexivity.
Qed.

(** X2. Freezing is undone by unfreezing: two successful toggles of the
    same account, by whichever administrators, give back the tables they
    started from. *)
Theorem toggle_twice_restores cu1 cu2 k e1 e2 db db1 db2 :
  toggle_account_freeze cu1 k e1 db = (Success, db1) ->
  toggle_account_freeze cu2 k e2 db1 = (Success, db2) ->
  db2 = db.
Proof.
  unfold toggle_account_freeze. intros H1 H2.
  destruct cu1 as [|u1|a1]; simpl admin_required in H1; cbv iota in H1;
    try discriminate.
  destruct cu2 as [|u2|a2]; simpl admin_required in H2; cbv iota in H2;
    try discriminate.
  destruct (query_get k (accounts db)) as [a|] eqn:Ha; [|discriminate].
  unfold finish, Session.commit in H1.
  destruct (commit_ok e1); [|discriminate].
  injection H1 as <-. simpl in H2.
  pose proof (query_get_sound _ _ _ Ha) as [_ Hid]. rewrite Hid in H2.
  rewrite query_get_flip, Ha in H2. simpl in H2.
  unfold finish, Session.commit in H2.
  destruct (commit_ok e2); [|discriminate].
  injection H2 as <-. simpl.
  rewrite flip_frozen_id, Hid, map_map.
  rewrite (map_ext _ (fun x => x)) by (intros; apply flip_frozen_twice).
  rewrite map_id. now destruct db.
Qed.

Lemma toggle_twice_restores_witness :
  snd (toggle_account_freeze (Admin 8) 1 env0
         (snd (toggle_account_freeze (Admin 9) 1 env0 db0))) = db0.
Proof.
  apply (toggle_twice_restores (Admin 9) (Admin 8) 1 env0 env0 db0
           (snd (toggle_account_freeze (Admin 9) 1 env0 db0))); reflexivity.
Defined.

Lemma NoDup_map_inj {A B} (f : A -> B) (l : list A) a b :
  NoDup (map f l) -> In a l -> In b l -> f a = f b -> a = b.
Proof.
  induction l as [|r l IH]; simpl; intros Hnd Ha Hb Heq; [contradiction|].
  inversion Hnd as [|? ? Hnotin Hnd']; subst.
  destruct Ha as [Ha|Ha], Hb as [Hb|Hb]; subst.
  - reflexivity.
  - exfalso. apply Hnotin. rewrite Heq. now apply in_map.
  - exfalso. apply Hnotin. rewrite <- Heq. now apply in_map.
  - now apply IH.
Qed.

Lemma to_account_id_errors_frozen rows n d :
  first_by_number n rows = Some d -> Account.is_frozen d = true ->
  TransferForm.to_account_id_errors rows n <> [].
Proof.
  intros Hd Hfr. unfold TransferForm.to_account_id_errors.
  destruct (strip_nonempty n); simpl; [|discriminate].
  intros H. apply app_nil_inv in H as [_ H]. revert H.
  unfold TransferForm.validate_to_account_id.
  destruct (isdigit n); simpl; [|discriminate].
  rewrite Hd, Hfr. discriminate.
Qed.

(** Requests on a frozen account, on any tables with distinct keys. *)
Lemma frozen_account_refused db k a :
  unique_ids db ->
  query_get k (accounts db) = Some a -> Account.is_frozen a = true ->
  forall cu m e,
    (forall f, CashForm.account f = k ->
               fst (deposit cu m f e db) <> Success /\ snd (deposit cu m f e db) = db) /\
    (forall f, CashForm.account f = k ->
               fst (withdraw cu m f e db) <> Success /\ snd (withdraw cu m f e db) = db) /\
    (forall f, TransferForm.from_account f = k \/
               first_by_number (TransferForm.to_account_id f) (accounts db) = Some a ->
               fst (transfer cu m f e db) <> Success /\ snd (transfer cu m f e db) = db).
Proof.
  intros Hu Hget Hfr cu m e.
  pose proof (query_get_sound _ _ _ Hget) as [Hin Hid].
  assert (Hcash : forall body f, CashForm.account f = k ->
            fst (cash_route body cu m f e db) <> Success
            /\ snd (cash_route body cu m f e db) = db).
  { intros body f Hk.
    destruct (cash_route_cases body cu m f e db)
      as [[uid [_ [_ [Hval _]]]]|Hrefused]; [|exact Hrefused].
    exfalso. unfold CashForm.validate in Hval. apply app_nil_inv in Hval as [Hsel _].
    apply select_errors_nil in Hsel. rewrite Hk, <- Hid in Hsel.
    exact (frozen_not_a_choice uid a db Hu Hin Hfr Hsel). }
  split; [intros f Hk; apply (Hcash deposit_body f Hk)|].
  split; [intros f Hk; apply (Hcash withdraw_body f Hk)|].
  intros f Hf.
  destruct (transfer_cases cu m f e db)
    as [[uid [src [dst [-> [-> [Hacc _]]]]]]|Hrefused]; [|exact Hrefused].
  exfalso. destruct Hacc as [Hsrc [Hdst [Hown [Hfs [Hfd _]]]]].
  destruct Hf as [Hk|Hto].
  - rewrite Hk, Hget in Hsrc. injection Hsrc as <-. congruence.
  - rewrite Hto in Hdst. injection Hdst as <-. congruence.
Qed.

(** X3. What an administrator's freeze buys: once account [k] has been
    frozen, every deposit into it, withdrawal from it, transfer out of it
    and transfer to its account number is refused, whoever asks, and
    leaves the tables as the freeze left them. *)
Theorem freeze_blocks_account aid k e0 db a :
  unique_ids db -> unique_numbers db ->
  query_get k (accounts db) = Some a ->
  Account.is_frozen a = false ->
  commit_ok e0 = true ->
  let db1 := snd (toggle_account_freeze (Admin aid) k e0 db) in
  forall cu m e,
    (forall f, CashForm.account f = k ->
               fst (deposit cu m f e db1) <> Success /\ snd (deposit cu m f e db1) = db1) /\
    (forall f, CashForm.account f = k ->
               fst (withdraw cu m f e db1) <> Success /\ snd (withdraw cu m f e db1) = db1) /\
    (forall f, TransferForm.from_account f = k \/
               TransferForm.to_account_id f = Account.account_number a ->
               fst (transfer cu m f e db1) <> Success /\ snd (transfer cu m f e db1) = db1).
Proof.
  intros Hu Hn Hget Hfr Hok db1 cu m e.
  pose proof (query_get_sound _ _ _ Hget) as [Hin Hid].
  assert (Hdb1 : db1 = mkDB (map (flip_frozen k) (accounts db)) (transactions db)).
  { subst db1. unfold toggle_account_freeze. simpl. rewrite Hget.
    unfold finish, Session.commit. rewrite Hok. simpl. now rewrite Hid. }
  assert (Hflip : flip_frozen k a = set_frozen true a).
  { unfold flip_frozen. now rewrite Hid, Z.eqb_refl, Hfr. }
  assert (Hget1 : query_get k (accounts db1) = Some (set_frozen true a)).
  { rewrite Hdb1. simpl. rewrite query_get_flip, Hget. simpl. now rewrite Hflip. }
  assert (Hu1 : unique_ids db1).
  { rewrite Hdb1. unfold unique_ids in *. simpl. rewrite map_map.
    rewrite (map_ext _ Account.id) by (intros; apply flip_frozen_id). exact Hu. }
  destruct (frozen_account_refused db1 k (set_frozen true a) Hu1 Hget1 eq_refl cu m e)
    as [Hd [Hw Ht]].
  split; [exact Hd|]. split; [exact Hw|].
  intros f [Hk|Hto]; [apply Ht; now left|].
  apply Ht. right. rewrite Hdb1. simpl. rewrite first_by_number_flip, Hto.
  destruct (first_by_number (Account.account_number a) (accounts db)) as [b|] eqn:Hb.
  - apply first_by_number_sound in Hb as [Hbin Hbn].
    assert (b = a) by (eapply (NoDup_map_inj Account.account_number); eauto).
    subst b. simpl. now rewrite Hflip.
  - exfalso. apply first_by_number_fresh in Hb. apply Hb. now apply in_map.
Qed.

Lemma freeze_blocks_account_witness :
  let db1 := snd (toggle_account_freeze (Admin 9) 1 env0 db0) in
  snd (deposit (User 1) POST d10 env0 db1) = db1 /\
  snd (withdraw (User 1) POST w50 env0 db1) = db1 /\
  snd (transfer (User 1) POST t20 env0 db1) = db1 /\
  snd (transfer (User 2) POST (TransferForm.mk 2 "1000000001" (1 # 1) "") env0 db1) = db1.
Proof.
  intros db1.
  assert (Hn : unique_numbers db0)
    by (unfold unique_numbers; simpl;
        repeat (constructor; [simpl; intuition discriminate|]); constructor).
  pose proof (freeze_blocks_account 9 1 env0 db0 acc1 unique_ids_db0 Hn
                eq_refl eq_refl eq_refl) as H.
  split; [apply (H (User 1) POST env0); reflexivity|].
  split; [apply (H (User 1) POST env0); reflexivity|].
  split; [apply (H (User 1) POST env0); now left|].
  apply (H (User 2) POST env0). now right.
Defined.

(** ** Sequences of user and administrator requests *)

Lemma fresh_id_not_in ids : ~ In (next_id ids) ids.
Proof. intros H. apply next_id_above in H. lia. Qed.

(** X4. The ledger is append-only: whatever requests are served, by users
    and administrators alike, the transactions table afterwards is the
    table before followed by new records.  No record is ever changed or
    removed, every new record is well formed, and the keys of the records
    stay distinct. *)
Theorem ledger_append_only rs db db' :
  serve_all rs db = Some db' ->
  exists new,
    transactions db' = transactions db ++ new /\
    Forall (fun x => record_ok x = true) new /\
    (NoDup (map Transaction.id (transactions db)) ->
     NoDup (map Transaction.id (transactions db'))).
Proof.
  revert rs db db'.
  apply (serve_all_invariant
           (fun a b => exists new,
                transactions b = transactions a ++ new /\
                Forall (fun x => record_ok x = true) new /\
                (NoDup (map Transaction.id (transactions a)) ->
                 NoDup (map Transaction.id (transactions b))))).
  - intros db. exists []. rewrite app_nil_r. repeat split; auto.
  - intros a b c [new [Hnew [Hok Hnd]]] Heff.
    destruct (effect_transactions _ _ Heff) as [add [Hadd [Hlen Hall]]].
    exists (new ++ add). split; [now rewrite Hadd, Hnew, app_assoc|].
    split.
    + apply Forall_app. split; [exact Hok|].
      eapply Forall_impl; [|exact Hall]. now intros x [Hx _].
    + intros Ha. specialize (Hnd Ha). rewrite Hadd.
      destruct add as [|x [|y add]]; simpl in Hlen; try lia.
      * now rewrite app_nil_r.
      * rewrite map_app. simpl. apply NoDup_snoc; [exact Hnd|].
        inversion Hall as [|? ? [_ Hid] _]; subst. rewrite Hid.
        apply fresh_id_not_in.
Qed.

Lemma ledger_append_only_witness :
  exists db' new,
    serve_all site_requests0 db0 = Some db' /\
    transactions db' = transactions db0 ++ new /\
    List.length new = 2%nat /\
    NoDup (map Transaction.id (transactions db')).
Proof.
  destruct (ledger_append_only site_requests0 db0 _ ltac:(vm_compute; reflexivity))
    as [new [Hnew [_ Hnd]]].
  eexists _, new. split; [vm_compute; reflexivity|]. split; [exact Hnew|].
  split; [|apply Hnd; constructor].
  apply (f_equal (@List.length _)) in Hnew. vm_compute in Hnew.
  symmetry. exact Hnew.
Defined.

Lemma handle_identity r db resp db' :
  handle r db = Some (resp, db') ->
  exists new, map identity (accounts db') = map identity (accounts db) ++ new.
Proof.
  intros H.
  destruct r as [cu m f e|cu m f e|cu m f e|cu m f fuel rng e]; simpl in H.
  - injection H as H. assert (Hd : snd (transfer cu m f e db) = db') by now rewrite H.
    destruct (transfer_cases cu m f e db)
      as [[uid [src [dst [_ [_ [_ [_ Heq]]]]]]]|[_ Hsame]].
    + rewrite Heq in Hd. simpl in Hd. subst db'. exists []. simpl.
      rewrite app_nil_r, !map_map. apply map_ext. intros a.
      now rewrite !bump_identity.
    + rewrite Hsame in Hd. subst db'. exists []. now rewrite app_nil_r.
  - injection H as H. assert (Hd : snd (deposit cu m f e db) = db') by now rewrite H.
    destruct (deposit_cases cu m f e db)
      as [[_ Hsame]|[a [x [_ [_ [_ [_ [_ [_ Heq]]]]]]]]].
    + rewrite Hsame in Hd. subst db'. exists []. now rewrite app_nil_r.
    + rewrite Heq in Hd. simpl in Hd. subst db'. exists []. simpl.
      rewrite app_nil_r, !map_map. apply map_ext. intros b.
      now rewrite !bump_identity.
  - injection H as H. assert (Hd : snd (withdraw cu m f e db) = db') by now rewrite H.
    destruct (withdraw_cases cu m f e db)
      as [[_ Hsame]|[a [x [_ [_ [_ [_ [_ [_ [_ Heq]]]]]]]]]].
    + rewrite Hsame in Hd. subst db'. exists []. now rewrite app_nil_r.
    + rewrite Heq in Hd. simpl in Hd. subst db'. exists []. simpl.
      rewrite app_nil_r, !map_map. apply map_ext. intros b.
      now rewrite !bump_identity.
  - destruct (create_account_cases _ _ _ _ _ _ _ _ _ H)
      as [->|[uid [number [_ [_ ->]]]]].
    + exists []. now rewrite app_nil_r.
    + eexists. simpl. rewrite map_app. reflexivity.
Qed.

(** X5. Accounts are never removed, re-owned, renumbered or retyped: after
    any sequence of requests the accounts table lists the former accounts,
    in order, with the identifier, owner, number and type they had,
    followed by the accounts opened since.  When the sequence holds user
    requests only, their frozen flags are as before as well: no user
    request freezes or unfreezes an account. *)
Theorem accounts_keep_identity rs db db' :
  serve_all rs db = Some db' ->
  (exists new, map holder (accounts db') = map holder (accounts db) ++ new) /\
  (forallb is_user_request rs = true ->
   exists new, map identity (accounts db') = map identity (accounts db) ++ new).
Proof.
  intros Hrun. split.
  - revert rs db db' Hrun.
    apply (serve_all_invariant
             (fun a b => exists new,
                  map holder (accounts b) = map holder (accounts a) ++ new)).
    + intros db. exists []. now rewrite app_nil_r.
    + intros a b c [new Hnew] Heff.
      destruct (effect_holders _ _ Heff) as [add [Hadd _]].
      exists (new ++ map holder add). now rewrite Hadd, Hnew, app_assoc.
  - revert db db' Hrun. induction rs as [|r rs IH]; simpl; intros db db' Hrun Hall.
    + injection Hrun as <-. exists []. now rewrite app_nil_r.
    + apply andb_true_iff in Hall as [Hr Hrs].
      destruct r as [r|cu k e]; [|discriminate]. simpl in Hrun.
      destruct (handle r db) as [[resp db1]|] eqn:Hh; [|discriminate].
      destruct (handle_identity _ _ _ _ Hh) as [add Hadd].
      destruct (IH _ _ Hrun Hrs) as [new Hnew].
      exists (add ++ new). now rewrite Hnew, Hadd, app_assoc.
Qed.

Lemma accounts_keep_identity_witness :
  exists db',
    serve_all site_requests0 db0 = Some db' /\
    map holder (accounts db') = map holder (accounts db0) /\
    map Account.balance (accounts db') = [4000; 3000; 700].
Proof.
  destruct (accounts_keep_identity site_requests0 db0 _ ltac:(vm_compute; reflexivity)) as [[new Hnew] _].
  eexists. split; [vm_compute; reflexivity|]. split; [|reflexivity].
  assert (new = []) as ->.
  { apply (f_equal (@List.length _)) in Hnew. rewrite length_app in Hnew.
    vm_compute in Hnew. destruct new; [reflexivity | simpl in Hnew; lia]. }
  now rewrite app_nil_r in Hnew.
Defined.

(** X6. The invariants of the tables survive administrators: over any
    sequence of user requests and freeze toggles, primary keys stay
    distinct, balances stay non-negative and account numbers stay
    distinct. *)
Theorem site_invariants rs db db' :
  unique_ids db -> balances_nonneg db ->
  serve_all rs db = Some db' ->
  unique_ids db' /\ balances_nonneg db' /\
  (unique_numbers db -> unique_numbers db').
Proof.
  intros Hu Hb Hrun.
  assert (H : (unique_ids db -> balances_nonneg db ->
               unique_ids db' /\ balances_nonneg db')
              /\ (unique_numbers db -> unique_numbers db')).
  { clear Hu Hb. revert rs db db' Hrun.
    apply (serve_all_invariant
             (fun a b => (unique_ids a -> balances_nonneg a ->
                          unique_ids b /\ balances_nonneg b)
                         /\ (unique_numbers a -> unique_numbers b))).
    - intros db. split; auto.
    - intros a b c [H1 H2] Heff. split.
      + intros Hu Hb. destruct (H1 Hu Hb) as [Hu' Hb'].
        split; [eapply effect_unique_ids | eapply effect_nonneg]; eauto.
      + intros Hn. eapply effect_unique_numbers; eauto. }
  destruct H as [H1 H2]. destruct (H1 Hu Hb) as [Hu' Hb'].
  split; [exact Hu'|]. split; [exact Hb' | exact H2].
Qed.

Lemma site_invariants_witness :
  exists db', serve_all site_requests0 db0 = Some db' /\
              unique_ids db' /\ balances_nonneg db'.
Proof.
  destruct (site_invariants site_requests0 db0 _
              unique_ids_db0 balances_nonneg_db0
              ltac:(vm_compute; reflexivity)) as [Hu [Hb _]].
  eexists. split; [vm_compute; reflexivity|]. split; [exact Hu | exact Hb].
Defined.

(** ** The books *)

Lemma bump_absent k d rows :
  ~ In k (map Account.id rows) -> map (bump k d) rows = rows.
Proof.
  induction rows as [|a rows IH]; simpl; intros Hk; [reflexivity|].
  rewrite IH by tauto. unfold bump.
  destruct (Account.id a =? k) eqn:E; [exfalso; apply Hk; left; lia | reflexivity].
Qed.

Lemma total_bump k d rows :
  NoDup (map Account.id rows) -> In k (map Account.id rows) ->
  fold_right (fun a s => Account.balance a + s) 0 (map (bump k d) rows)
  = fold_right (fun a s => Account.balance a + s) 0 rows + d.
Proof.
  induction rows as [|a rows IH]; simpl; intros Hnd Hin; [contradiction|].
  inversion Hnd as [|? ? Hnotin Hnd']; subst.
  destruct (Z.eq_dec (Account.id a) k) as [Heq|Hne].
  - subst k. rewrite bump_absent by exact Hnotin.
    unfold bump. rewrite Z.eqb_refl. simpl. lia.
  - destruct Hin as [Hin|Hin]; [contradiction|].
    rewrite IH by assumption. unfold bump.
    destruct (Account.id a =? k) eqn:E; [lia | simpl; lia].
Qed.

Lemma total_flip k rows :
  fold_right (fun a s => Account.balance a + s) 0 (map (flip_frozen k) rows)
  = fold_right (fun a s => Account.balance a + s) 0 rows.
Proof.
  induction rows as [|a rows IH]; simpl; [reflexivity|].
  now rewrite IH, flip_frozen_balance.
Qed.

Lemma net_flow_snoc txs x : net_flow (txs ++ [x]) = net_flow txs + net_inflow x.
Proof.
  unfold net_flow. induction txs as [|y txs IH]; simpl; [lia|]. rewrite IH. lia.
Qed.

Lemma effect_length db db' :
  effect db db' ->
  (List.length (accounts db) <= List.length (accounts db'))%nat.
Proof.
  intros H. destruct H; simpl; rewrite ?length_map, ?length_app; simpl; lia.
Qed.

Lemma effect_books db db' :
  effect db db' -> unique_ids db ->
  List.length (accounts db') = List.length (accounts db) ->
  total_balance_cents db' - net_flow (transactions db')
  = total_balance_cents db - net_flow (transactions db).
Proof.
  unfold unique_ids, total_balance_cents. intros H Hu Hlen. destruct H.
  - reflexivity.
  - unfold transferred. simpl. rewrite net_flow_snoc.
    rewrite total_bump.
    + rewrite total_bump; [|exact Hu | now apply in_map].
      unfold net_inflow. simpl. lia.
    + now rewrite map_bump_ids.
    + rewrite map_bump_ids. now apply in_map.
  - unfold cash_applied. simpl. rewrite net_flow_snoc.
    rewrite total_bump; [|exact Hu | now apply in_map].
    unfold net_inflow. simpl. lia.
  - unfold cash_applied. simpl. rewrite net_flow_snoc.
    rewrite total_bump; [|exact Hu | now apply in_map].
    unfold net_inflow. simpl. lia.
  - simpl in Hlen. rewrite length_app in Hlen. simpl in Hlen. lia.
  - simpl. now rewrite total_flip.
Qed.

(** X7. The books balance: over any sequence of requests during which no
    account was opened, the total of all balances moves by exactly the
    deposits recorded minus the withdrawals recorded.  Transfers and freeze
    toggles leave the total of the bank unchanged. *)
Theorem books_balance rs db db' :
  unique_ids db ->
  serve_all rs db = Some db' ->
  List.length (accounts db') = List.length (accounts db) ->
  total_balance_cents db' - net_flow (transactions db')
  = total_balance_cents db - net_flow (transactions db).
Proof.
  intros Hu Hrun Hlen.
  assert (H : unique_ids db ->
              unique_ids db' /\
              (List.length (accounts db) <= List.length (accounts db'))%nat /\
              (List.length (accounts db') = List.length (accounts db) ->
               total_balance_cents db' - net_flow (transactions db')
               = total_balance_cents db - net_flow (transactions db))).
  { clear Hu Hlen. revert rs db db' Hrun.
    apply (serve_all_invariant
             (fun a b => unique_ids a ->
                unique_ids b /\
                (List.length (accounts a) <= List.length (accounts b))%nat /\
                (List.length (accounts b) = List.length (accounts a) ->
                 total_balance_cents b - net_flow (transactions b)
                 = total_balance_cents a - net_flow (transactions a)))).
    - intros db Hu. split; [exact Hu|]. split; [lia | reflexivity].
    - intros a b c Hab Heff Hu. destruct (Hab Hu) as [Hub [Hle Heq]].
      pose proof (effect_length _ _ Heff) as Hle'.
      split; [eapply effect_unique_ids; eauto|]. split; [lia|].
      intros Hlen. rewrite (effect_books _ _ Heff Hub) by lia. apply Heq. lia. }
  now apply H.
Qed.

Lemma books_balance_witness :
  exists db', serve_all site_requests0 db0 = Some db' /\
              total_balance_cents db' - net_flow (transactions db')
              = total_balance_cents db0 - net_flow (transactions db0) /\
              total_balance_cents db' = 7700 /\ total_balance_cents db0 = 6700.
Proof.
  eexists. split; [vm_compute; reflexivity|].
  split; [apply (books_balance site_requests0 db0 _ unique_ids_db0
                   ltac:(vm_compute; reflexivity));
          reflexivity|].
  split; reflexivity.
Defined.

(** ** Amounts *)

Lemma amount_cents_near (d : Q) :
  (0 <= d)%Q -> (d <= 1000000 # 1)%Q ->
  py_int (d * (100 # 1)) <= amount_cents_of d <= py_int (d * (100 # 1)) + 1.
Proof.
  intros H0 H1. unfold amount_cents_of, decimal_mul. apply py_int_fix_near.
  - apply Qmult_le_0_compat; [exact H0 | discriminate].
  - eapply Qle_lt_trans; [apply scale_le; exact H1|]. reflexivity.
Qed.

Lemma amount_cents_exact (d : Q) (j : Z) :
  (0 <= d)%Q -> (d <= 1000000 # 1)%Q ->
  (d == j # 1000000000000000000)%Q ->
  amount_cents_of d = py_int (d * (100 # 1)).
Proof.
  intros H0 H1 Hj. unfold amount_cents_of, decimal_mul.
  apply (py_int_fix_exact _ 16).
  - apply Qmult_le_0_compat; [exact H0 | discriminate].
  - unfold decimal_prec. lia.
  - eapply Qle_lt_trans; [apply scale_le; exact H1|]. reflexivity.
  - destruct d as [n m]. unfold Qeq in Hj. cbn [Qnum Qden Qmult] in *.
    exists j. rewrite Pos.mul_1_r. lia.
Qed.

(** X8. How an accepted amount becomes cents.  When [DataRequired] and
    [NumberRange(lo, hi)], with limits as on the forms (from the float
    0.01 to 1000000), accept a decimal amount, the cents
    [int(amount * 100)] are between 1 and 100000000, and they are the
    amount times one hundred with the digits beyond the cent cut off, or
    one cent more: the product is rounded to 28 significant digits before
    [int] truncates it.  For an amount written with at most 18 decimal
    places nothing is rounded and the cents are exactly the truncation. *)
Theorem amount_conversion lo hi d :
  (float_0_01 <= lo)%Q -> (hi <= 1000000 # 1)%Q ->
  decimal_errors lo hi d = [] ->
  let c := amount_cents_of d in
  let t := py_int (d * (100 # 1)) in
  1 <= c <= 100000000 /\
  t <= c <= t + 1 /\
  (forall j, (d == j # 1000000000000000000)%Q -> c = t).
Proof.
  intros Hlo Hhi Hval c t. subst c t.
  apply decimal_errors_nil in Hval as [H1 H2].
  assert (Hd1 : (float_0_01 <= d)%Q) by (eapply Qle_trans; eassumption).
  assert (Hd2 : (d <= 1000000 # 1)%Q) by (eapply Qle_trans; eassumption).
  assert (Hd0 : (0 <= d)%Q) by (eapply Qle_trans; [|exact Hd1]; discriminate).
  split.
  { split; [now apply amount_cents_pos|].
    apply amount_cents_upper; [lia | exact Hd0 |].
    apply scale_le in Hd2. exact Hd2. }
  split; [now apply amount_cents_near|].
  intros j Hj. now apply (amount_cents_exact d j).
Qed.

Lemma amount_conversion_witness :
  amount_cents_of (20005 # 1000) = 2000 /\
  py_int (just_below_two_cents * (100 # 1)) = 1 /\
  amount_cents_of just_below_two_cents = 2.
Proof.
  destruct (amount_conversion float_0_01 (1000000 # 1) (20005 # 1000)
              ltac:(vm_compute; discriminate) ltac:(vm_compute; discriminate)
              eq_refl) as [_ [_ H]].
  destruct (amount_conversion float_0_01 (1000000 # 1) just_below_two_cents
              ltac:(vm_compute; discriminate) ltac:(vm_compute; discriminate)
              eq_refl) as [_ [[_ Hup] _]].
  split; [rewrite (H 20005000000000000000 eq_refl); reflexivity|].
  split; reflexivity.
Defined.

(** ** What the form validation leaves for the route to decide *)

Lemma validated_source uid k db :
  unique_ids db ->
  select_errors (map Account.id (active_accounts_of uid (accounts db))) k = [] ->
  exists a, query_get k (accounts db) = Some a /\
            Account.user_id a = uid /\ Account.is_frozen a = false.
Proof.
  intros Hu Hsel. apply select_errors_nil in Hsel.
  apply in_map_iff in Hsel as [a [Hid Ha]].
  unfold active_accounts_of in Ha. apply filter_In in Ha as [Hin Hp].
  apply andb_true_iff in Hp as [Hown Hnf].
  exists a. split; [|split; [lia | now destruct (Account.is_frozen a)]].
  unfold query_get.
  destruct (find _ (accounts db)) as [b|] eqn:Hf.
  - apply find_some in Hf as [Hb Hbid].
    assert (b = a) by (eapply unique_row; eauto; lia). now subst.
  - pose proof (find_none _ _ Hf a Hin) as H. simpl in H. lia.
Qed.

Lemma validated_destination rows n :
  TransferForm.to_account_id_errors rows n = [] ->
  exists d, first_by_number n rows = Some d /\ Account.is_frozen d = false /\
            String.length n = 10%nat /\ isdigit n = true.
Proof.
  unfold TransferForm.to_account_id_errors.
  destruct (strip_nonempty n); simpl; [|discriminate].
  intros H. apply app_nil_inv in H as [Hlen H].
  unfold TransferForm.validate_to_account_id in H.
  destruct (isdigit n) eqn:Hdig; simpl in H; [|discriminate].
  destruct (first_by_number n rows) as [d|] eqn:Hd; [|discriminate].
  destruct (Account.is_frozen d) eqn:Hfr; [discriminate|].
  exists d. repeat split; auto.
  unfold len in Hlen. destruct (Z.of_nat (String.length n) =? 10) eqn:E;
    [lia | discriminate].
Qed.

(** X9. On a transfer form that validates, only three things are left to
    decide: the source and the destination are found, the source is an
    unfrozen account of the user and the destination is not frozen, so the
    route answers SelfTransferNotAllowed when they are the same account,
    else InsufficientFunds when the balance is short, else whatever the
    commit decides.  Through the route the answers 'Invalid source
    account', 'Your account is frozen', 'Destination account not found'
    and 'Destination account is frozen' never occur. *)
Theorem transfer_decision uid f e db :
  unique_ids db ->
  TransferForm.validate (map Account.id (active_accounts_of uid (accounts db)))
    (accounts db) f = [] ->
  (exists src dst,
      query_get (TransferForm.from_account f) (accounts db) = Some src /\
      first_by_number (TransferForm.to_account_id f) (accounts db) = Some dst /\
      Account.user_id src = uid /\
      Account.is_frozen src = false /\ Account.is_frozen dst = false /\
      fst (transfer (User uid) POST f e db)
      = if Account.id src =? Account.id dst then SelfTransferNotAllowed
        else if Account.balance src <? amount_cents_of (TransferForm.amount f)
             then InsufficientFunds
             else if commit_ok e then Success else OperationFailed) /\
  (forall cu m f' e',
      let r := fst (transfer cu m f' e' db) in
      r <> InvalidAccount /\ r <> SourceFrozen /\ r <> DestinationNotFound /\
      r <> DestinationFrozen /\ r <> ErrorOccurred).
Proof.
  intros Hu Hval.
  assert (Hbody : forall u g e',
            TransferForm.validate (map Account.id (active_accounts_of u (accounts db)))
              (accounts db) g = [] ->
            exists src dst,
              query_get (TransferForm.from_account g) (accounts db) = Some src /\
              first_by_number (TransferForm.to_account_id g) (accounts db) = Some dst /\
              Account.user_id src = u /\
              Account.is_frozen src = false /\ Account.is_frozen dst = false /\
              fst (transfer_body u g e' db)
              = if Account.id src =? Account.id dst then SelfTransferNotAllowed
                else if Account.balance src <? amount_cents_of (TransferForm.amount g)
                     then InsufficientFunds
                     else if commit_ok e' then Success else OperationFailed).
  { intros u g e' Hg. unfold TransferForm.validate in Hg.
    apply app_nil_inv in Hg as [Hsel Hg]. apply app_nil_inv in Hg as [Hto _].
    destruct (validated_source u _ db Hu Hsel) as [src [Hsrc [Hown Hfs]]].
    destruct (validated_destination _ _ Hto) as [dst [Hdst [Hfd _]]].
    exists src, dst. repeat (split; [assumption|]).
    unfold transfer_body. rewrite Hsrc, Hdst, Hfs, Hfd.
    assert (Hown' : (Account.user_id src =? u) = true) by lia.
    rewrite Hown'. simpl negb. cbv iota.
    destruct (Account.id src =? Account.id dst); [reflexivity|].
    destruct (Account.balance src <? _); [reflexivity|].
    unfold finish, Session.commit. now destruct (commit_ok e'). }
  split.
  - destruct (Hbody uid f e Hval) as [src [dst [H1 [H2 [H3 [H4 [H5 H6]]]]]]].
    exists src, dst. repeat (split; [assumption|]).
    unfold transfer.
    destruct (active_accounts_of uid (accounts db)) as [|a0 rest] eqn:Hact.
    + exfalso. unfold TransferForm.validate in Hval.
      apply app_nil_inv in Hval as [Hsel _]. apply select_errors_nil in Hsel.
      contradiction.
    + rewrite Hval. exact H6.
  - intros cu m f' e' r. subst r. unfold transfer.
    destruct cu as [|u|a]; try (repeat split; discriminate).
    destruct (active_accounts_of u (accounts db)) as [|a0 rest] eqn:Hact;
      [repeat split; discriminate|].
    destruct m; [repeat split; discriminate|].
    destruct (TransferForm.validate _ _ f') eqn:Hv; [|repeat split; discriminate].
    rewrite <- Hact in Hv.
    destruct (Hbody u f' e' Hv) as [src [dst [_ [_ [_ [_ [_ ->]]]]]]].
    destruct (Account.id src =? Account.id dst); [repeat split; discriminate|].
    destruct (Account.balance src <? _); [repeat split; discriminate|].
    destruct (commit_ok e'); repeat split; discriminate.
Qed.

Lemma transfer_decision_witness :
  fst (transfer (User 1) POST t20 env0 db0) = Success /\
  fst (transfer (User 1) POST (TransferForm.mk 1 "1000000001" (1 # 1) "") env0 db0)
  = SelfTransferNotAllowed.
Proof.
  destruct (transfer_decision 1 t20 env0 db0 unique_ids_db0 eq_refl)
    as [[src [dst [H1 [H2 [_ [_ [_ H]]]]]]] _].
  destruct (transfer_decision 1 (TransferForm.mk 1 "1000000001" (1 # 1) "")
              env0 db0 unique_ids_db0 eq_refl)
    as [[src' [dst' [H1' [H2' [_ [_ [_ H']]]]]]] _].
  vm_compute in H1, H2, H1', H2'.
  injection H1 as <-. injection H2 as <-. injection H1' as <-. injection H2' as <-.
  split; [exact H | exact H'].
Defined.

(** X10. On a deposit or withdrawal form that validates, the account is
    found and is an unfrozen account of the user; a deposit then fails only
    if the commit does, and a withdrawal only for insufficient funds or if
    the commit does.  Through the routes the answer 'Invalid account'
    never occurs. *)
Theorem cash_decision uid f e db :
  unique_ids db ->
  CashForm.validate (map Account.id (active_accounts_of uid (accounts db))) f = [] ->
  (exists a,
      query_get (CashForm.account f) (accounts db) = Some a /\
      Account.user_id a = uid /\ Account.is_frozen a = false /\
      fst (deposit (User uid) POST f e db)
      = (if commit_ok e then Success else OperationFailed) /\
      fst (withdraw (User uid) POST f e db)
      = if Account.balance a <? amount_cents_of (CashForm.amount f)
        then InsufficientFunds
        else if commit_ok e then Success else OperationFailed) /\
  (forall cu m f' e',
      fst (deposit cu m f' e' db) <> InvalidAccount /\
      fst (withdraw cu m f' e' db) <> InvalidAccount).
Proof.
  intros Hu Hval.
  assert (Hbody : forall u g e',
            CashForm.validate (map Account.id (active_accounts_of u (accounts db))) g = [] ->
            exists a,
              query_get (CashForm.account g) (accounts db) = Some a /\
              Account.user_id a = u /\ Account.is_frozen a = false /\
              fst (deposit_body u g e' db)
              = (if commit_ok e' then Success else OperationFailed) /\
              fst (withdraw_body u g e' db)
              = if Account.balance a <? amount_cents_of (CashForm.amount g)
                then InsufficientFunds
                else if commit_ok e' then Success else OperationFailed).
  { intros u g e' Hg. unfold CashForm.validate in Hg.
    apply app_nil_inv in Hg as [Hsel _].
    destruct (validated_source u _ db Hu Hsel) as [a [Hget [Hown Hfr]]].
    exists a. repeat (split; [assumption|]).
    assert (Hown' : (Account.user_id a =? u) = true) by lia.
    unfold deposit_body, withdraw_body. rewrite Hget, Hown'. simpl negb. cbv iota.
    unfold finish, Session.commit. split.
    - now destruct (commit_ok e').
    - destruct (Account.balance a <? _); [reflexivity|]. now destruct (commit_ok e'). }
  split.
  - destruct (Hbody uid f e Hval) as [a [H1 [H2 [H3 [H4 H5]]]]].
    exists a. repeat (split; [assumption|]).
    unfold deposit, withdraw. rewrite !cash_route_valid by exact Hval.
    split; assumption.
  - intros cu m f' e'. unfold deposit, withdraw, cash_route.
    destruct cu as [|u|a]; try (split; discriminate).
    destruct (active_accounts_of u (accounts db)) as [|a0 rest] eqn:Hact;
      [split; discriminate|].
    destruct m; [split; discriminate|].
    destruct (CashForm.validate _ f') eqn:Hv; [|split; discriminate].
    rewrite <- Hact in Hv.
    destruct (Hbody u f' e' Hv) as [a [_ [_ [_ [-> ->]]]]].
    split; [destruct (commit_ok e'); discriminate|].
    destruct (Account.balance a <? _); [discriminate|].
    destruct (commit_ok e'); discriminate.
Qed.

Lemma cash_decision_witness :
  fst (deposit (User 1) POST d10 env0 db0) = Success /\
  fst (withdraw (User 1) POST w500 env0 db0) = InsufficientFunds.
Proof.
  destruct (cash_decision 1 d10 env0 db0 unique_ids_db0 eq_refl)
    as [[a [Ha [_ [_ [Hd _]]]]] _].
  destruct (cash_decision 1 w500 env0 db0 unique_ids_db0 eq_refl)
    as [[b [Hb [_ [_ [_ Hw]]]]] _].
  vm_compute in Ha, Hb. injection Ha as <-. injection Hb as <-.
  split; [exact Hd | exact Hw].
Defined.

(** ** The reading routes *)

Lemma history_members a txs x :
  In x (Account.get_all_transactions a txs) <->
  In x txs /\ (Transaction.from_account_id x = Some (Account.id a) \/
               Transaction.to_account_id x = Some (Account.id a)).
Proof.
  unfold Account.get_all_transactions, Account.transactions_sent,
    Account.transactions_received. cbv zeta. split.
  - intros Hin. apply (Permutation_in _ (sorted_perm _)) in Hin.
    apply in_app_or in Hin as [Hin|Hin]; apply filter_In in Hin as [Hin Hp];
      apply opt_eqb_eq in Hp; auto.
  - intros [Hin Hp]. apply (Permutation_in _ (Permutation_sym (sorted_perm _))).
    apply in_or_app.
    destruct Hp as [Hp|Hp]; [left | right]; apply filter_In;
      (split; [exact Hin | now apply opt_eqb_eq]).
Qed.

(** X11. The account page is shown to the owner of the account and to
    nobody else: when [account_details] answers with a page, the requester
    is the user who owns the account, the account is the one asked for, and
    every transaction on the page is a record of the ledger with that
    account as source or destination.  Any other user asking for the same
    account gets 403; the tables are never touched. *)
Theorem account_page_only_for_owner cu k db a txs :
  fst (account_details cu k db) = AccountPage a txs ->
  cu = User (Account.user_id a) /\
  query_get k (accounts db) = Some a /\
  txs = Account.get_all_transactions a (transactions db) /\
  (forall x, In x txs ->
             In x (transactions db) /\
             (Transaction.from_account_id x = Some k \/
              Transaction.to_account_id x = Some k)) /\
  (forall uid, uid <> Account.user_id a ->
               fst (account_details (User uid) k db) = Forbidden403) /\
  snd (account_details cu k db) = db.
Proof.
  unfold account_details, check_account_ownership. intros H.
  destruct cu as [|uid|aid]; try discriminate.
  destruct (query_get k (accounts db)) as [b|] eqn:Hget; [|discriminate].
  destruct (Account.user_id b =? uid) eqn:Hown; simpl in H; [|discriminate].
  injection H as <- <-.
  pose proof (query_get_sound _ _ _ Hget) as [_ Hid].
  split; [f_equal; lia|]. split; [reflexivity|]. split; [reflexivity|].
  split; [intros x Hx; apply history_members in Hx; now rewrite Hid in Hx|].
  split; [|reflexivity].
  intros u Hu. assert (E : (Account.user_id b =? u) = false) by lia.
  now rewrite E.
Qed.

Lemma account_page_only_for_owner_witness :
  fst (account_details (User 2) 1 db0) = Forbidden403 /\
  fst (account_details (User 1) 1 db0) = AccountPage acc1 [].
Proof.
  destruct (account_page_only_for_owner (User 1) 1 db0 acc1 [] eq_refl)
    as [_ [_ [_ [_ [Hforbidden _]]]]].
  split; [apply Hforbidden; discriminate | reflexivity].
Defined.

Lemma written_rows_all {A} (f : A -> option StatementRow) (g : A -> StatementRow)
    (l : list A) :
  (forall x, In x l -> f x = Some (g x)) ->
  written_rows (map f l) = map g l.
Proof.
  induction l as [|x l IH]; simpl; intros H; [reflexivity|].
  rewrite (H x) by now left. rewrite IH; [reflexivity|].
  intros y Hy. apply H. now right.
Qed.




(** ** The dashboard *)

Lemma dict_set_entries k v d k' v' :
  In (k', v') (dict_set k v d) -> (k', v') = (k, v) \/ In (k', v') d.
Proof.
  induction d as [|[k0 v0] d IH]; simpl.
  - intros [H|[]]. left. now symmetry.
  - destruct (k0 =? k); simpl.
    + intros [H|H]; [left; now symmetry | right; now right].
    + intros [H|H]; [right; now left|].
      destruct (IH H) as [E|E]; [now left | right; now right].
Qed.

Lemma dict_set_keys k v d k' :
  In k' (map fst (dict_set k v d)) <-> k' = k \/ In k' (map fst d).
Proof.
  induction d as [|[k0 v0] d IH]; simpl.
  - split; intros [H|H]; auto; contradiction.
  - destruct (k0 =? k) eqn:E; simpl.
    + apply Z.eqb_eq in E. subst k0. intuition auto.
    + rewrite IH. tauto.
Qed.

Lemma dict_set_nodup k v d :
  NoDup (map fst d) -> NoDup (map fst (dict_set k v d)).
Proof.
  induction d as [|[k0 v0] d IH]; simpl; intros Hnd.
  - repeat constructor. intros [].
  - inversion Hnd as [|? ? Hnotin Hnd']; subst.
    destruct (k0 =? k) eqn:E; simpl.
    + apply Z.eqb_eq in E. subst k0. now constructor.
    + constructor; [|now apply IH].
      rewrite dict_set_keys. intros [H|H]; [lia | contradiction].
Qed.

(** The dict as the loops fill it: keys are distinct, every entry is keyed
    by the identifier of its record, every record has been met, and every
    record met has its key in the dict. *)
Definition filled (seen : Transaction.t -> Prop) (d : list (Z * Transaction.t))
  : Prop :=
  NoDup (map fst d) /\
  (forall k v, In (k, v) d -> k = Transaction.id v /\ seen v).

Lemma fill_inner l : forall (seen : Transaction.t -> Prop) d,
  filled seen d -> (forall x, In x l -> seen x) ->
  let d' := fold_left (fun d' tx => dict_set (Transaction.id tx) tx d') l d in
  filled seen d' /\
  (forall k, In k (map fst d') <-> In k (map fst d) \/ In k (map Transaction.id l)).
Proof.
  induction l as [|x l IH]; simpl; intros seen d Hf Hseen.
  - split; [exact Hf | tauto].
  - destruct Hf as [Hnd Hent].
    assert (Hf' : filled seen (dict_set (Transaction.id x) x d)).
    { split; [now apply dict_set_nodup|].
      intros k v Hin. apply dict_set_entries in Hin as [E|Hin]; [|now apply Hent].
      injection E as -> ->. split; [reflexivity | apply Hseen; now left]. }
    destruct (IH seen _ Hf' (fun y Hy => Hseen y (or_intror Hy))) as [H1 H2].
    split; [exact H1|]. intros k. rewrite H2, dict_set_keys.
    assert (Hsym : Transaction.id x = k <-> k = Transaction.id x)
      by (split; congruence).
    rewrite Hsym. tauto.
Qed.

Lemma fill_outer txs accts : forall (seen : Transaction.t -> Prop) d,
  filled seen d ->
  (forall a x, In a accts -> In x (Account.get_all_transactions a txs) -> seen x) ->
  let d' := fold_left
              (fun d account =>
                 fold_left (fun d' tx => dict_set (Transaction.id tx) tx d')
                           (Account.get_all_transactions account txs) d)
              accts d in
  filled seen d' /\
  (forall k, In k (map fst d') <->
             In k (map fst d) \/
             exists a, In a accts /\
                       In k (map Transaction.id (Account.get_all_transactions a txs))).
Proof.
  induction accts as [|a accts IH]; simpl; intros seen d Hf Hseen.
  - split; [exact Hf|]. intros k. split; [tauto|].
    intros [H|[a [[] _]]]. exact H.
  - destruct (fill_inner (Account.get_all_transactions a txs) seen d Hf
                (fun x Hx => Hseen a x (or_introl eq_refl) Hx)) as [Hf1 Hk1].
    destruct (IH seen _ Hf1 (fun b x Hb Hx => Hseen b x (or_intror Hb) Hx))
      as [Hf2 Hk2].
    split; [exact Hf2|]. intros k. rewrite Hk2, Hk1. split.
    + intros [[H|H]|[b [Hb H]]]; auto.
      * right. exists a. auto.
      * right. exists b. auto.
    + intros [H|[b [[->|Hb] H]]]; auto. right. exists b. auto.
Qed.

Lemma filled_values_ids seen d :
  filled seen d -> map Transaction.id (map snd d) = map fst d.
Proof.
  intros [_ Hent]. induction d as [|[k v] d IH]; simpl; [reflexivity|].
  rewrite IH by (intros k' v' H; apply Hent; now right).
  destruct (Hent k v (or_introl eq_refl)) as [-> _]. reflexivity.
Qed.

Lemma in_firstn {A} n : forall (l : list A) x, In x (firstn n l) -> In x l.
Proof.
  intros l x H. rewrite <- (firstn_skipn n l). apply in_or_app. now left.
Qed.

Lemma firstn_sorted {A} (R : A -> A -> Prop) n : forall l,
  StronglySorted R l -> StronglySorted R (firstn n l).
Proof.
  induction n as [|n IH]; intros l Hs; simpl; [constructor|].
  destruct l as [|x l]; [constructor|].
  inversion Hs as [|? ? Hl Hall]; subst. constructor; [now apply IH|].
  rewrite Forall_forall in *. intros y Hy. apply Hall.
  eapply in_firstn; eauto.
Qed.

Lemma firstn_nodup {A} n (l : list A) : NoDup l -> NoDup (firstn n l).
Proof.
  intros H. rewrite <- (firstn_skipn n l) in H.
  eapply NoDup_app_remove_r. exact H.
Qed.

Lemma firstn_top {A} (R : A -> A -> Prop) n : forall l x,
  StronglySorted R l -> In x l ->
  In x (firstn n l) \/
  (List.length (firstn n l) = n /\ Forall (fun y => R y x) (firstn n l)).
Proof.
  induction n as [|n IH]; intros l x Hs Hin; simpl.
  - right. split; [reflexivity | constructor].
  - destruct l as [|y l]; [contradiction|].
    inversion Hs as [|? ? Hl Hall]; subst.
    destruct Hin as [->|Hin]; [left; now left|].
    destruct (IH l x Hl Hin) as [H|[Hlen HR]]; [left; now right|].
    right. simpl. split; [now rewrite Hlen|].
    constructor; [|exact HR]. rewrite Forall_forall in Hall. now apply Hall.
Qed.

(** X13. The dashboard lists at most ten transactions, newest first, each
    of them a record of the ledger in which an account of the user is
    source or destination, and none of them twice, even when the user owns
    both sides of a transfer.  When the keys of the ledger are distinct
    the ten are the newest: a record of the user that is not listed is no
    newer than any that is, and ten are listed then. *)
Theorem dashboard_recent cu db page :
  dashboard cu db = inr page ->
  exists uid,
    cu = User uid /\
    dashboard_accounts page = accounts_of uid (accounts db) /\
    (List.length (recent_transactions page) <= 10)%nat /\
    StronglySorted newer_first (recent_transactions page) /\
    NoDup (map Transaction.id (recent_transactions page)) /\
    (forall x, In x (recent_transactions page) ->
       In x (transactions db) /\
       exists a, In a (accounts db) /\ Account.user_id a = uid /\
                 (Transaction.from_account_id x = Some (Account.id a) \/
                  Transaction.to_account_id x = Some (Account.id a))) /\
    (NoDup (map Transaction.id (transactions db)) ->
     forall x a,
       In x (transactions db) -> In a (accounts db) -> Account.user_id a = uid ->
       Transaction.from_account_id x = Some (Account.id a) \/
       Transaction.to_account_id x = Some (Account.id a) ->
       In x (recent_transactions page) \/
       (List.length (recent_transactions page) = 10%nat /\
        Forall (fun y => Transaction.timestamp x <= Transaction.timestamp y)
               (recent_transactions page))).
Proof.
  unfold dashboard. intros H. destruct cu as [|uid|aid]; try discriminate.
  apply (f_equal (fun s => match s with inr p => p | inl _ => page end)) in H.
  cbv beta iota zeta in H. subst page. exists uid.
  unfold dashboard_accounts, recent_transactions. cbv beta iota.
  set (accts := accounts_of uid (accounts db)).
  set (txs := transactions db).
  set (seen := fun x : Transaction.t =>
         In x txs /\
         exists a, In a (accounts db) /\ Account.user_id a = uid /\
                   (Transaction.from_account_id x = Some (Account.id a) \/
                    Transaction.to_account_id x = Some (Account.id a))).
  assert (Hseen : forall a x, In a accts ->
            In x (Account.get_all_transactions a txs) -> seen x).
  { intros a x Ha Hx. apply history_members in Hx as [Hx Hinv].
    unfold accts, accounts_of in Ha. apply filter_In in Ha as [Ha Hown].
    split; [exact Hx|]. exists a. repeat split; auto. lia. }
  assert (Hempty : filled seen []).
  { split; [constructor | intros k v []]. }
  destruct (fill_outer txs accts seen [] Hempty Hseen) as [Hf Hkeys].
  fold (transactions_map accts txs) in Hf, Hkeys.
  set (d := transactions_map accts txs) in *.
  pose proof (filled_values_ids seen d Hf) as Hids.
  pose proof (sorted_perm (map snd d)) as Hperm.
  split; [reflexivity|]. split; [reflexivity|].
  split; [apply firstn_le_length|].
  split; [apply firstn_sorted, sorted_is_sorted|].
  split.
  { rewrite <- firstn_map. apply firstn_nodup.
    eapply Permutation_NoDup; [apply Permutation_map, Permutation_sym, Hperm|].
    rewrite Hids. apply Hf. }
  split.
  { intros x Hx. apply in_firstn in Hx.
    apply (Permutation_in _ Hperm) in Hx.
    apply in_map_iff in Hx as [[k v] [Hv Hin]]. simpl in Hv. subst v.
    destruct Hf as [_ Hent]. exact (proj2 (Hent k x Hin)). }
  intros Hnd x a Hx Ha Hown Hinv.
  assert (Hxl : In x (sorted_by_timestamp_desc (map snd d))).
  { apply (Permutation_in _ (Permutation_sym Hperm)).
    assert (Hk : In (Transaction.id x) (map fst d)).
    { apply Hkeys. right. exists a. split.
      - unfold accts, accounts_of. apply filter_In. split; [exact Ha | lia].
      - apply in_map. apply history_members. split; assumption. }
    apply in_map_iff in Hk as [[k v] [Hkv Hin]]. simpl in Hkv. subst k.
    destruct Hf as [_ Hent]. destruct (Hent _ _ Hin) as [Hid [Hvin _]].
    assert (v = x) by (eapply (NoDup_map_inj Transaction.id); eauto).
    subst v. apply in_map_iff. exists (Transaction.id x, x). split; auto. }
  exact (firstn_top newer_first 10 _ x (sorted_is_sorted _) Hxl).
Qed.

Lemma dashboard_recent_witness :
  let db2 := snd (transfer (User 1) POST t20 (mkEnv 20 true)
                    (snd (deposit (User 1) POST d10 (mkEnv 10 true) db0))) in
  exists page, dashboard (User 1) db2 = inr page /\
               map Transaction.id (recent_transactions page) = [2; 1] /\
               NoDup (map Transaction.id (recent_transactions page)).
Proof.
  intros db2. eexists. split; [vm_compute; reflexivity|]. split; [reflexivity|].
  destruct (dashboard_recent (User 1) db2 _ ltac:(vm_compute; reflexivity))
    as [uid [_ [_ [_ [_ [Hnd _]]]]]].
  exact Hnd.
Defined.

(** ** Opening an account *)

Lemma find_snoc {A} (p : A -> bool) (l : list A) (x : A) :
  find p l = None -> p x = true -> find p (l ++ [x]) = Some x.
Proof.
  induction l as [|y l IH]; simpl; intros Hnone Hx.
  - now rewrite Hx.
  - destruct (p y); [discriminate | now apply IH].
Qed.

Lemma query_get_fresh rows :
  query_get (next_id (map Account.id rows)) rows = None.
Proof.
  unfold query_get.
  destruct (find _ rows) as [a|] eqn:Hf; [|reflexivity].
  apply find_some in Hf as [Hin Hid]. exfalso.
  apply (fresh_id_not_in (map Account.id rows)).
  apply Z.eqb_eq in Hid. rewrite <- Hid. now apply in_map.
Qed.

Lemma account_type_choice data :
  CreateAccountForm.account_type_errors data = [] ->
  data = "Current"%string \/ data = "savings"%string.
Proof.
  unfold CreateAccountForm.account_type_errors.
  destruct (strip_nonempty data); cbn [negb]; [|discriminate].
  destruct (String.eqb data "Current") eqn:E1.
  - intros _. left. now apply String.eqb_eq.
  - destruct (String.eqb data "savings") eqn:E2; simpl; [|discriminate].
    intros _. right. now apply String.eqb_eq.
Qed.

(** A blank choice is reported as missing, not as an invalid choice. *)
Example account_type_blank :
  CreateAccountForm.account_type_errors "  " = [FieldRequired] /\
  CreateAccountForm.account_type_errors "" = [FieldRequired] /\
  CreateAccountForm.account_type_errors "current" = [NotAValidChoice] /\
  CreateAccountForm.account_type_errors "savings" = [].
Proof. repeat split. Qed.

(** X14. [create_account] either changes nothing or opens exactly one
    account: owned by the requesting user, not frozen, of type 'Current'
    or 'savings', holding the initial deposit in cents (between 1000 and
    10000000), under a fresh primary key and a fresh number of ten digits.
    The new account is found at once by its key and by its number.  The
    existing accounts are untouched and no transaction is recorded for the
    initial deposit. *)
Theorem account_opening cu m form fuel rng e db resp db' :
  create_account cu m form fuel rng e db = Some (resp, db') ->
  (resp <> Success /\ db' = db)
  \/ (resp = Success /\
      exists uid new,
        cu = User uid /\
        accounts db' = accounts db ++ [new] /\
        transactions db' = transactions db /\
        Account.user_id new = uid /\
        Account.is_frozen new = false /\
        (Account.account_type new = "Current"%string \/
         Account.account_type new = "savings"%string) /\
        Account.balance new
        = amount_cents_of (CreateAccountForm.initial_deposit form) /\
        1000 <= Account.balance new <= 10000000 /\
        String.length (Account.account_number new) = 10%nat /\
        isdigit (Account.account_number new) = true /\
        ~ In (Account.account_number new)
             (map Account.account_number (accounts db)) /\
        ~ In (Account.id new) (map Account.id (accounts db)) /\
        query_get (Account.id new) (accounts db') = Some new /\
        first_by_number (Account.account_number new) (accounts db') = Some new).
Proof.
  unfold create_account. intros H.
  destruct cu as [|uid|aid];
    try (injection H as <- <-; left; split; [discriminate | reflexivity]).
  destruct m; [injection H as <- <-; left; split; [discriminate | reflexivity]|].
  destruct (CreateAccountForm.validate form) eqn:Hval;
    [|injection H as <- <-; left; split; [discriminate | reflexivity]].
  destruct (generate_account_number _ _ _ _) as [number|] eqn:Hgen; [|discriminate].
  unfold finish, Session.commit in H.
  destruct (commit_ok e); injection H as <- <-;
    [|left; split; [discriminate | reflexivity]].
  right. split; [reflexivity|].
  pose proof (create_validate_range _ Hval) as Hrange.
  unfold CreateAccountForm.validate in Hval.
  apply app_nil_inv in Hval as [Htype _]. apply account_type_choice in Htype.
  pose proof (generate_fresh _ _ _ _ _ Hgen) as Hnone.
  apply generate_is_candidate in Hgen as [j [_ ->]]. unfold candidate in *.
  eexists uid, _.
  cbn [accounts transactions Session.working Session.committed Session.remove
       Session.start Session.add_account].
  split; [reflexivity|]. split; [reflexivity|]. split; [reflexivity|].
  cbn [Account.id Account.user_id Account.account_number Account.account_type
       Account.balance Account.is_frozen].
  split; [reflexivity|]. split; [reflexivity|]. split; [exact Htype|].
  split; [reflexivity|]. split; [exact Hrange|].
  split; [apply join_digits_length|]. split; [apply join_digits_isdigit|].
  split; [now apply first_by_number_fresh|].
  split; [apply fresh_id_not_in|].
  split.
  - unfold query_get. apply find_snoc; [apply query_get_fresh | apply Z.eqb_refl].
  - unfold first_by_number. apply find_snoc; [exact Hnone | apply String.eqb_refl].
Qed.

Lemma account_opening_witness :
  exists new,
    create_account (User 2) POST (CreateAccountForm.mk "savings" (25 # 1))
      2 rng0 env0 db0
    = Some (Success, mkDB (accounts db0 ++ [new]) (transactions db0)) /\
    Account.account_number new = "7777777777"%string /\
    Account.balance new = 2500 /\ Account.id new = 4.
Proof.
  destruct (account_opening (User 2) POST (CreateAccountForm.mk "savings" (25 # 1))
              2 rng0 env0 db0 _ _ ltac:(vm_compute; reflexivity)) as [[Hne _]|[_ [uid [new _]]]].
  - exfalso. now apply Hne.
  - eexists. split; [vm_compute; reflexivity|]. repeat split.
Defined.

(** ** Registration and login *)

Lemma user_by_email_fresh e rows :
  user_by_email e rows = None -> ~ In e (map UserRow.email rows).
Proof.
  unfold user_by_email. intros H Hin.
  apply in_map_iff in Hin as [u [He Hu]].
  pose proof (find_none _ _ H u Hu) as Hf. simpl in Hf.
  rewrite He, String.eqb_refl in Hf. discriminate.
Qed.

Lemma register_email_errors_nil lib rows data :
  RegisterForm.email_errors lib rows data = [] ->
  strip_nonempty data = true /\ email_is_valid lib data = true /\
  user_by_email (strip (lower data)) rows = None.
Proof.
  unfold RegisterForm.email_errors.
  destruct (strip_nonempty data); simpl; [|discriminate].
  intros H. apply app_eq_nil in H as [Hv H]. apply app_eq_nil in H as [_ Ht].
  split; [reflexivity|]. split.
  - destruct (email_is_valid lib data); [reflexivity | discriminate].
  - unfold RegisterForm.validate_email in Ht.
    destruct (user_by_email _ rows); [discriminate | reflexivity].
Qed.

(** X15. A registration either changes nothing or adds exactly one user
    and one account.  The user is stored under the lower-cased, stripped
    address, which no earlier user has, under a fresh key, active and not
    an administrator; the account belongs to that user, is of type
    'Current', not frozen, holds 10000 cents and carries a fresh number of
    ten digits, the one the response shows.  No transaction is recorded,
    and addresses that were pairwise distinct stay so. *)
Theorem registration_effect lib cu m form salt fuel rng e site resp site' :
  register lib cu m form salt fuel rng e site = Some (resp, site') ->
  (site' = site /\ forall n, resp <> Registered n)
  \/ (exists number user account,
        resp = Registered number /\ cu = Anonymous /\
        users site' = users site ++ [user] /\
        accounts (bank site') = accounts (bank site) ++ [account] /\
        transactions (bank site') = transactions (bank site) /\
        UserRow.email user = strip (lower (RegisterForm.email form)) /\
        UserRow.is_active user = true /\ UserRow.is_admin user = false /\
        ~ In (UserRow.email user) (map UserRow.email (users site)) /\
        ~ In (UserRow.id user) (map UserRow.id (users site)) /\
        Account.user_id account = UserRow.id user /\
        Account.account_type account = "Current"%string /\
        Account.balance account = 10000 /\
        Account.is_frozen account = false /\
        Account.account_number account = number /\
        String.length number = 10%nat /\ isdigit number = true /\
        ~ In number (map Account.account_number (accounts (bank site))) /\
        (NoDup (map UserRow.email (users site)) ->
         NoDup (map UserRow.email (users site')))).
Proof.
  unfold register. intros H.
  destruct cu as [|uid|aid]; simpl is_authenticated in H; cbv iota in H;
    try (injection H as <- <-; left; split; [reflexivity | discriminate]).
  destruct m; [injection H as <- <-; left; split; [reflexivity | discriminate]|].
  destruct (RegisterForm.validate lib (users site) form) eqn:Hval;
    [|injection H as <- <-; left; split; [reflexivity | discriminate]].
  destruct (generate_account_number _ _ _ _) as [number|] eqn:Hgen; [|discriminate].
  destruct (commit_ok e); injection H as <- <-;
    [|left; split; [reflexivity | discriminate]].
  right. unfold RegisterForm.validate in Hval.
  apply app_eq_nil in Hval as [Hemail _].
  apply register_email_errors_nil in Hemail as [_ [_ Hnone]].
  apply user_by_email_fresh in Hnone.
  pose proof (generate_fresh _ _ _ _ _ Hgen) as Hfresh.
  assert (Hshape : String.length number = 10%nat /\ isdigit number = true).
  { apply generate_is_candidate in Hgen as [j [_ ->]]. unfold candidate.
    split; [apply join_digits_length | apply join_digits_isdigit]. }
  eexists number, _, _.
  cbn [users bank accounts transactions UserRow.email UserRow.is_active
       UserRow.is_admin UserRow.id Account.user_id Account.account_type
       Account.balance Account.is_frozen Account.account_number].
  repeat (split; [reflexivity|]).
  split; [exact Hnone|]. split; [apply fresh_id_not_in|].
  repeat (split; [reflexivity|]).
  split; [apply Hshape|]. split; [apply Hshape|].
  split; [now apply first_by_number_fresh|].
  intros Hnd. rewrite map_app. simpl. now apply NoDup_snoc.
Qed.

Lemma registration_effect_witness :
  exists user account,
    register demo_library Anonymous POST alice_form "salt" 2 rng0 env0 site0
    = Some (Registered "7777777777",
            mkSite [user] (mkDB (accounts db0 ++ [account]) [])) /\
    UserRow.email user = "alice@example.com"%string /\
    Account.balance account = 10000.
Proof.
  destruct (registration_effect demo_library Anonymous POST alice_form "salt"
              2 rng0 env0 site0 _ _ ltac:(vm_compute; reflexivity)) as [[_ Hne]|_].
  - exfalso. now apply (Hne "7777777777"%string).
  - eexists _, _. split; [reflexivity|]. split; reflexivity.
Defined.

(** X16. Who has registered can log in: with hashing functions that
    verify what they produced, after a successful registration a login
    by an anonymous visitor with the same password and the same address,
    in whatever case and with whatever blanks around it, logs in the user
    just created. *)
Theorem register_then_login lib form salt fuel rng e site number site' lf :
  hashing_sound lib ->
  register lib Anonymous POST form salt fuel rng e site
  = Some (Registered number, site') ->
  LoginForm.validate lib lf = [] ->
  strip (lower (LoginForm.email lf)) = strip (lower (RegisterForm.email form)) ->
  LoginForm.password lf = RegisterForm.password form ->
  exists user,
    login lib Anonymous POST lf site' = LoggedIn user /\
    users site' = users site ++ [user] /\
    UserRow.email user = strip (lower (RegisterForm.email form)).
Proof.
  intros Hsound H Hlf Hemail Hpw. unfold register in H.
  simpl is_authenticated in H. cbv iota in H.
  destruct (RegisterForm.validate lib (users site) form) eqn:Hval; [|discriminate].
  destruct (generate_account_number _ _ _ _) as [n|]; [|discriminate].
  destruct (commit_ok e); [|discriminate].
  injection H as _ <-.
  unfold RegisterForm.validate in Hval. apply app_eq_nil in Hval as [He _].
  apply register_email_errors_nil in He as [_ [_ Hnone]].
  eexists. split; [|split; reflexivity].
  unfold login. simpl is_authenticated. cbv iota. rewrite Hlf.
  cbn [users]. rewrite Hemail. unfold user_by_email.
  rewrite find_snoc; [|exact Hnone | apply String.eqb_refl].
  unfold verify_password. cbn [UserRow.password_hash UserRow.is_active].
  rewrite Hpw, Hsound. reflexivity.
Qed.

Lemma demo_library_sound : hashing_sound demo_library.
Proof. intros salt password. apply String.eqb_refl. Qed.

Lemma register_then_login_witness :
  exists site' user,
    register demo_library Anonymous POST alice_form "salt" 2 rng0 env0 site0
    = Some (Registered "7777777777", site') /\
    login demo_library Anonymous POST alice_login site' = LoggedIn user /\
    UserRow.email user = "alice@example.com"%string.
Proof.
  eexists.
  destruct (register_then_login demo_library alice_form "salt" 2 rng0 env0 site0
              "7777777777" _ alice_login demo_library_sound eq_refl eq_refl
              eq_refl eq_refl) as [user [Hlogin [_ Hmail]]].
  exists user. split; [reflexivity|]. split; [exact Hlogin | exact Hmail].
Defined.

(** X17. Nobody is logged in without an active user row, its address and
    a password that verifies: when [login] logs a user in, the visitor was
    anonymous, the user is a row of the users table found under the
    lower-cased, stripped address of the form, the row is active and the
    password of the form verifies against its hash. *)
Theorem login_sound lib cu m lf site user :
  login lib cu m lf site = LoggedIn user ->
  cu = Anonymous /\ m = POST /\
  In user (users site) /\
  UserRow.email user = strip (lower (LoginForm.email lf)) /\
  UserRow.is_active user = true /\
  verify_password lib user (LoginForm.password lf) = true /\
  strip_nonempty (LoginForm.password lf) = true.
Proof.
  unfold login. intros H.
  destruct cu; simpl is_authenticated in H; cbv iota in H; try discriminate.
  destruct m; [discriminate|].
  destruct (LoginForm.validate lib lf) eqn:Hval; [|discriminate].
  destruct (user_by_email _ (users site)) as [u|] eqn:Hu; [|discriminate].
  destruct (verify_password lib u (LoginForm.password lf)) eqn:Hv;
    simpl negb in H; cbv iota in H; [|discriminate].
  destruct (UserRow.is_active u) eqn:Ha; simpl negb in H; cbv iota in H;
    [|discriminate].
  injection H as <-.
  unfold user_by_email in Hu. apply find_some in Hu as [Hin He].
  apply String.eqb_eq in He.
  unfold LoginForm.validate in Hval. apply app_eq_nil in Hval as [_ Hp].
  repeat split; auto.
  destruct (strip_nonempty (LoginForm.password lf)); [reflexivity | discriminate].
Qed.

Lemma login_sound_witness :
  let site' := mkSite [UserRow.mk 1 "alice@example.com" "secret1" "Alice"
                         None false true 0] db0 in
  exists user, login demo_library Anonymous POST alice_login site' = LoggedIn user /\
               UserRow.is_active user = true /\ In user (users site').
Proof.
  intros site'. eexists.
  split; [reflexivity|].
  destruct (login_sound demo_library Anonymous POST alice_login site' _ ltac:(vm_compute; reflexivity))
    as [_ [_ [Hin [_ [Hact _]]]]].
  split; [exact Hact | exact Hin].
Defined.

Lemma user_by_email_flip e k rows :
  user_by_email e (map (flip_active k) rows)
  = option_map (flip_active k) (user_by_email e rows).
Proof.
  unfold user_by_email. apply find_map_stable. intros u.
  unfold flip_active. now destruct (UserRow.id u =? k).
Qed.

(** X18. Deactivating a user closes the door: once an administrator has
    deactivated the user whom an address leads to, no login with that
    address is accepted, and one with the right password is answered
    'Your account has been deactivated'.  The tables of the bank are not
    touched by the deactivation. *)
Theorem deactivation_blocks_login lib aid e site user :
  user_by_id (UserRow.id user) (users site) = Some user ->
  user_by_email (UserRow.email user) (users site) = Some user ->
  UserRow.is_active user = true ->
  commit_ok e = true ->
  let site1 := snd (toggle_user_status (Admin aid) (UserRow.id user) e site) in
  bank site1 = bank site /\
  forall cu m lf,
    strip (lower (LoginForm.email lf)) = UserRow.email user ->
    (forall u, login lib cu m lf site1 <> LoggedIn u) /\
    (cu = Anonymous -> m = POST -> LoginForm.validate lib lf = [] ->
     verify_password lib user (LoginForm.password lf) = true ->
     login lib cu m lf site1 = Deactivated).
Proof.
  intros Hid Hmail Hact Hok site1.
  assert (Hsite1 : site1 = mkSite (map (flip_active (UserRow.id user)) (users site))
                                  (bank site)).
  { subst site1. unfold toggle_user_status. simpl admin_required. cbv iota.
    now rewrite Hid, Hok. }
  assert (Hflip : flip_active (UserRow.id user) user = UserRow.set_active false user).
  { unfold flip_active. now rewrite Z.eqb_refl, Hact. }
  rewrite Hsite1. split; [reflexivity|].
  intros cu m lf Hkey.
  assert (Hfind : user_by_email (strip (lower (LoginForm.email lf)))
                    (users (mkSite (map (flip_active (UserRow.id user)) (users site))
                                   (bank site)))
                  = Some (UserRow.set_active false user)).
  { cbn [users]. rewrite user_by_email_flip, Hkey, Hmail. simpl. now rewrite Hflip. }
  split.
  - intros u. unfold login.
    destruct (is_authenticated cu); [discriminate|].
    destruct m; [discriminate|].
    destruct (LoginForm.validate lib lf); [|discriminate].
    rewrite Hfind.
    destruct (verify_password lib (UserRow.set_active false user)
                (LoginForm.password lf)); simpl; discriminate.
  - intros -> -> Hval Hver. unfold login. simpl is_authenticated. cbv iota.
    rewrite Hval, Hfind. unfold verify_password in *.
    cbn [UserRow.password_hash UserRow.set_active UserRow.is_active].
    now rewrite Hver.
Qed.

Lemma deactivation_blocks_login_witness :
  let alice := UserRow.mk 1 "alice@example.com" "secret1" "Alice"
                 None false true 0 in
  let site := mkSite [alice] db0 in
  login demo_library Anonymous POST alice_login site = LoggedIn alice /\
  login demo_library Anonymous POST alice_login
    (snd (toggle_user_status (Admin 9) 1 env0 site)) = Deactivated.
Proof.
  intros alice site. split; [reflexivity|].
  destruct (deactivation_blocks_login demo_library 9 env0 site alice
              eq_refl eq_refl eq_refl eq_refl) as [_ H].
  destruct (H Anonymous POST alice_login eq_refl) as [_ Hd].
  apply Hd; reflexivity.
Defined.

(** ** Session identifiers *)

Lemma str_int_injective a b : str_int a = str_int b -> a = b.
Proof.
  unfold str_int. intros H.
  apply (f_equal NilEmpty.int_of_string) in H.
  rewrite !NilEmpty.isi in H. injection H as H.
  apply (f_equal Z.of_int) in H. now rewrite !DecimalZ.of_to in H.
Qed.

Lemma str_int_not_admin a s : str_int a <> String "a" s.
Proof.
  unfold str_int, NilEmpty.string_of_int.
  destruct (Z.to_int a) as [d|d]; [destruct d|]; discriminate.
Qed.

(** X19. The identifier that [get_id] keeps in the session tells the
    principal: two principals with the same identifier are the same, so a
    user is never taken for an administrator or for another user. *)
Theorem get_id_injective p q s :
  get_id p = Some s -> get_id q = Some s -> p = q.
Proof.
  destruct p as [|a|a], q as [|b|b]; simpl; intros Hp Hq; try discriminate;
    injection Hp as <-; injection Hq as Hq.
  - f_equal. symmetry. now apply str_int_injective.
  - exfalso. unfold admin_get_id, user_get_id in Hq. simpl in Hq.
    symmetry in Hq. exact (str_int_not_admin _ _ Hq).
  - exfalso. unfold admin_get_id, user_get_id in Hq. simpl in Hq.
    exact (str_int_not_admin _ _ Hq).
  - f_equal. unfold admin_get_id in Hq. cbn [append] in Hq.
    inversion Hq as [Htail]. symmetry. now apply str_int_injective.
Qed.

Lemma get_id_injective_witness :
  get_id (User 12) = Some "12"%string /\
  get_id (Admin 12) = Some "admin_12"%string /\
  forall q, get_id q = Some "12"%string -> User 12 = q.
Proof.
  split; [reflexivity|]. split; [reflexivity|].
  intros q Hq. exact (get_id_injective (User 12) q "12" eq_refl Hq).
Defined.

(** ** Changing a password *)



(** After alice has changed her password, the new one logs her in and bob
    is as he was. *)
Example change_password_scenario :
  let form := ChangePasswordForm.mk "secret1" "betterpw" "betterpw" in
  let site' := snd (change_password demo_library (UserObject alice) POST form
                      "salt" env0 site1) in
  (exists u, login demo_library Anonymous POST
               (LoginForm.mk "alice@example.com" "betterpw" false) site'
             = LoggedIn u /\ UserRow.id u = 1) /\
  login demo_library Anonymous POST
    (LoginForm.mk "alice@example.com" "secret1" false) site' = InvalidCredentials /\
  In bob (users site').
Proof.
  split; [eexists; split; reflexivity|]. split; [reflexivity|].
  right. now left.
Qed.

(** ** Records and histories *)

(** X21. A committed transfer shows in the history of both parties and of
    nobody else: after a successful transfer the record appended to the
    ledger is in the history of an account exactly when the account is the
    source or the destination of the transfer. *)
Theorem transfer_in_both_histories cu m form e db :
  fst (transfer cu m form e db) = Success ->
  exists x src dst,
    query_get (TransferForm.from_account form) (accounts db) = Some src /\
    first_by_number (TransferForm.to_account_id form) (accounts db) = Some dst /\
    transactions (snd (transfer cu m form e db)) = transactions db ++ [x] /\
    forall a,
      In x (Account.get_all_transactions a
              (transactions (snd (transfer cu m form e db))))
      <-> Account.id a = Account.id src \/ Account.id a = Account.id dst.
Proof.
  intros Hs.
  destruct (transfer_cases cu m form e db)
    as [[uid [src [dst [_ [_ [Hacc [_ Heq]]]]]]]|[Hfail _]]; [|contradiction].
  destruct Hacc as [Hsrc [Hdst _]].
  rewrite Heq. cbn [snd]. unfold transferred. cbn [transactions].
  eexists _, src, dst. split; [exact Hsrc|]. split; [exact Hdst|].
  split; [reflexivity|].
  intros a. rewrite history_members. cbn [Transaction.from_account_id
    Transaction.to_account_id transfer_record]. split.
  - intros [_ [H|H]]; injection H as H; [left | right]; now symmetry.
  - intros H. split; [apply in_or_app; right; now left|].
    destruct H as [H|H]; [left | right]; now rewrite H.
Qed.

Lemma transfer_in_both_histories_witness :
  let db' := snd (transfer (User 1) POST t20 env0 db0) in
  exists x,
    transactions db' = [x] /\
    In x (Account.get_all_transactions acc1 (transactions db')) /\
    In x (Account.get_all_transactions acc2 (transactions db')) /\
    ~ In x (Account.get_all_transactions acc3 (transactions db')).
Proof.
  intros db'.
  destruct (transfer_in_both_histories (User 1) POST t20 env0 db0 eq_refl)
    as [x [src [dst [Hsrc [Hdst [Htx Hhist]]]]]].
  vm_compute in Hsrc, Hdst. injection Hsrc as <-. injection Hdst as <-.
  exists x. subst db'. split; [exact Htx|].
  split; [exact (proj2 (Hhist acc1) (or_introl eq_refl))|].
  split; [exact (proj2 (Hhist acc2) (or_intror eq_refl))|].
  intros Hin. destruct (proj1 (Hhist acc3) Hin) as [H|H]; discriminate.
Defined.

(** ** The methods of Account *)

(** X22. [Account.withdraw] undoes [Account.deposit] and the other way
    round: on an account that is not overdrawn, withdrawing what was just
    deposited succeeds and gives the account back, and depositing what was
    just withdrawn gives the account back.  A withdrawal of a non-negative
    amount never raises the balance and never overdraws an account that
    was not overdrawn; the sign of the amount is not checked, so a
    negative amount is paid in instead. *)
Theorem account_methods_round_trip c a :
  0 <= Account.balance a ->
  Account.withdraw c (Account.deposit c a) = (true, a) /\
  (fst (Account.withdraw c a) = true ->
   Account.deposit c (snd (Account.withdraw c a)) = a) /\
  0 <= Account.balance (snd (Account.withdraw c a)) /\
  (0 <= c -> Account.balance (snd (Account.withdraw c a)) <= Account.balance a) /\
  (c < 0 -> Account.withdraw c a = (true, Account.deposit (- c) a)).
Proof.
  intros Hb. destruct a as [i u n t b f]. unfold Account.withdraw, Account.deposit,
    Account.set_balance. simpl in *.
  split.
  { assert (E : (b + c >=? c) = true) by lia. rewrite E.
    f_equal; f_equal; lia. }
  split.
  { destruct (b >=? c) eqn:E; simpl; [|discriminate].
    intros _. f_equal; lia. }
  split; [destruct (b >=? c) eqn:E; simpl; lia|].
  split; [intros Hc; destruct (b >=? c) eqn:E; simpl; lia|].
  intros Hc. assert (E : (b >=? c) = true) by lia. rewrite E.
  f_equal; f_equal; lia.
Qed.

Lemma account_methods_round_trip_witness :
  Account.withdraw 700 (Account.deposit 700 acc1) = (true, acc1) /\
  Account.withdraw 6000 acc1 = (false, acc1) /\
  Account.balance (snd (Account.withdraw (-5) acc1)) = 5005.
Proof.
  destruct (account_methods_round_trip 700 acc1 ltac:(discriminate)) as [H _].
  split; [exact H|]. split; reflexivity.
Defined.
